(** * hairstyle_analyzer: the Streamlit front end, shallowly embedded

    The functions of [hairstyle_analyzer/ui/streamlit_app.py] that drive a
    batch of images (session bootstrap, progress bookkeeping, the batch
    loop, the template selection screen, the result views and the upload
    handler) are translated to Rocq functions.

    Conventions.
    - Python [int] is [Z]; list positions coming from [enumerate] are [nat].
    - Python [str] is [string] (a byte string holding the UTF-8 text).
    - A [dict] keyed by image name is a [gmap string _].
    - [st.session_state] is a record with one optional field per key; a key
      that is absent from the session is [None].
    - Code that can raise runs in a state-and-exception monad whose state
      survives a raise, as a mutated Python object does. Only subclasses of
      [Exception] are modelled (what [except Exception] catches). *)

From Stdlib Require Import ZArith String Ascii List Lia Bool.
From stdpp Require Import base option list gmap strings pretty.

Open Scope Z_scope.

(** ** Exceptions and the monad *)

Inductive exn : Type :=
  | IndexError                      (* list index out of range *)
  | KeyError (key : string)         (* missing dict key *)
  | AttributeError (attr : string)  (* missing attribute *)
  | TypeError (msg : string)        (* operation on a value of the wrong type *)
  | Exception (msg : string).       (* any other Exception of a collaborator *)

(** [str(e)] *)
Definition exn_str (e : exn) : string :=
  match e with
  | IndexError => "list index out of range"
  | KeyError k => "'" +:+ k +:+ "'"
  | AttributeError a => "object has no attribute '" +:+ a +:+ "'"
  | TypeError msg => msg
  | Exception msg => msg
  end.

Inductive outcome (A : Type) : Type :=
  | Normal (a : A)
  | Raised (e : exn).
Arguments Normal {A} a.
Arguments Raised {A} e.

Definition is_normal {A} (o : outcome A) : bool :=
  match o with Normal _ => true | Raised _ => false end.

Definition M (St A : Type) : Type := St -> outcome A * St.

Definition ret {St A} (a : A) : M St A := fun s => (Normal a, s).

Definition bind {St A B} (c : M St A) (k : A -> M St B) : M St B :=
  fun s => match c s with
           | (Normal a, s') => k a s'
           | (Raised e, s') => (Raised e, s')
           end.

Definition raise {St A} (e : exn) : M St A := fun s => (Raised e, s).

(** [try: body except Exception as e: handler e] *)
Definition try_except {St A} (body : M St A) (handler : exn -> M St A) : M St A :=
  fun s => match body s with
           | (Normal a, s') => (Normal a, s')
           | (Raised e, s') => handler e s'
           end.

Definition get {St} : M St St := fun s => (Normal s, s).
Definition put {St} (s : St) : M St unit := fun _ => (Normal tt, s).
Definition modify {St} (f : St -> St) : M St unit := fun s => (Normal tt, f s).

Notation "'do' x <- c ; k" := (bind c (fun x => k))
  (at level 10, x name, c at level 100, k at level 200).
Notation "'do_' c ; k" := (bind c (fun _ => k))
  (at level 10, c at level 100, k at level 200).

(** [for x in xs: body x] *)
Fixpoint for_each {St A} (xs : list A) (body : A -> M St unit) : M St unit :=
  match xs with
  | [] => ret tt
  | x :: xs' => do_ body x; for_each xs' body
  end.

(** [for i, x in enumerate(xs): body i x], counting from [i0] *)
Fixpoint for_enumerate {St A} (i0 : nat) (xs : list A)
    (body : nat -> A -> M St unit) : M St unit :=
  match xs with
  | [] => ret tt
  | x :: xs' => do_ body i0 x; for_enumerate (S i0) xs' body
  end.

(** Python's [l[i]]: a negative index counts from the end. *)
Definition py_index {A} (l : list A) (i : Z) : outcome A :=
  let n := Z.of_nat (length l) in
  let j := if i <? 0 then i + n else i in
  if (0 <=? j) && (j <? n)
  then match l !! Z.to_nat j with
       | Some x => Normal x
       | None => Raised IndexError
       end
  else Raised IndexError.

Definition lift_outcome {St A} (o : outcome A) : M St A := fun s => (o, s).

Definition nl : string := String (ascii_of_nat 10) EmptyString.

(** ** Data model *)

(** Modelled from the spec: the value classes of
    [hairstyle_analyzer.data.models], which [streamlit_app.py] imports
    (section 3 of the specification lists their fields). *)
Record Template : Type := {
  category : string;
  title : string;
  menu : string;
  comment : string;
  hashtag : string;
}.

Record StyleFeatures : Type := {
  color : string;
  cut_technique : string;
  styling : string;
  impression : string;
}.

Record StyleAnalysis : Type := {
  sa_category : string;
  features : StyleFeatures;
  keywords : list string;
}.

Record AttributeAnalysis : Type := {
  sex : string;
  length_ : string;
}.

Record StylistInfo : Type := {
  stylist_name : string;
  specialties : string;
  stylist_description : string;
}.

Record CouponInfo : Type := {
  coupon_name : string;
  price : Z;
  coupon_description : string;
}.

Record ProcessResult : Type := {
  image_name : string;
  style_analysis : StyleAnalysis;
  attribute_analysis : AttributeAnalysis;
  selected_template : option Template;
  alternative_templates : list Template;
  user_selected_template : option Template;
  selected_stylist : option StylistInfo;
  selected_coupon : option CouponInfo;
  stylist_reason : string;
  coupon_reason : string;
  template_reason : string;
}.

(** [result.user_selected_template = t] *)
Definition set_user_selected_template (t : option Template) (r : ProcessResult)
    : ProcessResult :=
  {| image_name := image_name r;
     style_analysis := style_analysis r;
     attribute_analysis := attribute_analysis r;
     selected_template := selected_template r;
     alternative_templates := alternative_templates r;
     user_selected_template := t;
     selected_stylist := selected_stylist r;
     selected_coupon := selected_coupon r;
     stylist_reason := stylist_reason r;
     coupon_reason := coupon_reason r;
     template_reason := template_reason r |}.

(** A value of a loosely typed result dict. *)
Inductive dval : Type :=
  | DStr (s : string)
  | DOther (tag : nat).

#[global] Instance dval_eq_dec : EqDecision dval.
Proof. solve_decision. Defined.

(** What [processor.process_single_image] hands back, when it is not
    [None]: a [ProcessResult] object, or a dict of the older format. *)
Inductive pyresult : Type :=
  | RObj (r : ProcessResult)
  | RDict (d : gmap string dval).

(** Python truthiness of an optional result: [None] and the empty dict are
    false, every object is true. *)
Definition truthy (r : option pyresult) : bool :=
  match r with
  | None => false
  | Some (RObj _) => true
  | Some (RDict d) => negb (bool_decide (d = ∅))
  end.

(** A clock reading of [time.time()]; it is stored and never computed
    with by the functions below. *)
Definition timestamp : Type := Z.

(** The progress dict. [stage_details] is a key that may be absent. *)
Record progress : Type := {
  current : Z;
  total : Z;
  message : string;
  start_time : option timestamp;
  complete : bool;
  stage_details : option string;
}.

Definition set_current (v : Z) (p : progress) : progress :=
  {| current := v; total := total p; message := message p;
     start_time := start_time p; complete := complete p;
     stage_details := stage_details p |}.
Definition set_total (v : Z) (p : progress) : progress :=
  {| current := current p; total := v; message := message p;
     start_time := start_time p; complete := complete p;
     stage_details := stage_details p |}.
Definition set_message (v : string) (p : progress) : progress :=
  {| current := current p; total := total p; message := v;
     start_time := start_time p; complete := complete p;
     stage_details := stage_details p |}.
Definition set_complete (v : bool) (p : progress) : progress :=
  {| current := current p; total := total p; message := message p;
     start_time := start_time p; complete := v;
     stage_details := stage_details p |}.
Definition set_stage_details (v : string) (p : progress) : progress :=
  {| current := current p; total := total p; message := message p;
     start_time := start_time p; complete := complete p;
     stage_details := Some v |}.

(** ** Collaborators *)

(** Modelled from the spec: [hairstyle_analyzer.core.processor.MainProcessor]
    is outside this module; only [process_single_image] is called here
    (the stage runner of section 4.3: a [ProcessResult], nothing, or a
    raised exception). The second argument is the pair of salon lists when
    the caller passes them. What a call gives is taken to depend on its
    arguments only. *)
Record Processor : Type := {
  process_single_image :
    string -> option (list StylistInfo * list CouponInfo) -> bool ->
    outcome (option pyresult);
}.

(** [ConfigManager(path)], kept by the path it was loaded from. *)
Inductive ConfigManager : Type :=
  | config_manager_at (path : string).

(** ** The session *)

Record stages : Type := {
  processing_done : bool;
  template_selection_done : bool;
  results_display_done : bool;
}.

(** [st.session_state]. [ss_processor = Some None] is the key
    [SESSION_PROCESSOR] holding Python's [None]. *)
Record session : Type := {
  ss_salon_url : option string;                           (* SESSION_SALON_URL *)
  ss_processor : option (option Processor);               (* SESSION_PROCESSOR *)
  ss_results : option (list pyresult);                    (* SESSION_RESULTS *)
  ss_stylists : option (list StylistInfo);                (* SESSION_STYLISTS *)
  ss_coupons : option (list CouponInfo);                  (* SESSION_COUPONS *)
  ss_progress : option progress;                          (* SESSION_PROGRESS *)
  ss_use_cache : option bool;                             (* SESSION_USE_CACHE *)
  ss_config : option ConfigManager;                       (* SESSION_CONFIG *)
  ss_processing_stages : option stages;                   (* SESSION_PROCESSING_STAGES *)
  ss_template_choices : option (gmap string (list (option Template)));  (* SESSION_TEMPLATE_CHOICES *)
  ss_user_selections : option (gmap string Z);            (* SESSION_USER_SELECTIONS *)
  ss_confirm_template_selections : option bool;           (* 'confirm_template_selections' *)
}.

Definition empty_session : session :=
  {| ss_salon_url := None; ss_processor := None; ss_results := None;
     ss_stylists := None; ss_coupons := None; ss_progress := None;
     ss_use_cache := None; ss_config := None; ss_processing_stages := None;
     ss_template_choices := None; ss_user_selections := None;
     ss_confirm_template_selections := None |}.

(** [set_session_value(KEY, v)], one function per key. *)
Definition set_salon_url v (s : session) : session :=
  {| ss_salon_url := Some v; ss_processor := ss_processor s;
     ss_results := ss_results s; ss_stylists := ss_stylists s;
     ss_coupons := ss_coupons s; ss_progress := ss_progress s;
     ss_use_cache := ss_use_cache s; ss_config := ss_config s;
     ss_processing_stages := ss_processing_stages s;
     ss_template_choices := ss_template_choices s;
     ss_user_selections := ss_user_selections s;
     ss_confirm_template_selections := ss_confirm_template_selections s |}.
Definition set_processor v (s : session) : session :=
  {| ss_salon_url := ss_salon_url s; ss_processor := Some v;
     ss_results := ss_results s; ss_stylists := ss_stylists s;
     ss_coupons := ss_coupons s; ss_progress := ss_progress s;
     ss_use_cache := ss_use_cache s; ss_config := ss_config s;
     ss_processing_stages := ss_processing_stages s;
     ss_template_choices := ss_template_choices s;
     ss_user_selections := ss_user_selections s;
     ss_confirm_template_selections := ss_confirm_template_selections s |}.
Definition set_results v (s : session) : session :=
  {| ss_salon_url := ss_salon_url s; ss_processor := ss_processor s;
     ss_results := Some v; ss_stylists := ss_stylists s;
     ss_coupons := ss_coupons s; ss_progress := ss_progress s;
     ss_use_cache := ss_use_cache s; ss_config := ss_config s;
     ss_processing_stages := ss_processing_stages s;
     ss_template_choices := ss_template_choices s;
     ss_user_selections := ss_user_selections s;
     ss_confirm_template_selections := ss_confirm_template_selections s |}.
Definition set_stylists v (s : session) : session :=
  {| ss_salon_url := ss_salon_url s; ss_processor := ss_processor s;
     ss_results := ss_results s; ss_stylists := Some v;
     ss_coupons := ss_coupons s; ss_progress := ss_progress s;
     ss_use_cache := ss_use_cache s; ss_config := ss_config s;
     ss_processing_stages := ss_processing_stages s;
     ss_template_choices := ss_template_choices s;
     ss_user_selections := ss_user_selections s;
     ss_confirm_template_selections := ss_confirm_template_selections s |}.
Definition set_coupons v (s : session) : session :=
  {| ss_salon_url := ss_salon_url s; ss_processor := ss_processor s;
     ss_results := ss_results s; ss_stylists := ss_stylists s;
     ss_coupons := Some v; ss_progress := ss_progress s;
     ss_use_cache := ss_use_cache s; ss_config := ss_config s;
     ss_processing_stages := ss_processing_stages s;
     ss_template_choices := ss_template_choices s;
     ss_user_selections := ss_user_selections s;
     ss_confirm_template_selections := ss_confirm_template_selections s |}.
Definition set_progress v (s : session) : session :=
  {| ss_salon_url := ss_salon_url s; ss_processor := ss_processor s;
     ss_results := ss_results s; ss_stylists := ss_stylists s;
     ss_coupons := ss_coupons s; ss_progress := Some v;
     ss_use_cache := ss_use_cache s; ss_config := ss_config s;
     ss_processing_stages := ss_processing_stages s;
     ss_template_choices := ss_template_choices s;
     ss_user_selections := ss_user_selections s;
     ss_confirm_template_selections := ss_confirm_template_selections s |}.
Definition set_use_cache v (s : session) : session :=
  {| ss_salon_url := ss_salon_url s; ss_processor := ss_processor s;
     ss_results := ss_results s; ss_stylists := ss_stylists s;
     ss_coupons := ss_coupons s; ss_progress := ss_progress s;
     ss_use_cache := Some v; ss_config := ss_config s;
     ss_processing_stages := ss_processing_stages s;
     ss_template_choices := ss_template_choices s;
     ss_user_selections := ss_user_selections s;
     ss_confirm_template_selections := ss_confirm_template_selections s |}.
Definition set_config v (s : session) : session :=
  {| ss_salon_url := ss_salon_url s; ss_processor := ss_processor s;
     ss_results := ss_results s; ss_stylists := ss_stylists s;
     ss_coupons := ss_coupons s; ss_progress := ss_progress s;
     ss_use_cache := ss_use_cache s; ss_config := Some v;
     ss_processing_stages := ss_processing_stages s;
     ss_template_choices := ss_template_choices s;
     ss_user_selections := ss_user_selections s;
     ss_confirm_template_selections := ss_confirm_template_selections s |}.
Definition set_processing_stages v (s : session) : session :=
  {| ss_salon_url := ss_salon_url s; ss_processor := ss_processor s;
     ss_results := ss_results s; ss_stylists := ss_stylists s;
     ss_coupons := ss_coupons s; ss_progress := ss_progress s;
     ss_use_cache := ss_use_cache s; ss_config := ss_config s;
     ss_processing_stages := Some v;
     ss_template_choices := ss_template_choices s;
     ss_user_selections := ss_user_selections s;
     ss_confirm_template_selections := ss_confirm_template_selections s |}.
Definition set_template_choices v (s : session) : session :=
  {| ss_salon_url := ss_salon_url s; ss_processor := ss_processor s;
     ss_results := ss_results s; ss_stylists := ss_stylists s;
     ss_coupons := ss_coupons s; ss_progress := ss_progress s;
     ss_use_cache := ss_use_cache s; ss_config := ss_config s;
     ss_processing_stages := ss_processing_stages s;
     ss_template_choices := Some v;
     ss_user_selections := ss_user_selections s;
     ss_confirm_template_selections := ss_confirm_template_selections s |}.
Definition set_user_selections v (s : session) : session :=
  {| ss_salon_url := ss_salon_url s; ss_processor := ss_processor s;
     ss_results := ss_results s; ss_stylists := ss_stylists s;
     ss_coupons := ss_coupons s; ss_progress := ss_progress s;
     ss_use_cache := ss_use_cache s; ss_config := ss_config s;
     ss_processing_stages := ss_processing_stages s;
     ss_template_choices := ss_template_choices s;
     ss_user_selections := Some v;
     ss_confirm_template_selections := ss_confirm_template_selections s |}.
Definition set_confirm_template_selections v (s : session) : session :=
  {| ss_salon_url := ss_salon_url s; ss_processor := ss_processor s;
     ss_results := ss_results s; ss_stylists := ss_stylists s;
     ss_coupons := ss_coupons s; ss_progress := ss_progress s;
     ss_use_cache := ss_use_cache s; ss_config := ss_config s;
     ss_processing_stages := ss_processing_stages s;
     ss_template_choices := ss_template_choices s;
     ss_user_selections := ss_user_selections s;
     ss_confirm_template_selections := Some v |}.

(** [has_session_key(KEY)], for the key read by [field]. *)
Definition has_session_key {A} (field : session -> option A) : M session bool :=
  do s <- get; ret (bool_decide (is_Some (field s))).

(** [set_session_value(KEY, value)] *)
Definition set_session_value (setter : session -> session) : M session unit :=
  modify setter.

(** [if not has_session_key(KEY): set_session_value(KEY, value)] *)
Definition init_key {A} (field : session -> option A)
    (setter : session -> session) : M session unit :=
  do present <- has_session_key field;
  if negb present then set_session_value setter else ret tt.

Definition initial_progress : progress :=
  {| current := 0; total := 0; message := ""; start_time := None;
     complete := false; stage_details := None |}.

Definition init_session_state : M session unit :=
  do_ init_key ss_processor (set_processor None);
  do_ init_key ss_results (set_results []);
  do_ init_key ss_progress (set_progress initial_progress);
  do_ init_key ss_stylists (set_stylists []);
  do_ init_key ss_coupons (set_coupons []);
  do_ init_key ss_use_cache (set_use_cache false);
  do_ init_key ss_template_choices (set_template_choices ∅);
  do_ init_key ss_user_selections (set_user_selections ∅);
  init_key ss_salon_url (set_salon_url "").

(** The keys [init_session_state] manages are all present. *)
Definition all_managed_keys_present (s : session) : Prop :=
  is_Some (ss_processor s) ∧ is_Some (ss_results s) ∧ is_Some (ss_progress s) ∧
  is_Some (ss_stylists s) ∧ is_Some (ss_coupons s) ∧ is_Some (ss_use_cache s) ∧
  is_Some (ss_template_choices s) ∧ is_Some (ss_user_selections s) ∧
  is_Some (ss_salon_url s).

(** Every managed key that holds a value in [s] holds the same value in [s']. *)
Definition keeps_managed_values (s s' : session) : Prop :=
  (∀ v, ss_processor s = Some v -> ss_processor s' = Some v)
  ∧ (∀ v, ss_results s = Some v -> ss_results s' = Some v)
  ∧ (∀ v, ss_progress s = Some v -> ss_progress s' = Some v)
  ∧ (∀ v, ss_stylists s = Some v -> ss_stylists s' = Some v)
  ∧ (∀ v, ss_coupons s = Some v -> ss_coupons s' = Some v)
  ∧ (∀ v, ss_use_cache s = Some v -> ss_use_cache s' = Some v)
  ∧ (∀ v, ss_template_choices s = Some v -> ss_template_choices s' = Some v)
  ∧ (∀ v, ss_user_selections s = Some v -> ss_user_selections s' = Some v)
  ∧ (∀ v, ss_salon_url s = Some v -> ss_salon_url s' = Some v).

(** A session in which a user has already worked: every managed key holds a
    value that differs from the one [init_session_state] would write. *)
Definition busy_session : session :=
  {| ss_salon_url := Some "https://beauty.hotpepper.jp/slnH000000000/";
     ss_processor := Some None;
     ss_results := Some [RDict {[ "image_name" := DStr "a.jpg" ]}];
     ss_stylists := Some [{| stylist_name := "A"; specialties := "cut";
                             stylist_description := "" |}];
     ss_coupons := Some [{| coupon_name := "C"; price := 5000;
                            coupon_description := "" |}];
     ss_progress := Some {| current := 2; total := 3; message := "m";
                            start_time := Some 17; complete := false;
                            stage_details := None |};
     ss_use_cache := Some true;
     ss_config := None;
     ss_processing_stages := None;
     ss_template_choices := Some ∅;
     ss_user_selections := Some {[ "a.jpg" := 1 ]};
     ss_confirm_template_selections := None |}.

(** Truthiness of an optional string argument ([None] and [""] are false). *)
Definition str_truthy (o : option string) : bool :=
  match o with
  | Some (String _ _) => true
  | _ => false
  end.

(** [update_progress(current, total, message, stage_details)]: the dict
    held under [SESSION_PROGRESS] is changed in place and stored back. *)
Definition update_progress (current_ total_ : Z) (message_ : string)
    (stage_details_ : option string) : M session unit :=
  do present <- has_session_key ss_progress;
  if present then
    do s <- get;
    match ss_progress s with
    | Some progress0 =>
        let progress1 := set_current current_ progress0 in
        let progress2 := set_total total_ progress1 in
        let progress3 := set_message message_ progress2 in
        let progress4 :=
          if str_truthy stage_details_
          then set_stage_details (default "" stage_details_) progress3
          else progress3 in
        let progress5 :=
          if (total_ <=? current_) && (0 <? total_)
          then set_complete true progress4
          else progress4 in
        set_session_value (set_progress progress5)
    | None => raise (KeyError "progress")
    end
  else ret tt.

(** ** Paths (pathlib, POSIX flavour) *)

(** [s.split(sep)] for a one-character separator. *)
Fixpoint split_on (sep : ascii) (s : string) : list string :=
  match s with
  | EmptyString => [EmptyString]
  | String c s' =>
      if Ascii.eqb c sep then EmptyString :: split_on sep s'
      else match split_on sep s' with
           | [] => [String c EmptyString]
           | w :: ws => String c w :: ws
           end
  end.

Definition slash : ascii := ascii_of_nat 47.
Definition dot : ascii := ascii_of_nat 46.

(** The components of [Path(s)] below its root: empty components and
    ["."] are dropped. *)
Definition path_parts (s : string) : list string :=
  filter (fun w => w ≠ "" ∧ w ≠ ".") (split_on slash s).

(** [Path(s).name] *)
Definition path_name (s : string) : string :=
  List.last (path_parts s) "".

Fixpoint join_with (sep : string) (ws : list string) : string :=
  match ws with
  | [] => ""
  | [w] => w
  | w :: ws' => w +:+ sep +:+ join_with sep ws'
  end.

Fixpoint leading_slashes (s : string) : nat :=
  match s with
  | String c s' => if Ascii.eqb c slash then S (leading_slashes s') else 0%nat
  | EmptyString => 0%nat
  end.

(** [str(Path(s))] *)
Definition path_str (s : string) : string :=
  let body := join_with "/" (path_parts s) in
  match leading_slashes s with
  | 0%nat => if bool_decide (body = "") then "." else body
  | 2%nat => "//" +:+ body
  | _ => "/" +:+ body
  end.

(** [s.rfind(c)], [None] for -1. *)
Fixpoint rfind (c : ascii) (s : string) : option nat :=
  match s with
  | EmptyString => None
  | String a s' =>
      match rfind c s' with
      | Some i => Some (S i)
      | None => if Ascii.eqb a c then Some 0%nat else None
      end
  end.

Fixpoint string_drop (n : nat) (s : string) : string :=
  match n, s with
  | S n', String _ s' => string_drop n' s'
  | _, _ => s
  end.

(** [Path(s).suffix], as pathlib computes it up to Python 3.12: the part of
    the name from its last dot, unless that dot is first or last. *)
Definition path_suffix (s : string) : string :=
  let name := path_name s in
  match rfind dot name with
  | Some i =>
      if bool_decide (0 < i ∧ i < String.length name - 1)%nat
      then string_drop i name else ""
  | None => ""
  end.

Definition lower_ascii (c : ascii) : ascii :=
  let n := nat_of_ascii c in
  if bool_decide (65 ≤ n ∧ n ≤ 90)%nat then ascii_of_nat (n + 32) else c.

(** [s.lower()] on the ASCII letters. A character outside ASCII never
    lowers to one of the letters of the accepted extensions, so the
    membership test on the result is the one Python computes. *)
Fixpoint lower (s : string) : string :=
  match s with
  | EmptyString => EmptyString
  | String c s' => String (lower_ascii c) (lower s')
  end.

(** ** The batch: [process_images] *)

(** What the code can see of the world outside the session. For the
    batch: the clock, loading the configuration file, and the construction
    of the processor from a configuration (the body of [create_processor]'s
    [try], which assembles collaborators of other modules). For the pages
    of [main]: whether the bar, the texts and the timings of
    [display_progress] (lines 375-471: float arithmetic on the counters and
    on [time.time()], handed to [st.progress] and [st.write]) are drawn or
    raise; the object that lines 878-945 build from a dict with the
    constructors of [hairstyle_analyzer.data.models], which may refuse its
    values; and the exporters of a processor: whether it has them, and
    what [excel_exporter.get_binary_data] and
    [text_exporter.get_text_content] give for a list of results (an empty
    value stands for everything Python counts as false). *)
Record environment : Type := {
  now : timestamp;
  load_config : string -> outcome ConfigManager;
  build_processor : ConfigManager -> bool -> outcome (option Processor);
  draw_progress : progress -> outcome unit;
  result_of_dict : gmap string dval -> outcome ProcessResult;
  has_excel_exporter : Processor -> bool;
  excel_binary_data : Processor -> list ProcessResult -> outcome (list Byte.byte);
  has_text_exporter : Processor -> bool;
  text_content : Processor -> list ProcessResult -> outcome string;
}.

(** The state of a batch run: the session, and the successive values the
    progress dict has taken since it was installed, newest first. The
    history is bookkeeping of this model; the code keeps no such list. *)
Record world : Type := {
  session_of : session;
  history : list progress;
}.

(** Run a session operation in a batch. *)
Definition in_session {A} (c : M session A) : M world A :=
  fun w => match c (session_of w) with
           | (o, s') => (o, {| session_of := s'; history := history w |})
           end.

(** [get_config_manager()] *)
Definition get_config_manager (env : environment) : M session ConfigManager :=
  do present <- has_session_key ss_config;
  if present then
    do s <- get;
    match ss_config s with
    | Some c => ret c
    | None => raise (KeyError "config")
    end
  else
    do c <- lift_outcome (load_config env "config/config.yaml");
    do_ set_session_value (set_config c);
    ret c.

(** [create_processor(config_manager)]: [None] when there is no
    configuration or when anything raises. *)
Definition create_processor (env : environment) (cm : option ConfigManager)
    : M session (option Processor) :=
  try_except
    (match cm with
     | None => ret None
     | Some c =>
         do s <- get;
         lift_outcome (build_processor env c (default true (ss_use_cache s)))
     end)
    (fun _ => ret None).

Definition processing_stages_labels : list string :=
  ["画像読み込み"; "スタイル分析"; "テンプレートマッチング";
   "スタイリスト選択"; "タイトル生成"].

Definition stage_label (k : nat) : string :=
  default "" (processing_stages_labels !! k).

(** [progress = {...}; st.session_state[SESSION_PROGRESS] = progress]: from
    here on the local [progress] and the session entry are one object. *)
Definition install_progress (p : progress) : M world unit :=
  modify (fun w => {| session_of := set_progress p (session_of w);
                      history := p :: history w |}).

(** [progress[key] = value] on that object: the session sees the new
    value at once. *)
Definition mutate_progress (f : progress -> progress) : M world unit :=
  modify (fun w =>
    match ss_progress (session_of w) with
    | Some p => {| session_of := set_progress (f p) (session_of w);
                   history := f p :: history w |}
    | None => w
    end).

(** [st.session_state[SESSION_PROGRESS] = progress] again: the entry
    already is that object. *)
Definition restore_progress : M world unit := ret tt.

Definition list_truthy {A} (o : option (list A)) : bool :=
  match o with
  | Some (_ :: _) => true
  | _ => false
  end.

(** [if isinstance(result, dict) and 'image_name' not in result: ...] *)
Definition tag_result (image_name_ path_text : string) (r : pyresult) : pyresult :=
  match r with
  | RDict d =>
      if bool_decide (is_Some (d !! "image_name")) then RDict d
      else RDict (<["image_path" := DStr path_text]>
                    (<["image_name" := DStr image_name_]> d))
  | RObj o => RObj o
  end.

(** The texts written into the progress dict. *)
Definition message_processing (i total_ : nat) : string :=
  "画像 " +:+ pretty (i + 1)%nat +:+ "/" +:+ pretty total_ +:+ " を処理中...".
Definition details_started (image_name_ : string) : string :=
  "画像: " +:+ image_name_ +:+ nl
  +:+ "現在の段階: " +:+ stage_label 0 +:+ nl
  +:+ "次の段階: " +:+ stage_label 1.
Definition details_finished (image_name_ : string) : string :=
  "画像: " +:+ image_name_ +:+ nl
  +:+ "完了した段階: " +:+ join_with ", " processing_stages_labels +:+ nl
  +:+ "処理完了".
Definition details_failed (image_name_ : string) (e : exn) : string :=
  "画像: " +:+ image_name_ +:+ nl
  +:+ "エラー発生: " +:+ exn_str e +:+ nl
  +:+ "次の画像に進みます".
Definition details_all_finished (total_ : nat) : string :=
  "全ての画像処理が完了しました。合計: " +:+ pretty total_ +:+ "画像".

(** The call of the processor for one image: with the salon data when both
    lists are non-empty, without it otherwise. *)
Definition call_processor (processor : Processor)
    (stylists : option (list StylistInfo)) (coupons : option (list CouponInfo))
    (use_cache : bool) (image_path : string) : outcome (option pyresult) :=
  if list_truthy stylists && list_truthy coupons
  then process_single_image processor image_path
         (Some (default [] stylists, default [] coupons)) use_cache
  else process_single_image processor image_path None use_cache.

(** One turn of [for i, image_path in enumerate(image_paths)]. The paths
    are strings, as [handle_image_upload] returns them, so [image_name] is
    bound before the call of the processor, the only step that can raise. *)
Definition process_one (processor : Processor) (total_ : nat)
    (stylists : option (list StylistInfo)) (coupons : option (list CouponInfo))
    (use_cache : bool) (i : nat) (image_path : string)
    (results : list pyresult) : M world (list pyresult) :=
  let image_name_ := path_name image_path in
  try_except
    (do_ mutate_progress (set_current (Z.of_nat i));
     do_ mutate_progress (set_message (message_processing i total_));
     do_ mutate_progress (set_stage_details (details_started image_name_));
     do_ restore_progress;
     do result <- lift_outcome
           (call_processor processor stylists coupons use_cache image_path);
     do_ mutate_progress (set_stage_details (details_finished image_name_));
     do_ restore_progress;
     match result with
     | Some r =>
         if truthy result
         then ret (results ++ [tag_result image_name_ (path_str image_path) r])
         else ret results
     | None => ret results
     end)
    (fun e =>
     do_ mutate_progress (set_stage_details (details_failed image_name_ e));
     do_ restore_progress;
     ret results).

(** The loop, threading the local [results]. *)
Fixpoint process_loop (body : nat -> string -> list pyresult -> M world (list pyresult))
    (i0 : nat) (image_paths : list string) (results : list pyresult)
    : M world (list pyresult) :=
  match image_paths with
  | [] => ret results
  | image_path :: rest =>
      do results' <- body i0 image_path results;
      process_loop body (S i0) rest results'
  end.

(** The dict installed before the loop. *)
Definition first_progress (env : environment) (total_ : nat) : progress :=
  {| current := 0; total := Z.of_nat total_;
     message := "初期化中..."; start_time := Some (now env);
     complete := false;
     stage_details := Some ("準備中: " +:+ stage_label 0) |}.

(** The part of [process_images] after a processor is at hand. *)
Definition process_batch (env : environment) (processor : Processor)
    (image_paths : list string)
    (stylists : option (list StylistInfo)) (coupons : option (list CouponInfo))
    (use_cache : bool) : M world (list pyresult) :=
  let total_ := length image_paths in
  match image_paths with
  | [] => ret []
  | _ :: _ =>
      do_ install_progress (first_progress env total_);
      try_except
        (do results <- process_loop
              (process_one processor total_ stylists coupons use_cache)
              0 image_paths [];
         do_ mutate_progress (set_current (Z.of_nat total_));
         do_ mutate_progress (set_message "処理完了");
         do_ mutate_progress (set_complete true);
         do_ mutate_progress (set_stage_details (details_all_finished total_));
         do_ restore_progress;
         ret results)
        (fun e =>
         do_ in_session
               (do present <- has_session_key ss_progress;
                if present then
                  do s <- get;
                  match ss_progress s with
                  | Some p =>
                      set_session_value (set_progress
                        (set_stage_details
                           ("処理中にエラーが発生しました:" +:+ nl +:+ exn_str e)
                           (set_message
                              ("エラーが発生しました: " +:+ exn_str e) p)))
                  | None => raise (KeyError "progress")
                  end
                else ret tt);
         ret [])
  end.

(** [process_images(processor, image_paths, stylists, coupons, use_cache)].
    The assignment [processor.use_cache = use_cache] sets an attribute that
    only the processor reads; the flag reaches it here as the argument of
    every call. The [await asyncio.sleep(0.1)] pauses have no effect on the
    state. *)
Definition process_images (env : environment) (processor : option Processor)
    (image_paths : list string)
    (stylists : option (list StylistInfo)) (coupons : option (list CouponInfo))
    (use_cache : bool) : M world (list pyresult) :=
  match processor with
  | Some p => process_batch env p image_paths stylists coupons use_cache
  | None =>
      do reinit <- try_except
            (do config_manager <- in_session (get_config_manager env);
             do p <- in_session (create_processor env (Some config_manager));
             match p with
             | None => ret None
             | Some p' =>
                 do_ in_session (set_session_value (set_processor (Some p')));
                 ret (Some p')
             end)
            (fun _ => ret None);
      match reinit with
      | None => ret []
      | Some p => process_batch env p image_paths stylists coupons use_cache
      end
  end.

(** *** What a batch returns and records, as plain functions *)

(** The contribution of one image to the returned list: its tagged result
    when the call returned a truthy one, nothing when the call raised or
    returned [None] or an empty dict. *)
Definition slot (processor : Processor)
    (stylists : option (list StylistInfo)) (coupons : option (list CouponInfo))
    (use_cache : bool) (image_path : string) : list pyresult :=
  match call_processor processor stylists coupons use_cache image_path with
  | Normal (Some r) =>
      if truthy (Some r)
      then [tag_result (path_name image_path) (path_str image_path) r]
      else []
  | Normal None => []
  | Raised _ => []
  end.

(** The values the progress dict takes during one turn, oldest first. *)
Definition turn_trace (processor : Processor) (total_ : nat)
    (stylists : option (list StylistInfo)) (coupons : option (list CouponInfo))
    (use_cache : bool) (i : nat) (image_path : string) (p : progress)
    : list progress :=
  let p1 := set_current (Z.of_nat i) p in
  let p2 := set_message (message_processing i total_) p1 in
  let p3 := set_stage_details (details_started (path_name image_path)) p2 in
  let p4 :=
    match call_processor processor stylists coupons use_cache image_path with
    | Normal _ => set_stage_details (details_finished (path_name image_path)) p3
    | Raised e => set_stage_details (details_failed (path_name image_path) e) p3
    end in
  [p1; p2; p3; p4].

(** The values it takes over the turns of the loop, oldest first. *)
Fixpoint loop_trace (processor : Processor) (total_ : nat)
    (stylists : option (list StylistInfo)) (coupons : option (list CouponInfo))
    (use_cache : bool) (i0 : nat) (image_paths : list string) (p : progress)
    : list progress :=
  match image_paths with
  | [] => []
  | image_path :: rest =>
      let t := turn_trace processor total_ stylists coupons use_cache i0 image_path p in
      t ++ loop_trace processor total_ stylists coupons use_cache (S i0) rest
             (List.last t p)
  end.

(** The four assignments after the loop, oldest first. *)
Definition closing_trace (total_ : nat) (p : progress) : list progress :=
  let p1 := set_current (Z.of_nat total_) p in
  let p2 := set_message "処理完了" p1 in
  let p3 := set_complete true p2 in
  let p4 := set_stage_details (details_all_finished total_) p3 in
  [p1; p2; p3; p4].

(** Everything recorded while the images are being processed: the
    installed dict and the turns of the loop. *)
Definition running_trace (env : environment) (processor : Processor)
    (image_paths : list string)
    (stylists : option (list StylistInfo)) (coupons : option (list CouponInfo))
    (use_cache : bool) : list progress :=
  let total_ := length image_paths in
  first_progress env total_
  :: loop_trace processor total_ stylists coupons use_cache 0 image_paths
       (first_progress env total_).

(** The whole record of a batch, oldest first. *)
Definition batch_trace (env : environment) (processor : Processor)
    (image_paths : list string)
    (stylists : option (list StylistInfo)) (coupons : option (list CouponInfo))
    (use_cache : bool) : list progress :=
  let running := running_trace env processor image_paths stylists coupons use_cache in
  running ++ closing_trace (length image_paths)
               (List.last running (first_progress env (length image_paths))).

(** *** Reading a record of progress values *)

(** The index never goes down along a record (oldest first). *)
Definition never_decreases (trace : list progress) : Prop :=
  ∀ (i j : nat) (a b : progress),
    (i ≤ j)%nat -> trace !! i = Some a -> trace !! j = Some b ->
    current a ≤ current b.

(** A value recorded while images are still being processed: not complete,
    and the index below the total. *)
Definition still_running (total_ : nat) (q : progress) : Prop :=
  total q = Z.of_nat total_ ∧ complete q = false
  ∧ 0 ≤ current q ∧ current q < Z.of_nat total_.

(** A value recorded after the loop: the index has reached the total. *)
Definition at_total (total_ : nat) (q : progress) : Prop :=
  total q = Z.of_nat total_ ∧ current q = Z.of_nat total_.

(** An image whose call returned a result that counts as one. *)
Definition succeeds (processor : Processor)
    (stylists : option (list StylistInfo)) (coupons : option (list CouponInfo))
    (use_cache : bool) (image_path : string) : bool :=
  match call_processor processor stylists coupons use_cache image_path with
  | Normal (Some r) => truthy (Some r)
  | Normal None => false
  | Raised _ => false
  end.

(** *** Sample data *)

Definition bob_template : Template :=
  {| category := "ミディアムボブ"; title := "ふんわりナチュラルミディアムボブ";
     menu := "カット+カラー"; comment := "柔らかな質感";
     hashtag := "#ナチュラル" |}.
Definition wave_template : Template :=
  {| category := "ミディアムボブ"; title := "大人かわいいウェーブボブ";
     menu := "カット+パーマ"; comment := "ゆるふわパーマ";
     hashtag := "#ウェーブ" |}.
Definition layer_template : Template :=
  {| category := "ミディアムレイヤー"; title := "シースルーバングミディアム";
     menu := "カット+前髪カット"; comment := "軽やかな印象";
     hashtag := "#シースルーバング" |}.

Definition sample_result (name : string) : ProcessResult :=
  {| image_name := name;
     style_analysis :=
       {| sa_category := "ミディアムボブ";
          features := {| color := "アッシュブラウン"; cut_technique := "グラデーションカット";
                         styling := "ナチュラルウェーブ"; impression := "柔らかな印象" |};
          keywords := ["ナチュラル"; "ウェーブ"; "ボブ"] |};
     attribute_analysis := {| sex := "レディース"; length_ := "ミディアム" |};
     selected_template := Some bob_template;
     alternative_templates := [wave_template; layer_template];
     user_selected_template := None;
     selected_stylist := None;
     selected_coupon := None;
     stylist_reason := ""; coupon_reason := ""; template_reason := "" |}.

(** A processor that analyses every image. *)
Definition steady_processor : Processor :=
  {| process_single_image := fun image_path _ _ =>
       Normal (Some (RObj (sample_result (path_name image_path)))) |}.

(** A processor whose analysis fails on the image at [bad]. *)
Definition flaky_processor (bad : string) : Processor :=
  {| process_single_image := fun image_path _ _ =>
       if bool_decide (image_path = bad)
       then Raised (Exception "analysis failed")
       else Normal (Some (RObj (sample_result (path_name image_path)))) |}.

(** An environment in which no processor can be built (no template file).
    The progress bar is drawn, a dict is refused by the constructors, and
    the exporters of a processor give a small file and a line per result. *)
Definition bare_environment : environment :=
  {| now := 1700000000;
     load_config := fun path => Normal (config_manager_at path);
     build_processor := fun _ _ => Normal None;
     draw_progress := fun _ => Normal tt;
     result_of_dict := fun _ => Raised (Exception "validation error");
     has_excel_exporter := fun _ => true;
     excel_binary_data := fun _ results =>
       Normal (Byte.x50 :: Byte.x4b :: ((fun _ => Byte.x00) <$> results));
     has_text_exporter := fun _ => true;
     text_content := fun _ results =>
       Normal (join_with nl (image_name <$> results)) |}.

(** The world right after [init_session_state] on a new session. *)
Definition fresh_world : world :=
  {| session_of := (init_session_state empty_session).2; history := [] |}.

Definition three_uploads : list string :=
  ["temp/hairstyle_analyzer/styleimg_1.jpg";
   "temp/hairstyle_analyzer/styleimg_2.jpg";
   "temp/hairstyle_analyzer/styleimg_3.png"].

(** ** The template selection screen: [display_template_choices] *)

(** Attribute reads on a result; a dict has no such attributes. *)
Definition attr_image_name (r : pyresult) : outcome string :=
  match r with
  | RObj o => Normal (image_name o)
  | RDict _ => Raised (AttributeError "image_name")
  end.
Definition attr_selected_template (r : pyresult) : outcome (option Template) :=
  match r with
  | RObj o => Normal (selected_template o)
  | RDict _ => Raised (AttributeError "selected_template")
  end.
Definition attr_alternative_templates (r : pyresult) : outcome (list Template) :=
  match r with
  | RObj o => Normal (alternative_templates o)
  | RDict _ => Raised (AttributeError "alternative_templates")
  end.
Definition attr_user_selected_template (r : pyresult) : outcome (option Template) :=
  match r with
  | RObj o => Normal (user_selected_template o)
  | RDict _ => Raised (AttributeError "user_selected_template")
  end.

(** [template.title] and the like, where [template] may be [None]. *)
Definition attr_of_template {A} (field : Template -> A) (name : string)
    (t : option Template) : outcome A :=
  match t with
  | Some t' => Normal (field t')
  | None => Raised (AttributeError name)
  end.

(** What the user does on the screen during one run of the script: the
    option picked in the radio group of an image ([None]: the group is left
    as it is, so [st.radio] returns the index it was given as default), and
    whether the confirmation button is pressed. The real widget only offers
    the positions of the listed templates; a pick is not restricted here,
    so what is proved for every interaction covers more picks than a user
    can make. *)
Record interaction : Type := {
  radio_pick : string -> option Z;
  confirm_pressed : bool;
}.

(** [st.radio(..., index=default_idx, key="template_radio_" + image_name)]:
    the pick, or the default index. Streamlit refuses a default index
    outside the options; the stored index it is given here is one the
    widget returned for the same list (line 548), and that refusal is not
    modelled. *)
Definition st_radio (ui : interaction) (image_name_ : string) (default_idx : Z) : Z :=
  default default_idx (radio_pick ui image_name_).

(** The result objects the argument [results] refers to, and the session.
    The objects are shared with the caller, so what the function has set on
    them stays set when it raises. *)
Record screen : Type := {
  results_of : list pyresult;
  screen_session : session;
}.

Definition on_session {A} (c : M session A) : M screen A :=
  fun sc => match c (screen_session sc) with
            | (o, s') => (o, {| results_of := results_of sc; screen_session := s' |})
            end.

(** [[f"{prefix}{template.title}" for j, template in enumerate(templates)]] *)
Fixpoint template_titles (j : nat) (templates : list (option Template))
    : outcome (list string) :=
  match templates with
  | [] => Normal []
  | t :: rest =>
      match attr_of_template title "title" t with
      | Raised e => Raised e
      | Normal title_ =>
          match template_titles (S j) rest with
          | Raised e => Raised e
          | Normal titles =>
              Normal (((if bool_decide (j = 0%nat) then "🌟 AIおすすめ: "
                        else "選択肢 " +:+ pretty j +:+ ": ") +:+ title_) :: titles)
          end
      end
  end.

(** One turn of [for i, result in enumerate(results)] (lines 492-559). The
    page elements it draws are not part of the state; the reads they need
    are kept because they can raise. *)
Definition choose_one (ui : interaction) (i : nat) (result : pyresult)
    : M session unit :=
  do image_name_ <- lift_outcome (attr_image_name result);
  do s <- get;
  let template_choices := default ∅ (ss_template_choices s) in
  do_ (if bool_decide (is_Some (template_choices !! image_name_)) then ret tt
       else
         do selected <- lift_outcome (attr_selected_template result);
         do alternatives <- lift_outcome (attr_alternative_templates result);
         set_session_value
           (set_template_choices
              (<[image_name_ := selected :: (Some <$> alternatives)]> template_choices)));
  do s <- get;
  do stored <- match ss_template_choices s with
               | Some c => ret c
               | None => raise (TypeError "'NoneType' object is not subscriptable")
               end;
  do templates <- match stored !! image_name_ with
                  | Some ts => ret ts
                  | None => raise (KeyError image_name_)
                  end;
  do titles <- lift_outcome (template_titles 0 templates);
  do s <- get;
  let user_selections := default ∅ (ss_user_selections s) in
  let default_idx := default 0 (user_selections !! image_name_) in
  let selected_idx := st_radio ui image_name_ default_idx in
  do_ set_session_value
        (set_user_selections (<[image_name_ := selected_idx]> user_selections));
  do selected_template_ <- lift_outcome (py_index templates selected_idx);
  do_ lift_outcome (attr_of_template category "category" selected_template_);
  ret tt.

(** One turn of [for result in results] under the button (lines 565-571):
    the result as it is afterwards. *)
Definition confirm_one (s : session) (result : pyresult) : outcome pyresult :=
  match attr_image_name result with
  | Raised e => Raised e
  | Normal image_name_ =>
      match ss_user_selections s with
      | None => Raised (TypeError "argument of type 'NoneType' is not iterable")
      | Some user_selections =>
          match user_selections !! image_name_ with
          | None => Normal result
          | Some selected_idx =>
              match ss_template_choices s with
              | None => Raised (TypeError "'NoneType' object is not subscriptable")
              | Some stored =>
                  match stored !! image_name_ with
                  | None => Raised (KeyError image_name_)
                  | Some templates =>
                      if (0 <=? selected_idx)
                         && (selected_idx <? Z.of_nat (length templates))
                      then
                        match templates !! Z.to_nat selected_idx, result with
                        | Some chosen, RObj o =>
                            Normal (RObj (set_user_selected_template chosen o))
                        | _, _ => Normal result
                        end
                      else Normal result
                  end
              end
          end
      end
  end.

(** The loop under the button, over the objects one after the other:
    [done_] are the objects already visited. *)
Fixpoint confirm_loop (s : session) (done_ todo : list pyresult)
    : outcome unit * list pyresult :=
  match todo with
  | [] => (Normal tt, done_)
  | result :: rest =>
      match confirm_one s result with
      | Normal result' => confirm_loop s (done_ ++ [result']) rest
      | Raised e => (Raised e, done_ ++ result :: rest)
      end
  end.

Definition confirm_all : M screen unit :=
  fun sc => match confirm_loop (screen_session sc) [] (results_of sc) with
            | (o, results') =>
                (o, {| results_of := results'; screen_session := screen_session sc |})
            end.

(** [display_template_choices(results)] *)
Definition display_template_choices (ui : interaction) : M screen unit :=
  do sc <- get;
  match results_of sc with
  | [] => ret tt
  | _ :: _ =>
      do_ on_session (init_key ss_template_choices (set_template_choices ∅));
      do_ on_session (init_key ss_user_selections (set_user_selections ∅));
      do_ on_session (for_enumerate 0 (results_of sc) (choose_one ui));
      if confirm_pressed ui then
        do_ confirm_all;
        do_ on_session (set_session_value (set_confirm_template_selections true));
        do sc' <- get;
        on_session (set_session_value (set_results (results_of sc')))
      else ret tt
  end.

(** *** The selection screen on the two dicts alone *)

(** The templates listed for an object: the AI choice, then the
    alternatives. *)
Definition listed_templates (o : ProcessResult) : list (option Template) :=
  selected_template o :: (Some <$> alternative_templates o).

(** The session with its two selection dicts replaced. *)
Definition with_maps (C : gmap string (list (option Template))) (U : gmap string Z)
    (s : session) : session :=
  set_user_selections U (set_template_choices C s).

(** What [choose_one] does to the dict of choices [C] and the dict of
    selections [U]. *)
Definition choose_pure (ui : interaction) (result : pyresult)
    (C : gmap string (list (option Template))) (U : gmap string Z)
    : outcome unit * (gmap string (list (option Template)) * gmap string Z) :=
  match result with
  | RDict _ => (Raised (AttributeError "image_name"), (C, U))
  | RObj o =>
      let name := image_name o in
      let C' := if bool_decide (is_Some (C !! name)) then C
                else <[name := listed_templates o]> C in
      match C' !! name with
      | None => (Raised (KeyError name), (C', U))
      | Some ts =>
          match template_titles 0 ts with
          | Raised e => (Raised e, (C', U))
          | Normal _ =>
              let idx := st_radio ui name (default 0 (U !! name)) in
              let U' := <[name := idx]> U in
              match py_index ts idx with
              | Raised e => (Raised e, (C', U'))
              | Normal t =>
                  match attr_of_template category "category" t with
                  | Raised e => (Raised e, (C', U'))
                  | Normal _ => (Normal tt, (C', U'))
                  end
              end
          end
      end
  end.

Fixpoint choose_all_pure (ui : interaction) (results : list pyresult)
    (C : gmap string (list (option Template))) (U : gmap string Z)
    : outcome unit * (gmap string (list (option Template)) * gmap string Z) :=
  match results with
  | [] => (Normal tt, (C, U))
  | result :: rest =>
      match choose_pure ui result C U with
      | (Normal _, (C', U')) => choose_all_pure ui rest C' U'
      | (Raised e, CU) => (Raised e, CU)
      end
  end.

(** The user leaves every radio group as it is. *)
Definition untouched (ui : interaction) : interaction :=
  {| radio_pick := fun _ => None; confirm_pressed := confirm_pressed ui |}.

(** Two results that list the same templates under the same image name. *)
Definition same_listing (r r' : pyresult) : Prop :=
  match r, r' with
  | RObj o, RObj o' =>
      image_name o = image_name o'
      ∧ selected_template o = selected_template o'
      ∧ alternative_templates o = alternative_templates o'
  | RDict d, RDict d' => d = d'
  | _, _ => False
  end.

(** The session once both selection dicts are there (lines 481-485). *)
Definition ensure_maps (s : session) : session :=
  with_maps (default ∅ (ss_template_choices s)) (default ∅ (ss_user_selections s)) s.

(** [display_template_choices] in one piece, for a non-empty [results]. *)
Definition display_outcome (ui : interaction) (R : list pyresult) (s : session)
    : outcome unit * screen :=
  let s0 := ensure_maps s in
  match choose_all_pure ui R (default ∅ (ss_template_choices s))
          (default ∅ (ss_user_selections s)) with
  | (Raised e, (C1, U1)) =>
      (Raised e, {| results_of := R; screen_session := with_maps C1 U1 s0 |})
  | (Normal _, (C1, U1)) =>
      let sl := with_maps C1 U1 s0 in
      if confirm_pressed ui then
        match confirm_loop sl [] R with
        | (Normal _, R1) =>
            (Normal tt,
             {| results_of := R1;
                screen_session :=
                  set_results R1 (set_confirm_template_selections true sl) |})
        | (Raised e, R1) => (Raised e, {| results_of := R1; screen_session := sl |})
        end
      else (Normal tt, {| results_of := R; screen_session := sl |})
  end.

(** Two analysed images, and a user who gives the second one the index 3
    (one past its last template) and presses the button. *)
Definition two_objects : list ProcessResult :=
  [sample_result "styleimg_1.jpg"; sample_result "styleimg_2.jpg"].

Definition pick_beyond : interaction :=
  {| radio_pick := fun name =>
       if bool_decide (name = "styleimg_2.jpg") then Some 3 else None;
     confirm_pressed := true |}.

(** ** The result views *)

(** A row of the summary table, by its columns
    (画像, カテゴリ, スタイル, メニュー, コメント, ハッシュタグ). *)
Record table_row : Type := {
  col_image : string;
  col_category : string;
  col_style : string;
  col_menu : string;
  col_comment : string;
  col_hashtag : string;
}.

(** What a view puts on the page. *)
Inductive ui_event : Type :=
  | Subheader (text : string)
  | Expander (label : string) (expanded : bool)
  | Write (text : string)
  | Warning (text : string)
  | ErrorBox (text : string)
  | Dataframe (rows : list table_row).

(** The page: the elements drawn so far, oldest first. *)
Definition page : Type := list ui_event.

Definition emit (e : ui_event) : M page unit := modify (fun pg => pg ++ [e]).

(** The dict built for one result in [convert_results_to_dataframe]. A
    [Template] always has the attribute [hashtag]. *)
Definition row_of_result (result : pyresult) : outcome table_row :=
  match attr_selected_template result, attr_image_name result with
  | Raised e, _ => Raised e
  | _, Raised e => Raised e
  | Normal template, Normal image_name_ =>
      Normal
        {| col_image := image_name_;
           col_category := from_option category "未選択" template;
           col_style := from_option title "未選択" template;
           col_menu := from_option menu "未設定" template;
           col_comment := from_option comment "未設定" template;
           col_hashtag := from_option hashtag "なし" template |}
  end.

Fixpoint rows_of_results (results : list pyresult) : outcome (list table_row) :=
  match results with
  | [] => Normal []
  | result :: rest =>
      match row_of_result result with
      | Raised e => Raised e
      | Normal row =>
          match rows_of_results rest with
          | Raised e => Raised e
          | Normal rows => Normal (row :: rows)
          end
      end
  end.

(** [convert_results_to_dataframe(results)]: the rows of the DataFrame;
    the empty DataFrame, and an error box, when anything raises. *)
Definition convert_results_to_dataframe (results : list pyresult)
    : M page (list table_row) :=
  try_except
    (lift_outcome (rows_of_results results))
    (fun e =>
       do_ emit (ErrorBox ("データの変換中にエラーが発生しました: " +:+ exn_str e));
       ret []).

(** [display_summary_table(df)] *)
Definition display_summary_table (df : list table_row) : M page unit :=
  match df with
  | _ :: _ => do_ emit (Subheader "結果サマリー"); emit (Dataframe df)
  | [] => emit (Warning "表示するデータがありません")
  end.

(** The five lines written for a template under a heading. *)
Definition write_template (heading : string) (template : Template) : M page unit :=
  do_ emit (Write heading);
  do_ emit (Write ("**カテゴリ:** " +:+ category template));
  do_ emit (Write ("**タイトル:** " +:+ title template));
  do_ emit (Write ("**メニュー:** " +:+ menu template));
  do_ emit (Write ("**コメント:** " +:+ comment template));
  emit (Write ("**ハッシュタグ:** " +:+ hashtag template)).

(** One turn of the loop of [display_image_details]. A [ProcessResult]
    carries no [image_data], so the left column shows the warning. *)
Definition display_one_detail (i : nat) (result : pyresult) : M page unit :=
  do image_name_ <- lift_outcome (attr_image_name result);
  do_ emit (Expander ("画像 " +:+ pretty (i + 1)%nat +:+ ": " +:+ image_name_)
                     (bool_decide (i = 0%nat)));
  do_ emit (Warning "画像データがありません");
  do user_selected <- lift_outcome (attr_user_selected_template result);
  match user_selected with
  | Some template => write_template "### 選択されたテンプレート" template
  | None =>
      do selected <- lift_outcome (attr_selected_template result);
      match selected with
      | Some template => write_template "### AIが選択したテンプレート" template
      | None => emit (Warning "テンプレートが選択されていません")
      end
  end.

(** [display_image_details(results)] *)
Definition display_image_details (results : list pyresult) : M page unit :=
  do_ emit (Subheader "画像ごとの詳細");
  for_enumerate 0 results display_one_detail.

(** The effective template of the specification: the user's choice when
    there is one, the AI choice otherwise. *)
Definition effective_template (o : ProcessResult) : option Template :=
  match user_selected_template o with
  | Some t => Some t
  | None => selected_template o
  end.

(** The first sample image after the user has confirmed the second
    template of its list. *)
Definition confirmed_result : ProcessResult :=
  set_user_selected_template (Some wave_template) (sample_result "styleimg_1.jpg").

(** ** The upload handler: [handle_image_upload] *)

(** An uploaded file: its name and its content. *)
Record UploadedFile : Type := {
  file_name : string;
  file_buffer : list Byte.byte;
}.

(** The file system and the image library, as far as the handler uses
    them: the text of the directory [Path(TEMP_DIR or "temp")], making the
    temporary directory, removing the files of an earlier run, writing an
    upload to a path, and PIL's [verify] and [size] on the file just
    written there. *)
Record upload_environment : Type := {
  temp_base : string;
  make_temp_dir : outcome unit;
  clean_temp_dir : outcome unit;
  save_upload : string -> list Byte.byte -> outcome unit;
  pil_verify : string -> list Byte.byte -> outcome unit;
  pil_size : string -> list Byte.byte -> outcome (Z * Z);
}.

Inductive log_level : Type := LogInfo | LogWarning | LogError.

(** The log written by [logging.info], [logging.warning] and
    [logging.error], oldest first (the traceback dumps are left out). *)
Definition log : Type := list (log_level * string).

Definition logging (level : log_level) (text : string) : M log unit :=
  modify (fun l => l ++ [(level, text)]).

(** The root of [Path(s)]: two leading slashes are kept, any other
    number of them is one. *)
Definition path_root (s : string) : string :=
  match leading_slashes s with
  | 0%nat => ""
  | 2%nat => "//"
  | _ => "/"
  end.

(** [str(Path(a) / b)]: the components of [b] follow those of [a] under
    the root of [a]; an absolute [b] replaces [a]. *)
Definition path_join (a b : string) : string :=
  if bool_decide (leading_slashes b = 0%nat) then
    let body := join_with "/" (path_parts a ++ path_parts b) in
    if bool_decide (path_root a = "") then
      if bool_decide (body = "") then "." else body
    else path_root a +:+ body
  else path_str b.

(** [str(temp_dir)] *)
Definition temp_dir (env : upload_environment) : string :=
  path_join (temp_base env) "hairstyle_analyzer".

Definition accepted_extensions : list string := [".jpg"; ".jpeg"; ".png"].

(** [f"styleimg_{i+1}{file_ext}"] under the temporary directory. *)
Definition temp_path_of (env : upload_environment) (i : nat) (file_ext : string)
    : string :=
  path_join (temp_dir env) ("styleimg_" +:+ pretty (i + 1)%nat +:+ file_ext).

(** The inner [try] of one turn (lines 1497-1510): whether the saved file
    passed the check. *)
Definition check_image (env : upload_environment) (temp_path safe_filename : string)
    (content : list Byte.byte) : M log bool :=
  try_except
    (do_ lift_outcome (pil_verify env temp_path content);
     do size <- lift_outcome (pil_size env temp_path content);
     let width := fst size in
     let height := snd size in
     if (width <=? 0) || (height <=? 0) then
       do_ logging LogWarning
             ("無効な画像サイズ: " +:+ pretty width +:+ "x" +:+ pretty height
              +:+ ", ファイル: " +:+ safe_filename);
       ret false
     else
       do_ logging LogInfo
             ("画像サイズ: " +:+ pretty width +:+ "x" +:+ pretty height
              +:+ ", ファイル: " +:+ safe_filename);
       ret true)
    (fun e =>
       do_ logging LogError
             ("画像検証エラー (" +:+ safe_filename +:+ "): " +:+ exn_str e);
       ret false).

(** One turn of [for i, file in enumerate(uploaded_files)]. *)
Definition upload_one (env : upload_environment) (i : nat) (file : UploadedFile)
    (image_paths : list string) : M log (list string) :=
  try_except
    (let original_filename := file_name file in
     let file_ext := lower (path_suffix original_filename) in
     if negb (bool_decide (file_ext ∈ accepted_extensions)) then
       do_ logging LogWarning ("サポートされていないファイル形式: " +:+ file_ext);
       ret image_paths
     else
       let safe_filename := "styleimg_" +:+ pretty (i + 1)%nat +:+ file_ext in
       let temp_path := temp_path_of env i file_ext in
       do_ lift_outcome (save_upload env temp_path (file_buffer file));
       do valid <- check_image env temp_path safe_filename (file_buffer file);
       if valid then
         do_ logging LogInfo
               ("画像を保存しました: " +:+ original_filename +:+ " -> " +:+ safe_filename);
         ret (image_paths ++ [temp_path])
       else ret image_paths)
    (fun e =>
       do_ logging LogError ("画像アップロードエラー: " +:+ exn_str e);
       ret image_paths).

Fixpoint upload_loop (env : upload_environment) (i0 : nat)
    (uploaded_files : list UploadedFile) (image_paths : list string)
    : M log (list string) :=
  match uploaded_files with
  | [] => ret image_paths
  | file :: rest =>
      do image_paths' <- upload_one env i0 file image_paths;
      upload_loop env (S i0) rest image_paths'
  end.

(** [handle_image_upload(uploaded_files)] *)
Definition handle_image_upload (env : upload_environment)
    (uploaded_files : list UploadedFile) : M log (list string) :=
  match uploaded_files with
  | [] => ret []
  | _ :: _ =>
      try_except
        (do_ lift_outcome (make_temp_dir env);
         do_ try_except
               (do_ lift_outcome (clean_temp_dir env);
                logging LogInfo "前回の一時ファイルをクリーンアップしました")
               (fun e =>
                  logging LogWarning
                    ("一時ファイルのクリーンアップ中にエラー: " +:+ exn_str e));
         upload_loop env 0 uploaded_files [])
        (fun e =>
           do_ logging LogError
                 ("画像のアップロード全体でエラーが発生: " +:+ exn_str e);
           ret [])
  end.

(** *** What an upload contributes *)

(** The upload at position [i] is kept: its extension is accepted, it was
    written, and the written file passed [verify] and has positive width
    and height. *)
Definition kept (env : upload_environment) (i : nat) (file : UploadedFile) : bool :=
  let file_ext := lower (path_suffix (file_name file)) in
  let temp_path := temp_path_of env i file_ext in
  bool_decide (file_ext ∈ accepted_extensions)
  && is_normal (save_upload env temp_path (file_buffer file))
  && is_normal (pil_verify env temp_path (file_buffer file))
  && match pil_size env temp_path (file_buffer file) with
     | Normal (width, height) => (0 <? width) && (0 <? height)
     | Raised _ => false
     end.

(** The path an upload contributes to the returned list, if any. *)
Definition upload_slot (env : upload_environment) (i : nat) (file : UploadedFile)
    : list string :=
  if kept env i file
  then [temp_path_of env i (lower (path_suffix (file_name file)))]
  else [].

Fixpoint upload_slots (env : upload_environment) (i0 : nat)
    (uploaded_files : list UploadedFile) : list string :=
  match uploaded_files with
  | [] => []
  | file :: rest => upload_slot env i0 file ++ upload_slots env (S i0) rest
  end.

(** A file system on which everything works and an image library that
    accepts content starting with the byte [xff] (as a JPEG does) as a
    640x480 image. *)
Definition working_storage : upload_environment :=
  {| temp_base := "temp";
     make_temp_dir := Normal tt;
     clean_temp_dir := Normal tt;
     save_upload := fun _ _ => Normal tt;
     pil_verify := fun _ content =>
       match content with
       | Byte.xff :: _ => Normal tt
       | _ => Raised (Exception "cannot identify image file")
       end;
     pil_size := fun _ content =>
       match content with
       | Byte.xff :: _ => Normal (640, 480)
       | _ => Raised (Exception "cannot identify image file")
       end |}.

Definition mixed_uploads : list UploadedFile :=
  [{| file_name := "front.JPG"; file_buffer := [Byte.xff; Byte.xd8] |};
   {| file_name := "notes.txt"; file_buffer := [Byte.x68; Byte.x69] |};
   {| file_name := "broken.png"; file_buffer := [Byte.x00] |};
   {| file_name := "side.jpeg"; file_buffer := [Byte.xff; Byte.xd8] |}].

(** The session after the selection screen has been drawn once for
    [two_objects], nothing picked and the button not pressed. *)
Definition shown_once : session :=
  screen_session
    (snd (display_template_choices
            {| radio_pick := fun _ => None; confirm_pressed := false |}
            {| results_of := RObj <$> two_objects;
               screen_session := session_of fresh_world |})).

(** *** Reading a run of the selection screen *)

(** The list shown for an object: the one stored under its image name when
    there is one, its own otherwise. *)
Definition shown_templates (s : session) (o : ProcessResult)
    : list (option Template) :=
  default (listed_templates o)
          (default ∅ (ss_template_choices s) !! image_name o).

(** The index the radio group of an object returns: the user's pick, or
    the index stored for the image, or 0. *)
Definition radio_index (ui : interaction) (s : session) (o : ProcessResult) : Z :=
  st_radio ui (image_name o)
           (default 0 (default ∅ (ss_user_selections s) !! image_name o)).

(** The object with the template at the radio index of its shown list as
    the user's choice. *)
Definition confirmed_choice (ui : interaction) (s : session) (o : ProcessResult)
    : ProcessResult :=
  set_user_selected_template
    (default None (shown_templates s o !! Z.to_nat (radio_index ui s o))) o.

(** Two results that differ at most in [user_selected_template]. *)
Definition same_but_choice (r r' : pyresult) : Prop :=
  match r, r' with
  | RObj o, RObj o' => o' = set_user_selected_template (user_selected_template o') o
  | RDict d, RDict d' => d = d'
  | _, _ => False
  end.

(** Every session key but the two selection dicts, the confirmation flag
    and the stored results holds the same in both sessions. *)
Definition same_outside_selection (s s' : session) : Prop :=
  ss_salon_url s' = ss_salon_url s ∧ ss_processor s' = ss_processor s
  ∧ ss_stylists s' = ss_stylists s ∧ ss_coupons s' = ss_coupons s
  ∧ ss_progress s' = ss_progress s ∧ ss_use_cache s' = ss_use_cache s
  ∧ ss_config s' = ss_config s
  ∧ ss_processing_stages s' = ss_processing_stages s.

(** A user who picks the second template for the first sample image,
    leaves the other image alone and presses the button. *)
Definition pick_second : interaction :=
  {| radio_pick := fun name =>
       if bool_decide (name = "styleimg_1.jpg") then Some 1 else None;
     confirm_pressed := true |}.

(** *** When no processor is passed *)

(** The configuration [get_config_manager] hands back on session [s]. *)
Definition config_at_hand (env : environment) (s : session) : outcome ConfigManager :=
  match ss_config s with
  | Some c => Normal c
  | None => load_config env "config/config.yaml"
  end.

(** The processor the re-creation at the head of [process_images] ends
    with, if any. *)
Definition recreated_processor (env : environment) (s : session) : option Processor :=
  match config_at_hand env s with
  | Raised _ => None
  | Normal c =>
      match build_processor env c (default true (ss_use_cache s)) with
      | Normal (Some p) => Some p
      | Normal None => None
      | Raised _ => None
      end
  end.

(** The session after that re-creation: a configuration that had to be
    loaded is stored, and so is a processor that could be built. *)
Definition session_after_recreation (env : environment) (s : session) : session :=
  let s1 := match ss_config s, load_config env "config/config.yaml" with
            | None, Normal c => set_config c s
            | _, _ => s
            end in
  match recreated_processor env s with
  | Some p => set_processor (Some p) s1
  | None => s1
  end.

(** A dict result carries its image name. *)
Definition well_tagged (r : pyresult) : Prop :=
  match r with
  | RDict d => is_Some (d !! "image_name") ∧ d ≠ ∅
  | RObj _ => True
  end.

(** An environment in which a processor can be built. *)
Definition working_environment : environment :=
  {| now := 1700000000;
     load_config := fun path => Normal (config_manager_at path);
     build_processor := fun _ _ => Normal (Some steady_processor);
     draw_progress := draw_progress bare_environment;
     result_of_dict := result_of_dict bare_environment;
     has_excel_exporter := has_excel_exporter bare_environment;
     excel_binary_data := excel_binary_data bare_environment;
     has_text_exporter := has_text_exporter bare_environment;
     text_content := text_content bare_environment |}.

(** A processor of the older format: a dict per image, without the name
    of the image. *)
Definition dict_processor : Processor :=
  {| process_single_image := fun image_path _ _ =>
       Normal (Some (RDict {[ "category" := DStr "ボブ" ]})) |}.

(** ** The stages of [main] *)

(** What [main] puts on the page: the elements of the result views, the
    information boxes of [main] itself, and the download buttons with
    their label and their data (the file name, which carries the time of
    the run, is not kept). *)
Inductive app_event : Type :=
  | View (e : ui_event)
  | InfoBox (text : string)
  | DownloadButton (label : string) (data : list Byte.byte + string).

(** Everything a run of the script works on: the session, the record of
    progress values, the log and the page. *)
Record app_state : Type := {
  app_session : session;
  app_history : list progress;
  app_log : log;
  app_page : list app_event;
}.

Definition with_session {A} (c : M session A) : M app_state A :=
  fun a => match c (app_session a) with
           | (o, s') => (o, {| app_session := s'; app_history := app_history a;
                               app_log := app_log a; app_page := app_page a |})
           end.

Definition with_world {A} (c : M world A) : M app_state A :=
  fun a => match c {| session_of := app_session a; history := app_history a |} with
           | (o, w') => (o, {| app_session := session_of w';
                               app_history := history w';
                               app_log := app_log a; app_page := app_page a |})
           end.

Definition with_log {A} (c : M log A) : M app_state A :=
  fun a => match c (app_log a) with
           | (o, l') => (o, {| app_session := app_session a;
                               app_history := app_history a;
                               app_log := l'; app_page := app_page a |})
           end.

(** Run a view: what it draws is added to the page. *)
Definition with_page {A} (c : M page A) : M app_state A :=
  fun a => match c [] with
           | (o, drawn) => (o, {| app_session := app_session a;
                                  app_history := app_history a;
                                  app_log := app_log a;
                                  app_page := app_page a ++ (View <$> drawn) |})
           end.

Definition st_info (text : string) : M app_state unit :=
  modify (fun a => {| app_session := app_session a; app_history := app_history a;
                      app_log := app_log a;
                      app_page := app_page a ++ [InfoBox text] |}).

(** Run the selection screen on the result objects the session holds
    under [SESSION_RESULTS]: they are the objects [results] refers to, so
    what the screen sets on them is seen through the session as well. *)
Definition with_screen {A} (results : list pyresult) (c : M screen A) : M app_state A :=
  fun a => match c {| results_of := results; screen_session := app_session a |} with
           | (o, sc') =>
               (o, {| app_session := set_results (results_of sc') (screen_session sc');
                      app_history := app_history a;
                      app_log := app_log a; app_page := app_page a |})
           end.

Definition st_download_button (label : string) (data : list Byte.byte + string)
    : M app_state unit :=
  modify (fun a => {| app_session := app_session a; app_history := app_history a;
                      app_log := app_log a;
                      app_page := app_page a ++ [DownloadButton label data] |}).

(** One turn of the loop of [convert_to_process_results]: the objects the
    result contributes. The entry with the traceback is left out of the
    log, as everywhere. *)
Definition convert_one (env : environment) (result : pyresult)
    : M log (list ProcessResult) :=
  try_except
    (match result with
     | RDict d => do o <- lift_outcome (result_of_dict env d); ret [o]
     | RObj o => ret [o]
     end)
    (fun e =>
       do_ logging LogError ("結果変換中にエラーが発生しました: " +:+ exn_str e);
       ret []).

(** [convert_to_process_results(results)] *)
Fixpoint convert_to_process_results (env : environment) (results : list pyresult)
    : M log (list ProcessResult) :=
  match results with
  | [] => ret []
  | result :: rest =>
      do converted <- convert_one env result;
      do others <- convert_to_process_results env rest;
      ret (converted ++ others)
  end.

(** [generate_excel_download(processor, results, title)] *)
Definition generate_excel_download (env : environment) (processor : option Processor)
    (results : list pyresult) : M app_state bool :=
  try_except
    (match processor with
     | Some p =>
         if has_excel_exporter env p then
           do process_results <- with_log (convert_to_process_results env results);
           do excel_data <- lift_outcome (excel_binary_data env p process_results);
           match excel_data with
           | [] => ret false
           | _ :: _ =>
               do_ st_download_button "⬇️ Excelファイルをダウンロード ⬇️" (inl excel_data);
               do_ with_page (emit (Write ""));
               ret true
           end
         else
           do_ with_page (emit (Warning "Excel出力のためのプロセッサーが利用できません。"));
           ret false
     | None =>
         do_ with_page (emit (Warning "Excel出力のためのプロセッサーが利用できません。"));
         ret false
     end)
    (fun e =>
       do_ with_log (logging LogError
                       ("Excel出力中にエラーが発生しました: " +:+ exn_str e));
       do_ with_page (emit (ErrorBox
                              ("Excel出力中にエラーが発生しました: " +:+ exn_str e)));
       ret false).

(** [generate_text_download(processor, results, title)] *)
Definition generate_text_download (env : environment) (processor : option Processor)
    (results : list pyresult) : M app_state bool :=
  try_except
    (match processor with
     | Some p =>
         if has_text_exporter env p then
           do process_results <- with_log (convert_to_process_results env results);
           do text_data <- lift_outcome (text_content env p process_results);
           if bool_decide (text_data = EmptyString) then ret false
           else
             do_ st_download_button "⬇️ テキストファイルをダウンロード ⬇️" (inr text_data);
             do_ with_page (emit (Write ""));
             ret true
         else
           do_ with_page (emit (Warning "テキスト出力のためのプロセッサーが利用できません。"));
           ret false
     | None =>
         do_ with_page (emit (Warning "テキスト出力のためのプロセッサーが利用できません。"));
         ret false
     end)
    (fun e =>
       do_ with_log (logging LogError
                       ("テキスト出力中にエラーが発生しました: " +:+ exn_str e));
       do_ with_page (emit (ErrorBox
                              ("テキスト出力中にエラーが発生しました: " +:+ exn_str e)));
       ret false).

(** [display_export_buttons()]. A processor object counts as true. *)
Definition display_export_buttons (env : environment) : M app_state unit :=
  do_ with_page (emit (Subheader "結果のエクスポート"));
  do s <- with_session get;
  match default [] (ss_results s), ss_processor s with
  | _ :: _, Some (Some p) =>
      do_ generate_excel_download env (Some p) (default [] (ss_results s));
      do_ generate_text_download env (Some p) (default [] (ss_results s));
      ret tt
  | _, _ => with_page (emit (Warning "エクスポート可能なデータがありません。"))
  end.

(** [convert_results_to_dataframe(results)] as [display_results] runs it:
    with the entry it writes to the log when the conversion raises (line
    602). On the page it is [convert_results_to_dataframe]. *)
Definition convert_results_logged (results : list pyresult)
    : M app_state (list table_row) :=
  do_ match rows_of_results results with
      | Raised e =>
          with_log (logging LogError
                      ("DataFrameへの変換中にエラーが発生しました: " +:+ exn_str e))
      | Normal _ => ret tt
      end;
  with_page (convert_results_to_dataframe results).

(** [display_results(results)] *)
Definition display_results (env : environment) (results : list pyresult)
    : M app_state unit :=
  match results with
  | [] => with_page (emit (Warning "表示する結果がありません。"))
  | _ :: _ =>
      do df <- convert_results_logged results;
      do_ with_page (display_summary_table df);
      do_ with_page (display_image_details results);
      display_export_buttons env
  end.

(** [display_progress()]: nothing without a progress entry, and nothing
    while the total is not positive; otherwise the bar, the texts and the
    timings, which the environment draws or refuses. What is drawn is not
    kept. *)
Definition display_progress (env : environment) : M app_state unit :=
  do s <- with_session get;
  match ss_progress s with
  | Some progress =>
      if 0 <? total progress then lift_outcome (draw_progress env progress)
      else ret tt
  | None => ret tt
  end.

(** What the user does during one run of the script: the files in the
    uploader, whether the process button is pressed, and what happens on
    the selection screen. *)
Record visit : Type := {
  uploaded : list UploadedFile;
  process_pressed : bool;
  selection : interaction;
}.

Definition stages_at (pd tsd rdd : bool) : stages :=
  {| processing_done := pd; template_selection_done := tsd;
     results_display_done := rdd |}.

(** [processing_stages.get(key, default)] on the dict read with
    [get_session_value(SESSION_PROCESSING_STAGES, {})]. *)
Definition stage_flag (field : stages -> bool) (default_ : bool)
    (st : option stages) : bool :=
  from_option field default_ st.

Definition list_nonempty {A} (l : list A) : bool :=
  match l with [] => false | _ :: _ => true end.

(** The processing branch under the button (lines 1626-1668). *)
Definition main_process (env : environment) (uenv : upload_environment)
    (v : visit) : M app_state unit :=
  do image_paths <- with_log (handle_image_upload uenv (uploaded v));
  do s <- with_session get;
  do processor <-
    match ss_processor s with
    | Some (Some p) => ret (Some p)
    | _ =>
        do config_manager <- with_session (get_config_manager env);
        do p <- with_session (create_processor env (Some config_manager));
        do_ with_session (set_session_value (set_processor p));
        ret p
    end;
  do s <- with_session get;
  let stylists := default [] (ss_stylists s) in
  let coupons := default [] (ss_coupons s) in
  let use_cache := default true (ss_use_cache s) in
  do_ display_progress env;
  do results <- with_world
        (process_images env processor image_paths (Some stylists) (Some coupons)
           use_cache);
  do_ with_session (set_session_value (set_results results));
  do_ with_session (set_session_value
                      (set_processing_stages (stages_at true false false)));
  do present <- with_session (has_session_key ss_progress);
  if present then
    with_world (do_ mutate_progress (set_complete true);
                do_ mutate_progress (set_message "処理完了");
                restore_progress)
  else ret tt.

(** [main()] from the file uploader on (lines 1602-1710). The calls of
    [st.rerun()] end the run and are the last statement of their branch. *)
Definition main_stages (env : environment) (uenv : upload_environment)
    (v : visit) : M app_state unit :=
  do s <- with_session get;
  let results := default [] (ss_results s) in
  do_ (if list_nonempty (uploaded v)
          && negb (stage_flag processing_done false (ss_processing_stages s))
       then with_session (set_session_value
                            (set_processing_stages (stages_at false false false)))
       else ret tt);
  do s <- with_session get;
  let processing_stages := ss_processing_stages s in
  if list_nonempty (uploaded v)
     && negb (stage_flag processing_done false processing_stages) then
    if process_pressed v then main_process env uenv v else ret tt
  else if list_nonempty results
          && stage_flag processing_done false processing_stages
          && negb (stage_flag template_selection_done false processing_stages) then
    do_ with_screen results (display_template_choices (selection v));
    do s <- with_session get;
    if default false (ss_confirm_template_selections s) then
      do_ with_session (set_session_value
                          (set_processing_stages (stages_at true true false)));
      with_session (set_session_value (set_confirm_template_selections false))
    else ret tt
  else if list_nonempty results
          && stage_flag template_selection_done true processing_stages then
    do_ display_results env results;
    if negb (stage_flag results_display_done false processing_stages) then
      with_session (set_session_value
                      (set_processing_stages (stages_at true true true)))
    else ret tt
  else
    do_ (if list_nonempty (uploaded v) then ret tt
         else st_info "画像ファイルをアップロードしてください。");
    if list_nonempty results then
      do_ with_page (emit (Subheader "前回の処理結果"));
      display_results env results
    else ret tt.

(** The two sessions differ at most in the stage flags. *)
Definition same_but_stages (s s' : session) : Prop :=
  s' = match ss_processing_stages s' with
       | Some st => set_processing_stages st s
       | None => s
       end.

(** A session after the selection stage, with the two sample images
    confirmed. *)
Definition finalized_app : app_state :=
  {| app_session :=
       set_processing_stages (stages_at true true false)
         (set_results (RObj <$> (confirmed_choice pick_second shown_once <$> two_objects))
            shown_once);
     app_history := []; app_log := []; app_page := [] |}.

(** The paths [handle_image_upload] returns: what the uploads contribute
    when the temporary directory could be made, nothing otherwise. *)
Definition saved_paths (uenv : upload_environment)
    (uploaded_files : list UploadedFile) : list string :=
  match make_temp_dir uenv with
  | Normal _ => upload_slots uenv 0 uploaded_files
  | Raised _ => []
  end.

(** A new session in which a processor has been stored. *)
Definition ready_app : app_state :=
  {| app_session := set_processor (Some steady_processor) (session_of fresh_world);
     app_history := []; app_log := []; app_page := [] |}.

(** Uploads of which none is an image. *)
Definition useless_uploads : list UploadedFile :=
  [{| file_name := "notes.txt"; file_buffer := [Byte.x68; Byte.x69] |};
   {| file_name := "broken.png"; file_buffer := [Byte.x00] |}].

(** A session in the selection stage: the two sample images have been
    processed and their screen has been drawn once. *)
Definition selecting_app : app_state :=
  {| app_session :=
       set_processing_stages (stages_at true false false)
         (set_results (RObj <$> two_objects) shown_once);
     app_history := []; app_log := []; app_page := [] |}.

(** Every session key but the progress, the processor and the
    configuration holds the same in both sessions. *)
Definition same_outside_batch (s s' : session) : Prop :=
  ss_salon_url s' = ss_salon_url s ∧ ss_results s' = ss_results s
  ∧ ss_stylists s' = ss_stylists s ∧ ss_coupons s' = ss_coupons s
  ∧ ss_use_cache s' = ss_use_cache s
  ∧ ss_processing_stages s' = ss_processing_stages s
  ∧ ss_template_choices s' = ss_template_choices s
  ∧ ss_user_selections s' = ss_user_selections s
  ∧ ss_confirm_template_selections s' = ss_confirm_template_selections s.
(** A new session, before anything is uploaded. *)
Definition new_app : app_state :=
  {| app_session := session_of fresh_world;
     app_history := []; app_log := []; app_page := [] |}.

(** [c in s] *)
Fixpoint occurs (c : ascii) (s : string) : bool :=
  match s with
  | EmptyString => false
  | String a s' => Ascii.eqb a c || occurs c s'
  end.

(** A file name as the upload handler makes them: a single path
    component. *)
Definition plain_name (name : string) : Prop :=
  occurs slash name = false ∧ name ≠ "" ∧ name ≠ ".".

(** [f"styleimg_{i+1}{file_ext}"] *)
Definition safe_filename_of (i : nat) (file_ext : string) : string :=
  "styleimg_" +:+ pretty (i + 1)%nat +:+ file_ext.

(** What [steady_processor] gives for the two uploads of [mixed_uploads]
    that are kept. *)
Definition mixed_objects : list ProcessResult :=
  [sample_result "styleimg_1.jpg"; sample_result "styleimg_4.jpeg"].

(** From [a] to [a'] only the page and the log have grown, the log by
    error entries: the session and the record of progress are the same. *)
Definition view_only (a a' : app_state) : Prop :=
  app_session a' = app_session a ∧ app_history a' = app_history a
  ∧ (∃ logged, app_log a' = app_log a ++ logged
               ∧ Forall (fun entry => entry.1 = LogError) logged)
  ∧ (∃ drawn, app_page a' = app_page a ++ drawn).

(** A computation that only draws and logs errors. *)
Definition is_view {A} (c : M app_state A) : Prop :=
  ∀ a, view_only a (snd (c a)).

(** The progress bar of [display_progress] is drawn on session [s]: there
    is no progress entry, its total is not positive, or the environment
    draws it. *)
Definition progress_bar_drawn (env : environment) (s : session) : Prop :=
  ∀ q, ss_progress s = Some q -> 0 < total q -> draw_progress env q = Normal tt.

(** An environment like [bare_environment] whose progress bar refuses a
    negative index, as [st.progress] refuses a value below 0. *)
Definition strict_bar_environment : environment :=
  {| now := now bare_environment;
     load_config := load_config bare_environment;
     build_processor := build_processor bare_environment;
     draw_progress := fun q =>
       if current q <? 0
       then Raised (Exception "Progress Value has invalid value [0.0, 1.0]")
       else Normal tt;
     result_of_dict := result_of_dict bare_environment;
     has_excel_exporter := has_excel_exporter bare_environment;
     excel_binary_data := excel_binary_data bare_environment;
     has_text_exporter := has_text_exporter bare_environment;
     text_content := text_content bare_environment |}.

(** A session with a processor whose progress entry stands at -1 of 5. *)
Definition ready_app_below_zero : app_state :=
  {| app_session :=
       (update_progress (-1) 5 "" None (app_session ready_app)).2;
     app_history := []; app_log := []; app_page := [] |}.

(** An environment like [bare_environment] whose Excel exporter fails. *)
Definition failing_export_environment : environment :=
  {| now := now bare_environment;
     load_config := load_config bare_environment;
     build_processor := build_processor bare_environment;
     draw_progress := draw_progress bare_environment;
     result_of_dict := result_of_dict bare_environment;
     has_excel_exporter := has_excel_exporter bare_environment;
     excel_binary_data := fun _ _ => Raised (Exception "disk full");
     has_text_exporter := has_text_exporter bare_environment;
     text_content := text_content bare_environment |}.

(** The download buttons on a page, by label and data. *)
Definition download_buttons (pg : list app_event)
    : list (string * (list Byte.byte + string)) :=
  omap (fun e => match e with
                 | DownloadButton label data => Some (label, data)
                 | _ => None
                 end) pg.

(** A session in the display stage that holds a processor and the two
    confirmed sample images. *)
Definition exporting_app : app_state :=
  {| app_session := set_processor (Some steady_processor) (app_session finalized_app);
     app_history := []; app_log := []; app_page := [] |}.

(** The block under the confirmation button (lines 564-580): the loop over
    the results, the flag, and the results stored again. *)
Definition confirm_block : M screen unit :=
  do_ confirm_all;
  do_ on_session (set_session_value (set_confirm_template_selections true));
  do sc' <- get;
  on_session (set_session_value (set_results (results_of sc'))).


(** * Theorems *)

(** ** The monad *)

Lemma bind_normal {St A B} (c : M St A) (k : A -> M St B) s a s' :
  c s = (Normal a, s') -> bind c k s = k a s'.
Proof. intros H. unfold bind. by rewrite H. Qed.

Lemma bind_raised {St A B} (c : M St A) (k : A -> M St B) s e s' :
  c s = (Raised e, s') -> bind c k s = (Raised e, s').
Proof. intros H. unfold bind. by rewrite H. Qed.

(** ** Session bootstrap *)

Lemma init_key_present {A} (field : session -> option A) setter s :
  is_Some (field s) -> init_key field setter s = (Normal tt, s).
Proof.
  intros H. unfold init_key, has_session_key, bind, get, ret.
  by rewrite bool_decide_eq_true_2.
Qed.

Lemma init_key_absent {A} (field : session -> option A) setter s :
  field s = None -> init_key field setter s = (Normal tt, setter s).
Proof.
  intros H. unfold init_key, has_session_key, bind, get, ret.
  rewrite bool_decide_eq_false_2; [done|]. rewrite H. by intros [? ?].
Qed.

Lemma init_session_state_normal s :
  ∃ s', init_session_state s = (Normal tt, s') ∧ all_managed_keys_present s'
    ∧ keeps_managed_values s s'
    ∧ ss_config s' = ss_config s
    ∧ ss_processing_stages s' = ss_processing_stages s
    ∧ ss_confirm_template_selections s' = ss_confirm_template_selections s.
Proof.
  destruct s as [url pr rs sty cou pg uc cfg stg tc us cf].
  unfold init_session_state, all_managed_keys_present, keeps_managed_values.
  destruct url, pr, rs, sty, cou, pg, uc, tc, us;
    (eexists; split; [vm_compute; reflexivity|]);
    simpl; repeat split; eauto; intros; congruence.
Qed.

Lemma init_session_state_present s :
  all_managed_keys_present s -> init_session_state s = (Normal tt, s).
Proof.
  destruct s as [url pr rs sty cou pg uc cfg stg tc us cf].
  unfold all_managed_keys_present; simpl.
  intros ([? ->] & [? ->] & [? ->] & [? ->] & [? ->] & [? ->] & [? ->] & [? ->] & [? ->]).
  vm_compute. reflexivity.
Qed.

(** C9. [init_session_state] returns normally from every session; a managed
    key that already holds a value keeps it; when all managed keys are
    present the session is left as it is; and a second call right after a
    first one changes nothing. *)
Theorem init_session_state_fills_only_absent_keys :
  (∀ s, ∃ s', init_session_state s = (Normal tt, s') ∧ keeps_managed_values s s')
  ∧ (∀ s, all_managed_keys_present s -> init_session_state s = (Normal tt, s))
  ∧ (∀ s s', init_session_state s = (Normal tt, s') ->
             init_session_state s' = (Normal tt, s')).
Proof.
  split; [|split].
  - intros s. destruct (init_session_state_normal s) as (s' & H & _ & K & _).
    eauto.
  - apply init_session_state_present.
  - intros s s' H. destruct (init_session_state_normal s) as (s1 & H1 & P & _).
    rewrite H in H1. injection H1 as <-. by apply init_session_state_present.
Qed.

Lemma init_session_state_fills_only_absent_keys_witness :
  init_session_state busy_session = (Normal tt, busy_session).
Proof.
  apply (proj1 (proj2 init_session_state_fills_only_absent_keys) busy_session).
  unfold all_managed_keys_present, busy_session; simpl.
  repeat split; eexists; reflexivity.
Defined.


(** ** Progress bookkeeping *)

(** C7, as the code has it. [update_progress] returns normally for every
    index, in or out of range, and stores the index and the total as they
    were passed: nothing is clamped. The completion flag is raised when the
    index has reached a positive total, and is never lowered. Without a
    progress entry the session is left alone. *)
Theorem update_progress_stores_index_verbatim :
  ∀ (current_ total_ : Z) (message_ : string) (stage_details_ : option string)
    (s : session),
  ∃ s', update_progress current_ total_ message_ stage_details_ s = (Normal tt, s')
    ∧ match ss_progress s with
      | Some p =>
          ∃ p', s' = set_progress p' s
            ∧ current p' = current_ ∧ total p' = total_ ∧ message p' = message_
            ∧ complete p' =
                (if (total_ <=? current_) && (0 <? total_) then true else complete p)
            ∧ start_time p' = start_time p
      | None => s' = s
      end.
Proof.
  intros c t m sd s.
  unfold update_progress, has_session_key, bind, get, ret, set_session_value, modify.
  destruct (ss_progress s) as [p|] eqn:Hp.
  - rewrite bool_decide_eq_true_2 by eauto. rewrite Hp.
    eexists; split; [reflexivity|]. eexists; split; [reflexivity|].
    destruct (str_truthy sd), ((t <=? c) && (0 <? t)); simpl; auto.
  - rewrite bool_decide_eq_false_2 by (intros [? ?]; congruence).
    eexists; split; reflexivity.
Qed.

(** C7 does not hold as stated: an index below zero and an index above the
    total are both stored unchanged. *)
Lemma update_progress_does_not_clamp :
  (∃ p, ss_progress (update_progress (-1) 5 "x" None busy_session).2 = Some p
        ∧ total p = 5 ∧ current p = -1 ∧ ¬ (0 ≤ current p ≤ total p))
  ∧ (∃ p, ss_progress (update_progress 9 5 "x" None busy_session).2 = Some p
          ∧ total p = 5 ∧ current p = 9 ∧ ¬ (0 ≤ current p ≤ total p)).
Proof.
  split; eexists; (split; [vm_compute; reflexivity|]); simpl; repeat split; lia.
Qed.

(** ** The batch loop *)

Lemma set_progress_same s p : ss_progress s = Some p -> set_progress p s = s.
Proof. destruct s; simpl; intros ->; reflexivity. Qed.

Lemma set_progress_twice a b s :
  set_progress a (set_progress b s) = set_progress a s.
Proof. reflexivity. Qed.

Lemma mutate_progress_run f w p :
  ss_progress (session_of w) = Some p ->
  mutate_progress f w =
    (Normal tt, {| session_of := set_progress (f p) (session_of w);
                   history := f p :: history w |}).
Proof. intros H. unfold mutate_progress, modify. by rewrite H. Qed.

Lemma process_one_run processor total_ stylists coupons use_cache i image_path
    results w p :
  ss_progress (session_of w) = Some p ->
  let t := turn_trace processor total_ stylists coupons use_cache i image_path p in
  process_one processor total_ stylists coupons use_cache i image_path results w =
    (Normal (results ++ slot processor stylists coupons use_cache image_path),
     {| session_of := set_progress (List.last t p) (session_of w);
        history := rev t ++ history w |}).
Proof.
  intros Hp t. subst t.
  unfold process_one, turn_trace, slot, try_except, bind, restore_progress, ret,
    lift_outcome.
  rewrite (mutate_progress_run _ w p Hp).
  erewrite mutate_progress_run by reflexivity.
  erewrite mutate_progress_run by reflexivity.
  destruct (call_processor processor stylists coupons use_cache image_path)
    as [[r|]|e].
  - erewrite mutate_progress_run by reflexivity.
    destruct (truthy (Some r)); simpl; rewrite ?app_nil_r; reflexivity.
  - erewrite mutate_progress_run by reflexivity.
    simpl; rewrite ?app_nil_r; reflexivity.
  - erewrite mutate_progress_run by reflexivity.
    simpl; rewrite ?app_nil_r; reflexivity.
Qed.

Lemma turn_trace_last processor total_ stylists coupons use_cache i image_path p :
  ∃ q, List.last (turn_trace processor total_ stylists coupons use_cache i image_path p) p = q
       ∧ current q = Z.of_nat i ∧ total q = total p ∧ complete q = complete p.
Proof.
  unfold turn_trace.
  destruct (call_processor processor stylists coupons use_cache image_path);
    eexists; (split; [reflexivity|]); simpl; auto.
Qed.

Lemma last_cons_default {A} (l : list A) x d d' :
  List.last (x :: l) d = List.last (x :: l) d'.
Proof.
  revert x. induction l as [|y l IH]; intros x; [done|].
  change (List.last (y :: l) d = List.last (y :: l) d'). apply IH.
Qed.

Lemma last_app_default {A} (l1 l2 : list A) d :
  List.last (l1 ++ l2) d = List.last l2 (List.last l1 d).
Proof.
  induction l1 as [|a l1 IH]; [done|].
  destruct l1 as [|b l1].
  - destruct l2 as [|x l2]; [done|].
    change (List.last (x :: l2) d = List.last (x :: l2) a).
    apply last_cons_default.
  - change (List.last ((b :: l1) ++ l2) d = List.last l2 (List.last (b :: l1) d)).
    apply IH.
Qed.

Lemma process_loop_run processor total_ stylists coupons use_cache image_paths :
  ∀ i0 results w p,
  ss_progress (session_of w) = Some p ->
  process_loop (process_one processor total_ stylists coupons use_cache)
    i0 image_paths results w =
    (Normal (results ++ flat_map (slot processor stylists coupons use_cache) image_paths),
     {| session_of :=
          set_progress
            (List.last (loop_trace processor total_ stylists coupons use_cache
                          i0 image_paths p) p)
            (session_of w);
        history :=
          rev (loop_trace processor total_ stylists coupons use_cache
                 i0 image_paths p) ++ history w |}).
Proof.
  induction image_paths as [|image_path rest IH]; intros i0 results w p Hp.
  - simpl. unfold ret. rewrite app_nil_r, (set_progress_same _ _ Hp). by destruct w.
  - cbn [process_loop loop_trace flat_map].
    erewrite bind_normal by (by apply process_one_run).
    erewrite IH by reflexivity.
    cbn [session_of history].
    rewrite last_app_default, rev_app_distr, <- !app_assoc.
    reflexivity.
Qed.

Lemma process_batch_run env processor image_paths stylists coupons use_cache w :
  image_paths ≠ [] ->
  process_batch env processor image_paths stylists coupons use_cache w =
    (Normal (flat_map (slot processor stylists coupons use_cache) image_paths),
     {| session_of :=
          set_progress
            (List.last (batch_trace env processor image_paths stylists coupons use_cache)
                       (first_progress env (length image_paths)))
            (session_of w);
        history :=
          rev (batch_trace env processor image_paths stylists coupons use_cache)
          ++ history w |}).
Proof.
  intros Hne. unfold process_batch.
  destruct image_paths as [|image_path rest]; [done|].
  set (paths := image_path :: rest).
  unfold batch_trace, running_trace. fold paths.
  set (fp := first_progress env (length paths)).
  set (lt := loop_trace processor (length paths) stylists coupons use_cache 0 paths fp).
  unfold bind at 1. unfold install_progress, modify.
  unfold try_except.
  erewrite bind_normal; last first.
  { apply (process_loop_run _ _ _ _ _ paths 0%nat [] _ fp). reflexivity. }
  fold lt. cbn [session_of history app].
  erewrite bind_normal by (by apply mutate_progress_run).
  erewrite bind_normal by (by apply mutate_progress_run).
  erewrite bind_normal by (by apply mutate_progress_run).
  erewrite bind_normal by (by apply mutate_progress_run).
  unfold bind, restore_progress, ret. cbn [session_of history].
  rewrite !set_progress_twice.
  change (fp :: lt ++ ?c) with ([fp] ++ lt ++ c).
  change (fp :: lt) with ([fp] ++ lt).
  rewrite !last_app_default, !rev_app_distr.
  rewrite <- !app_assoc. reflexivity.
Qed.

Lemma process_images_with_processor env processor image_paths stylists coupons
    use_cache w :
  image_paths ≠ [] ->
  process_images env (Some processor) image_paths stylists coupons use_cache w =
    (Normal (flat_map (slot processor stylists coupons use_cache) image_paths),
     {| session_of :=
          set_progress
            (List.last (batch_trace env processor image_paths stylists coupons use_cache)
                       (first_progress env (length image_paths)))
            (session_of w);
        history :=
          rev (batch_trace env processor image_paths stylists coupons use_cache)
          ++ history w |}).
Proof. intros Hne. unfold process_images. by apply process_batch_run. Qed.

(** *** Properties of the recorded values *)

Lemma never_decreases_app l1 l2 :
  never_decreases l1 -> never_decreases l2 ->
  (∀ a b, a ∈ l1 -> b ∈ l2 -> current a ≤ current b) ->
  never_decreases (l1 ++ l2).
Proof.
  intros H1 H2 H12 i j a b Hij Ha Hb.
  destruct (decide (i < length l1)%nat) as [Hi|Hi];
    destruct (decide (j < length l1)%nat) as [Hj|Hj].
  - rewrite lookup_app_l in Ha, Hb by done. eauto.
  - rewrite lookup_app_l in Ha by done. rewrite lookup_app_r in Hb by lia.
    apply H12; eapply list_elem_of_lookup_2; eauto.
  - lia.
  - rewrite lookup_app_r in Ha, Hb by lia.
    eapply (H2 (i - length l1)%nat (j - length l1)%nat); eauto. lia.
Qed.

Lemma never_decreases_constant c l :
  Forall (fun q => current q = c) l -> never_decreases l.
Proof.
  intros H i j a b _ Ha Hb. rewrite Forall_forall in H.
  rewrite (H a), (H b); [lia| |]; eapply list_elem_of_lookup_2; eauto.
Qed.

Lemma turn_trace_Forall processor total_ stylists coupons use_cache i image_path p :
  Forall (fun q => current q = Z.of_nat i ∧ total q = total p ∧ complete q = complete p)
    (turn_trace processor total_ stylists coupons use_cache i image_path p).
Proof.
  unfold turn_trace.
  destruct (call_processor processor stylists coupons use_cache image_path);
    repeat constructor.
Qed.

Lemma loop_trace_Forall processor total_ stylists coupons use_cache image_paths :
  ∀ i0 p,
  Forall (fun q => total q = total p ∧ complete q = complete p
                   ∧ Z.of_nat i0 ≤ current q
                   ∧ current q < Z.of_nat (i0 + length image_paths))
    (loop_trace processor total_ stylists coupons use_cache i0 image_paths p).
Proof.
  induction image_paths as [|image_path rest IH]; intros i0 p; [constructor|].
  cbn [loop_trace]. apply Forall_app. split.
  - eapply Forall_impl; [apply turn_trace_Forall|].
    simpl. intros q (Hc & Ht & Hd). repeat split; auto; lia.
  - destruct (turn_trace_last processor total_ stylists coupons use_cache
                i0 image_path p) as (q & -> & Hc & Ht & Hd).
    eapply Forall_impl; [apply (IH (S i0) q)|].
    simpl. intros r (Ht' & Hd' & Hlo & Hhi). repeat split; try congruence; lia.
Qed.

Lemma loop_trace_never_decreases processor total_ stylists coupons use_cache
    image_paths :
  ∀ i0 p,
  never_decreases
    (loop_trace processor total_ stylists coupons use_cache i0 image_paths p).
Proof.
  induction image_paths as [|image_path rest IH]; intros i0 p.
  - intros i j a b _ Ha. simpl in Ha. by destruct i.
  - cbn [loop_trace]. apply never_decreases_app.
    + apply (never_decreases_constant (Z.of_nat i0)).
      eapply Forall_impl; [apply turn_trace_Forall|]. by intros q (? & _).
    + apply IH.
    + intros a b Ha Hb.
      pose proof (turn_trace_Forall processor total_ stylists coupons use_cache
                    i0 image_path p) as H1.
      rewrite Forall_forall in H1. apply H1 in Ha as (Ha & _).
      pose proof (loop_trace_Forall processor total_ stylists coupons use_cache
                    rest (S i0)
                    (List.last (turn_trace processor total_ stylists coupons
                                  use_cache i0 image_path p) p)) as H2.
      rewrite Forall_forall in H2. apply H2 in Hb as (_ & _ & Hb & _).
      lia.
Qed.

(** ** What a batch returns *)

Lemma slot_length processor stylists coupons use_cache image_path :
  length (slot processor stylists coupons use_cache image_path) =
    if succeeds processor stylists coupons use_cache image_path then 1%nat else 0%nat.
Proof.
  unfold slot, succeeds.
  destruct (call_processor processor stylists coupons use_cache image_path)
    as [[r|]|e]; try reflexivity.
  by destruct (truthy (Some r)).
Qed.

Lemma results_length processor stylists coupons use_cache image_paths :
  (length (flat_map (slot processor stylists coupons use_cache) image_paths)
     ≤ length image_paths)%nat
  ∧ (length (flat_map (slot processor stylists coupons use_cache) image_paths)
       = length image_paths
     ↔ Forall (fun image_path =>
                 succeeds processor stylists coupons use_cache image_path = true)
              image_paths).
Proof.
  induction image_paths as [|image_path rest [IH1 IH2]]; simpl.
  - split; [lia|]. split; [constructor|reflexivity].
  - rewrite length_app, slot_length.
    destruct (succeeds processor stylists coupons use_cache image_path) eqn:E.
    + split; [lia|]. rewrite Forall_cons. split.
      * intros H. split; [done|]. apply IH2. lia.
      * intros [_ H]. apply IH2 in H. lia.
    + split; [lia|]. rewrite Forall_cons. split; [lia|]. intros [? _]. congruence.
Qed.

(** C1, as the code has it. For a non-empty list of images and a processor
    at hand, [process_images] returns normally, and the list it returns is
    made, in input order, of the tagged results of exactly those images
    whose call returned a result that counts as one: an image whose call
    raised, or returned [None] or an empty dict, contributes no entry. So
    the list is never longer than the input, and it is as long as the input
    exactly when no image failed. *)
Theorem process_images_keeps_successes_in_order :
  ∀ env processor (image_paths : list string) stylists coupons use_cache w,
  image_paths ≠ [] ->
  ∃ results w',
    process_images env (Some processor) image_paths stylists coupons use_cache w
      = (Normal results, w')
    ∧ results = flat_map (slot processor stylists coupons use_cache) image_paths
    ∧ (length results ≤ length image_paths)%nat
    ∧ (length results = length image_paths
       ↔ Forall (fun image_path =>
                   succeeds processor stylists coupons use_cache image_path = true)
                image_paths).
Proof.
  intros env processor image_paths stylists coupons use_cache w Hne.
  rewrite process_images_with_processor by done.
  eexists _, _. split; [reflexivity|]. split; [reflexivity|].
  apply results_length.
Qed.

Lemma process_images_keeps_successes_in_order_witness :
  ∃ results w',
    process_images bare_environment (Some steady_processor) three_uploads
      None None false fresh_world = (Normal results, w')
    ∧ results = flat_map (slot steady_processor None None false) three_uploads
    ∧ (length results ≤ length three_uploads)%nat
    ∧ (length results = length three_uploads
       ↔ Forall (fun image_path =>
                   succeeds steady_processor None None false image_path = true)
                three_uploads).
Proof.
  apply (process_images_keeps_successes_in_order bare_environment steady_processor
           three_uploads None None false fresh_world).
  discriminate.
Defined.

(** C1 does not hold as stated: a batch of three images whose second image
    fails returns two results, not three; the failed image has no slot. *)
Lemma process_images_drops_failed_image :
  ∃ results w',
    process_images bare_environment
      (Some (flaky_processor "temp/hairstyle_analyzer/styleimg_2.jpg"))
      three_uploads None None false fresh_world = (Normal results, w')
    ∧ length results = 2%nat ∧ length three_uploads = 3%nat
    ∧ image_name <$> (results !! 0%nat ≫= fun r =>
                        match r with RObj o => Some o | RDict _ => None end)
        = Some "styleimg_1.jpg"
    ∧ image_name <$> (results !! 1%nat ≫= fun r =>
                        match r with RObj o => Some o | RDict _ => None end)
        = Some "styleimg_3.png".
Proof.
  rewrite process_images_with_processor by discriminate.
  eexists _, _. split; [reflexivity|]. vm_compute. repeat split.
Qed.

Lemma last_Forall {A} (P : A -> Prop) (l : list A) d :
  Forall P l -> P d -> P (List.last l d).
Proof.
  induction 1 as [|x l Hx Hl IH]; intros Hd; [done|].
  destruct l; [done|]. by apply IH.
Qed.

Lemma running_trace_Forall env processor image_paths stylists coupons use_cache :
  image_paths ≠ [] ->
  Forall (still_running (length image_paths))
    (running_trace env processor image_paths stylists coupons use_cache).
Proof.
  intros Hne. unfold running_trace.
  assert (0 < length image_paths)%nat by (destruct image_paths; [done|simpl; lia]).
  constructor.
  - unfold still_running, first_progress; simpl. repeat split; lia.
  - eapply Forall_impl; [apply loop_trace_Forall|].
    unfold still_running, first_progress; simpl.
    intros q (? & ? & ? & ?). repeat split; auto; lia.
Qed.

Lemma running_trace_never_decreases env processor image_paths stylists coupons
    use_cache :
  never_decreases (running_trace env processor image_paths stylists coupons use_cache).
Proof.
  unfold running_trace.
  apply (never_decreases_app [_]).
  - apply (never_decreases_constant 0). by repeat constructor.
  - apply loop_trace_never_decreases.
  - intros a b Ha Hb. apply list_elem_of_singleton in Ha as ->.
    pose proof (loop_trace_Forall processor (length image_paths) stylists coupons
                  use_cache image_paths 0
                  (first_progress env (length image_paths))) as H.
    rewrite Forall_forall in H. apply H in Hb as (_ & _ & Hb & _).
    simpl. lia.
Qed.

Lemma closing_trace_Forall total_ p :
  total p = Z.of_nat total_ -> Forall (at_total total_) (closing_trace total_ p).
Proof. intros H. unfold closing_trace, at_total. repeat constructor; simpl; auto. Qed.

(** The shape of the record of a batch. *)
Lemma batch_trace_shape env processor image_paths stylists coupons use_cache :
  image_paths ≠ [] ->
  ∃ running closing final,
    batch_trace env processor image_paths stylists coupons use_cache
      = running ++ closing
    ∧ List.last (batch_trace env processor image_paths stylists coupons use_cache)
                (first_progress env (length image_paths)) = final
    ∧ List.last closing final = final
    ∧ running ≠ [] ∧ length closing = 4%nat
    ∧ never_decreases (running ++ closing)
    ∧ Forall (still_running (length image_paths)) running
    ∧ Forall (at_total (length image_paths)) closing
    ∧ current final = Z.of_nat (length image_paths)
    ∧ total final = Z.of_nat (length image_paths)
    ∧ complete final = true.
Proof.
  intros Hne.
  pose proof (running_trace_Forall env processor image_paths stylists coupons
                use_cache Hne) as Hrun.
  set (running := running_trace env processor image_paths stylists coupons use_cache)
    in *.
  set (fp := first_progress env (length image_paths)).
  assert (Hlast : still_running (length image_paths) (List.last running fp)).
  { apply last_Forall; [done|]. unfold running, running_trace in Hrun.
    by apply Forall_cons in Hrun as [? _]. }
  pose proof (closing_trace_Forall (length image_paths) _ (proj1 Hlast)) as Hclose.
  exists running, (closing_trace (length image_paths) (List.last running fp)).
  eexists. split; [reflexivity|]. split.
  { unfold batch_trace. fold running. fold fp.
    rewrite last_app_default. reflexivity. }
  split; [reflexivity|]. split; [done|]. split; [reflexivity|]. split.
  { apply never_decreases_app.
    - apply running_trace_never_decreases.
    - apply (never_decreases_constant (Z.of_nat (length image_paths))).
      eapply Forall_impl; [exact Hclose|]. by intros q [_ ?].
    - intros a b Ha Hb. rewrite Forall_forall in Hrun, Hclose.
      destruct (Hrun a Ha) as (_ & _ & _ & ?). destruct (Hclose b Hb) as [_ ?]. lia. }
  split; [done|]. split; [done|].
  simpl. destruct Hlast as (? & _). auto.
Qed.

(** ** A failing image and the others *)

Lemma slot_ext processor processor' stylists coupons use_cache image_path :
  call_processor processor stylists coupons use_cache image_path
    = call_processor processor' stylists coupons use_cache image_path ->
  slot processor stylists coupons use_cache image_path
    = slot processor' stylists coupons use_cache image_path.
Proof. intros H. unfold slot. by rewrite H. Qed.

Lemma flat_map_ext_Forall {A B} (f g : A -> list B) l :
  Forall (fun x => f x = g x) l -> flat_map f l = flat_map g l.
Proof. induction 1 as [|x l Hx _ IH]; simpl; [done|]. by rewrite Hx, IH. Qed.

Lemma results_without_failed_image processor processor' stylists coupons use_cache
    (image_paths : list string) k path_k e :
  image_paths !! k = Some path_k ->
  call_processor processor stylists coupons use_cache path_k = Raised e ->
  (∀ j image_path, j ≠ k -> image_paths !! j = Some image_path ->
     call_processor processor stylists coupons use_cache image_path
       = call_processor processor' stylists coupons use_cache image_path) ->
  flat_map (slot processor stylists coupons use_cache) image_paths
    = flat_map (slot processor' stylists coupons use_cache) (take k image_paths)
      ++ flat_map (slot processor' stylists coupons use_cache) (drop (S k) image_paths).
Proof.
  intros Hk He Hagree.
  rewrite <- (take_drop_middle image_paths k path_k Hk) at 1.
  rewrite flat_map_app. simpl.
  assert (slot processor stylists coupons use_cache path_k = []) as ->
    by (unfold slot; by rewrite He).
  simpl. f_equal; apply flat_map_ext_Forall, Forall_forall; intros x Hx;
    apply slot_ext.
  - apply list_elem_of_lookup in Hx as [j Hj].
    apply lookup_take_Some in Hj as [Hj Hlt]. apply (Hagree j); [lia|done].
  - apply list_elem_of_lookup in Hx as [j Hj].
    rewrite lookup_drop in Hj. apply (Hagree (S k + j)%nat); [lia|done].
Qed.

(** C2. When the call for the image at position [k] raises, the batch is
    not aborted: [process_images] returns normally with the progress marked
    complete at the total. The results of the other images are what they
    are in a run with a processor that behaves the same on every other
    image and does not fail on image [k]: that run returns the same list
    with the entry of image [k] in between. *)
Theorem failing_image_leaves_other_results :
  ∀ env processor processor' (image_paths : list string) (k : nat) path_k e
    stylists coupons use_cache w,
  image_paths !! k = Some path_k ->
  call_processor processor stylists coupons use_cache path_k = Raised e ->
  (∀ j image_path, j ≠ k -> image_paths !! j = Some image_path ->
     call_processor processor stylists coupons use_cache image_path
       = call_processor processor' stylists coupons use_cache image_path) ->
  let others_before :=
    flat_map (slot processor' stylists coupons use_cache) (take k image_paths) in
  let others_after :=
    flat_map (slot processor' stylists coupons use_cache) (drop (S k) image_paths) in
  ∃ w1 w2 final,
    process_images env (Some processor) image_paths stylists coupons use_cache w
      = (Normal (others_before ++ others_after), w1)
    ∧ process_images env (Some processor') image_paths stylists coupons use_cache w
      = (Normal (others_before
                 ++ slot processor' stylists coupons use_cache path_k
                 ++ others_after), w2)
    ∧ ss_progress (session_of w1) = Some final
    ∧ complete final = true
    ∧ current final = Z.of_nat (length image_paths).
Proof.
  intros env processor processor' image_paths k path_k e stylists coupons
    use_cache w Hk He Hagree others_before others_after.
  assert (Hne : image_paths ≠ []) by (intros ->; by rewrite lookup_nil in Hk).
  rewrite !process_images_with_processor by done.
  destruct (batch_trace_shape env processor image_paths stylists coupons use_cache
              Hne) as (running & closing & final & _ & Hfinal & _ & _ & _ & _ & _
                       & _ & Hcur & _ & Hdone).
  eexists _, _, final. split; [|split; [|split; [|split]]].
  - f_equal. f_equal. by eapply results_without_failed_image.
  - f_equal. f_equal.
    rewrite <- (take_drop_middle image_paths k path_k Hk) at 1.
    rewrite flat_map_app. reflexivity.
  - cbn [session_of ss_progress set_progress]. by rewrite Hfinal.
  - done.
  - done.
Qed.

Lemma failing_image_leaves_other_results_witness :
  ∃ w1 w2 final,
    process_images bare_environment
      (Some (flaky_processor "temp/hairstyle_analyzer/styleimg_2.jpg"))
      three_uploads None None false fresh_world
      = (Normal (flat_map (slot steady_processor None None false) (take 1 three_uploads)
                 ++ flat_map (slot steady_processor None None false)
                      (drop 2 three_uploads)), w1)
    ∧ process_images bare_environment (Some steady_processor)
        three_uploads None None false fresh_world
      = (Normal (flat_map (slot steady_processor None None false) (take 1 three_uploads)
                 ++ slot steady_processor None None false
                      "temp/hairstyle_analyzer/styleimg_2.jpg"
                 ++ flat_map (slot steady_processor None None false)
                      (drop 2 three_uploads)), w2)
    ∧ ss_progress (session_of w1) = Some final
    ∧ complete final = true
    ∧ current final = Z.of_nat (length three_uploads).
Proof.
  apply (failing_image_leaves_other_results bare_environment
           (flaky_processor "temp/hairstyle_analyzer/styleimg_2.jpg")
           steady_processor three_uploads 1%nat
           "temp/hairstyle_analyzer/styleimg_2.jpg"
           (Exception "analysis failed") None None false fresh_world).
  - reflexivity.
  - reflexivity.
  - intros j image_path Hj Hl.
    destruct j as [|[|[|j]]]; [| done | |]; simpl in Hl.
    + injection Hl as <-. reflexivity.
    + injection Hl as <-. reflexivity.
    + discriminate.
Defined.

(** ** The empty batch *)

Lemma in_session_keeps_progress {A} (c : M session A) w o w' :
  (∀ s o' s', c s = (o', s') -> ss_progress s' = ss_progress s) ->
  in_session c w = (o, w') ->
  ss_progress (session_of w') = ss_progress (session_of w) ∧ history w' = history w.
Proof.
  intros Hc. unfold in_session.
  destruct (c (session_of w)) as [o' s'] eqn:E. intros [= <- <-]. simpl.
  split; [by eapply Hc|done].
Qed.

Lemma reinit_keeps_progress env w :
  ∃ o w',
    try_except
      (do config_manager <- in_session (get_config_manager env);
       do p <- in_session (create_processor env (Some config_manager));
       match p with
       | None => ret None
       | Some p' =>
           do_ in_session (set_session_value (set_processor (Some p')));
           ret (Some p')
       end)
      (fun _ => ret None) w = (Normal o, w')
    ∧ ss_progress (session_of w') = ss_progress (session_of w)
    ∧ history w' = history w.
Proof.
  destruct w as [s h].
  unfold try_except, bind, in_session, get_config_manager, create_processor,
    has_session_key, set_session_value, modify, get, ret, raise, lift_outcome,
    try_except, bind.
  cbn [session_of history].
  destruct (ss_config s) as [c|] eqn:Hc.
  - rewrite bool_decide_eq_true_2 by eauto. rewrite Hc. cbn [session_of history].
    destruct (build_processor env c (default true (ss_use_cache s))) as [[p|]|e];
      eexists _, _; (split; [reflexivity|]); by simpl.
  - rewrite bool_decide_eq_false_2 by (intros [? ?]; congruence).
    destruct (load_config env "config/config.yaml") as [c|e];
      cbn [session_of history].
    + destruct (build_processor env c _) as [[p|]|e];
        eexists _, _; (split; [reflexivity|]); by simpl.
    + eexists _, _; (split; [reflexivity|]); by simpl.
Qed.

(** C5, as the code has it. With an empty list of images, [process_images]
    returns the empty list at once, whatever processor is passed, and
    leaves the progress entry of the session exactly as it found it: it
    writes neither a total nor a completion flag, and records nothing. *)
Theorem process_images_empty_leaves_progress :
  ∀ env processor stylists coupons use_cache w,
  ∃ w',
    process_images env processor [] stylists coupons use_cache w = (Normal [], w')
    ∧ ss_progress (session_of w') = ss_progress (session_of w)
    ∧ history w' = history w.
Proof.
  intros env processor stylists coupons use_cache w.
  unfold process_images. destruct processor as [p|].
  - eexists. split; [reflexivity|]. done.
  - destruct (reinit_keeps_progress env w) as (o & w' & H & Hp & Hh).
    erewrite bind_normal by exact H.
    destruct o; eexists; (split; [reflexivity|]); done.
Qed.

(** C5 does not hold as stated: after the empty batch on a new session the
    progress entry has total 0 and is not marked complete. *)
Lemma process_images_empty_not_complete :
  ∃ w' p,
    process_images bare_environment (Some steady_processor) [] None None false
      fresh_world = (Normal [], w')
    ∧ ss_progress (session_of w') = Some p
    ∧ total p = 0 ∧ complete p = false.
Proof. eexists _, _. split; [reflexivity|]. vm_compute. repeat split. Qed.

(** ** Progress over the life of a batch *)

(** C6, as the code has it. For a non-empty list of images and a processor
    at hand, the values the progress dict takes during [process_images],
    oldest first, split into those recorded while the images are processed
    and the four recorded after the loop. The index never decreases along
    the whole record; every value of the first part is not complete and has
    its index below the total; every value of the second part has its index
    at the total; and the last value, which is the one left in the session,
    has the index at the total, the total at the number of images, and the
    completion flag set. *)
Theorem progress_over_a_batch :
  ∀ env processor (image_paths : list string) stylists coupons use_cache w,
  image_paths ≠ [] ->
  ∃ results w' running closing final,
    process_images env (Some processor) image_paths stylists coupons use_cache w
      = (Normal results, w')
    ∧ history w' = rev (running ++ closing) ++ history w
    ∧ running ≠ [] ∧ length closing = 4%nat
    ∧ never_decreases (running ++ closing)
    ∧ Forall (still_running (length image_paths)) running
    ∧ Forall (at_total (length image_paths)) closing
    ∧ List.last closing final = final
    ∧ ss_progress (session_of w') = Some final
    ∧ current final = total final
    ∧ total final = Z.of_nat (length image_paths)
    ∧ complete final = true.
Proof.
  intros env processor image_paths stylists coupons use_cache w Hne.
  rewrite process_images_with_processor by done.
  destruct (batch_trace_shape env processor image_paths stylists coupons use_cache
              Hne) as (running & closing & final & Hsplit & Hfinal & Hlast & Hrun
                       & Hlen & Hmono & Hbefore & Hafter & Hcur & Htot & Hdone).
  eexists _, _, running, closing, final.
  split; [reflexivity|]. cbn [session_of history ss_progress set_progress].
  rewrite Hsplit in *. rewrite Hfinal.
  repeat split; auto; congruence.
Qed.

Lemma progress_over_a_batch_witness :
  ∃ results w' running closing final,
    process_images bare_environment
      (Some (flaky_processor "temp/hairstyle_analyzer/styleimg_2.jpg"))
      three_uploads None None false fresh_world = (Normal results, w')
    ∧ history w' = rev (running ++ closing) ++ history fresh_world
    ∧ running ≠ [] ∧ length closing = 4%nat
    ∧ never_decreases (running ++ closing)
    ∧ Forall (still_running (length three_uploads)) running
    ∧ Forall (at_total (length three_uploads)) closing
    ∧ List.last closing final = final
    ∧ ss_progress (session_of w') = Some final
    ∧ current final = total final
    ∧ total final = Z.of_nat (length three_uploads)
    ∧ complete final = true.
Proof.
  apply (progress_over_a_batch bare_environment
           (flaky_processor "temp/hairstyle_analyzer/styleimg_2.jpg")
           three_uploads None None false fresh_world).
  discriminate.
Defined.

(** C6 does not hold as stated for every call: with an empty list, and
    with no processor and none that can be built, the call ends with the
    progress entry untouched, so not marked complete; in the second case
    its total is not even the number of images. *)
Lemma progress_not_completed_without_batch :
  (∃ w' p,
     process_images bare_environment (Some steady_processor) [] None None false
       fresh_world = (Normal [], w')
     ∧ ss_progress (session_of w') = Some p
     ∧ current p = total p ∧ complete p = false)
  ∧ (∃ w' p,
       process_images bare_environment None three_uploads None None false
         fresh_world = (Normal [], w')
       ∧ ss_progress (session_of w') = Some p
       ∧ total p = 0 ∧ length three_uploads = 3%nat ∧ complete p = false).
Proof.
  split; eexists _, _; (split; [vm_compute; reflexivity|]); vm_compute;
    repeat split.
Qed.

(** ** The template selection screen *)

Lemma with_maps_same s C U :
  ss_template_choices s = Some C -> ss_user_selections s = Some U ->
  with_maps C U s = s.
Proof. destruct s; simpl; intros -> ->; reflexivity. Qed.

Lemma with_maps_twice C U C' U' s :
  with_maps C' U' (with_maps C U s) = with_maps C' U' s.
Proof. reflexivity. Qed.

Lemma choose_one_pure ui i result s C U :
  ss_template_choices s = Some C -> ss_user_selections s = Some U ->
  choose_one ui i result s =
    (fst (choose_pure ui result C U),
     with_maps (fst (snd (choose_pure ui result C U)))
               (snd (snd (choose_pure ui result C U))) s).
Proof.
  intros HC HU. destruct s; simpl in HC, HU; subst.
  unfold choose_one, choose_pure, with_maps, bind, lift_outcome, get, ret, raise,
    set_session_value, modify, listed_templates.
  destruct result as [o|d]; [|reflexivity].
  cbn -[template_titles py_index st_radio].
  destruct (bool_decide (is_Some (C !! image_name o))) eqn:E;
    cbn -[template_titles py_index st_radio].
  - destruct (C !! image_name o) as [ts|]; [|reflexivity].
    destruct (template_titles 0 ts); [|reflexivity].
    destruct (py_index ts _) as [t|]; [|reflexivity].
    destruct (attr_of_template category "category" t); reflexivity.
  - destruct (<[image_name o:=_]> C !! image_name o) as [ts|]; [|reflexivity].
    destruct (template_titles 0 ts); [|reflexivity].
    destruct (py_index ts _) as [t|]; [|reflexivity].
    destruct (attr_of_template category "category" t); reflexivity.
Qed.

Lemma choose_loop_pure ui results :
  ∀ i0 s C U,
  ss_template_choices s = Some C -> ss_user_selections s = Some U ->
  for_enumerate i0 results (choose_one ui) s =
    (fst (choose_all_pure ui results C U),
     with_maps (fst (snd (choose_all_pure ui results C U)))
               (snd (snd (choose_all_pure ui results C U))) s).
Proof.
  induction results as [|result rest IH]; intros i0 s C U HC HU.
  - simpl. unfold ret. by rewrite with_maps_same.
  - cbn [for_enumerate choose_all_pure]. unfold bind.
    rewrite (choose_one_pure ui i0 result s C U HC HU).
    destruct (choose_pure ui result C U) as [[[]|e] [C' U']]; [|reflexivity].
    cbn [fst snd]. rewrite (IH (S i0) _ C' U') by reflexivity.
    by rewrite with_maps_twice.
Qed.

(** A turn that went through leaves, under the name of its image, a list
    of templates and the index the radio group returned. *)
Lemma choose_pure_normal ui o C U C' U' :
  choose_pure ui (RObj o) C U = (Normal tt, (C', U')) ->
  ∃ ts idx, C' !! image_name o = Some ts ∧ U' !! image_name o = Some idx
            ∧ (radio_pick ui (image_name o) = None
               ∨ radio_pick ui (image_name o) = Some idx).
Proof.
  unfold choose_pure.
  set (Cx := if bool_decide _ then C else _).
  destruct (Cx !! image_name o) as [ts|] eqn:Hts; [|done].
  destruct (template_titles 0 ts); [|done].
  destruct (py_index ts _) as [t|]; [|done].
  destruct (attr_of_template category "category" t); [|done].
  intros [= <- <-]. exists ts, (st_radio ui (image_name o) (default 0 (U !! image_name o))).
  split; [done|]. split; [by rewrite lookup_insert_eq|].
  unfold st_radio. destruct (radio_pick ui (image_name o)); simpl; auto.
Qed.

(** What is stored under a name, once a turn for it went through, is not
    changed by any later turn of the same run. *)
Lemma choose_pure_keeps ui result name ts idx C U o' C' U' :
  C !! name = Some ts -> U !! name = Some idx ->
  (radio_pick ui name = None ∨ radio_pick ui name = Some idx) ->
  choose_pure ui result C U = (o', (C', U')) ->
  C' !! name = Some ts ∧ U' !! name = Some idx.
Proof.
  intros HC HU Hpick. unfold choose_pure.
  destruct result as [o|d]; [|by intros [= _ <- <-]].
  destruct (decide (image_name o = name)) as [->|Hne].
  - rewrite bool_decide_eq_true_2 by eauto. rewrite HC.
    assert (st_radio ui name (default 0 (U !! name)) = idx) as Hidx.
    { unfold st_radio. rewrite HU. by destruct Hpick as [-> | ->]. }
    rewrite Hidx.
    destruct (template_titles 0 ts); [|by intros [= _ <- <-]].
    destruct (py_index ts idx) as [t|];
      [destruct (attr_of_template category "category" t)|];
      intros [= _ <- <-]; by rewrite lookup_insert_eq.
  - set (Cx := if bool_decide _ then C else _).
    assert (Cx !! name = Some ts) as HCx.
    { subst Cx. destruct (bool_decide _); [done|]. by rewrite lookup_insert_ne. }
    destruct (Cx !! image_name o) as [ts'|]; [|by intros [= _ <- <-]].
    destruct (template_titles 0 ts'); [|by intros [= _ <- <-]].
    destruct (py_index ts' _) as [t|];
      [destruct (attr_of_template category "category" t)|];
      intros [= _ <- <-]; by rewrite lookup_insert_ne.
Qed.

Lemma choose_all_pure_keeps ui results name ts idx :
  ∀ C U o' C' U',
  C !! name = Some ts -> U !! name = Some idx ->
  (radio_pick ui name = None ∨ radio_pick ui name = Some idx) ->
  choose_all_pure ui results C U = (o', (C', U')) ->
  C' !! name = Some ts ∧ U' !! name = Some idx.
Proof.
  induction results as [|result rest IH]; intros C U o' C' U' HC HU Hpick.
  - by intros [= _ <- <-].
  - cbn [choose_all_pure].
    destruct (choose_pure ui result C U) as [[[]|e] [Ca Ua]] eqn:E.
    + destruct (choose_pure_keeps _ _ _ _ _ _ _ _ _ _ HC HU Hpick E) as [HCa HUa].
      by apply IH.
    + intros [= _ <- <-]. by eapply choose_pure_keeps.
Qed.

(** A turn repeated with the radio group left alone, from any dicts that
    hold under the image's name what the first turn left there, ends the
    same way and changes nothing. *)
Lemma choose_pure_again ui result C U o' C' U' C2 U2 :
  choose_pure ui result C U = (o', (C', U')) ->
  (∀ o, result = RObj o ->
     C2 !! image_name o = C' !! image_name o
     ∧ U2 !! image_name o = U' !! image_name o) ->
  choose_pure (untouched ui) result C2 U2 = (o', (C2, U2)).
Proof.
  intros H Hsame. destruct result as [o|d]; [|by injection H as <- _ _].
  destruct (Hsame o eq_refl) as [HC2 HU2]. clear Hsame.
  revert H. unfold choose_pure.
  set (Cx := if bool_decide _ then C else _).
  assert (is_Some (Cx !! image_name o)) as [ts Hts].
  { subst Cx. destruct (bool_decide _) eqn:E.
    - by apply bool_decide_eq_true_1 in E.
    - rewrite lookup_insert_eq. eauto. }
  rewrite Hts.
  destruct (template_titles 0 ts) as [titles|e] eqn:Ht.
  - set (idx := st_radio ui (image_name o) (default 0 (U !! image_name o))).
    intros H.
    assert (C' = Cx ∧ U' = <[image_name o := idx]> U) as [-> ->].
    { destruct (py_index ts idx) as [t|];
        [destruct (attr_of_template category "category" t)|];
        by injection H as _ <- <-. }
    rewrite Hts in HC2. rewrite lookup_insert_eq in HU2.
    rewrite bool_decide_eq_true_2 by (rewrite HC2; eauto).
    rewrite HC2, Ht.
    assert (st_radio (untouched ui) (image_name o) (default 0 (U2 !! image_name o))
            = idx) as -> by (by rewrite HU2).
    rewrite (insert_id U2 _ _ HU2).
    destruct (py_index ts idx) as [t|];
      [destruct (attr_of_template category "category" t)|];
      by injection H as <-.
  - intros [= <- <- <-]. rewrite Hts in HC2.
    rewrite bool_decide_eq_true_2 by (rewrite HC2; eauto).
    by rewrite HC2, Ht.
Qed.

(** The loop over the images, repeated with every radio group left alone
    from the dicts it ended with, ends the same way and changes nothing. *)
Lemma choose_all_pure_again ui results :
  ∀ C U o' C1 U1,
  choose_all_pure ui results C U = (o', (C1, U1)) ->
  choose_all_pure (untouched ui) results C1 U1 = (o', (C1, U1)).
Proof.
  induction results as [|result rest IH]; intros C U o' C1 U1.
  - by intros [= <- _ _].
  - cbn [choose_all_pure].
    destruct (choose_pure ui result C U) as [[[]|e] [Ca Ua]] eqn:E.
    + intros H.
      rewrite (choose_pure_again ui result C U (Normal tt) Ca Ua C1 U1 E).
      * by eapply IH.
      * intros o ->.
        destruct (choose_pure_normal _ _ _ _ _ _ E) as (ts & idx & HCa & HUa & Hp).
        destruct (choose_all_pure_keeps _ _ _ _ _ _ _ _ _ _ HCa HUa Hp H) as [-> ->].
        by rewrite HCa, HUa.
    + intros [= <- <- <-].
      by rewrite (choose_pure_again ui result C U (Raised e) Ca Ua Ca Ua E).
Qed.

Lemma ensure_maps_run s :
  bind (init_key ss_template_choices (set_template_choices ∅))
       (fun _ => init_key ss_user_selections (set_user_selections ∅)) s
  = (Normal tt, ensure_maps s).
Proof.
  destruct s as [url pr rs sty cou pg uc cfg stg tc us cf].
  destruct tc, us; vm_compute; reflexivity.
Qed.

Lemma display_template_choices_run ui R s :
  R ≠ [] ->
  display_template_choices ui {| results_of := R; screen_session := s |}
    = display_outcome ui R s.
Proof.
  intros HR. unfold display_template_choices, display_outcome.
  unfold bind at 1. unfold get. cbn [results_of].
  destruct R as [|r0 R']; [done|]. set (R := r0 :: R') in *.
  pose proof (ensure_maps_run s) as Hinit. unfold bind in Hinit.
  unfold bind at 1. unfold on_session at 1. cbn [screen_session results_of].
  destruct (init_key ss_template_choices (set_template_choices ∅) s)
    as [[[]|e] s'] eqn:E1; [|done].
  unfold bind at 1. unfold on_session at 1. cbn [screen_session results_of].
  rewrite Hinit.
  unfold bind at 1. unfold on_session at 1. cbn [screen_session results_of].
  rewrite (choose_loop_pure ui R 0%nat (ensure_maps s)
             (default ∅ (ss_template_choices s))
             (default ∅ (ss_user_selections s))) by reflexivity.
  destruct (choose_all_pure ui R _ _) as [[[]|e] [C1 U1]]; cbn [fst snd];
    [|reflexivity].
  destruct (confirm_pressed ui); [|reflexivity].
  unfold bind at 1. unfold confirm_all. cbn [screen_session results_of].
  destruct (confirm_loop _ [] R) as [[[]|e] R1]; reflexivity.
Qed.

Lemma same_listing_refl r : same_listing r r.
Proof. by destruct r. Qed.

Lemma choose_pure_same_listing ui r r' C U :
  same_listing r r' -> choose_pure ui r C U = choose_pure ui r' C U.
Proof.
  destruct r as [o|d], r' as [o'|d']; try done.
  intros (Hn & Hs & Ha). unfold choose_pure, listed_templates.
  by rewrite Hn, Hs, Ha.
Qed.

Lemma choose_all_pure_same_listing ui R R' :
  Forall2 same_listing R R' ->
  ∀ C U, choose_all_pure ui R C U = choose_all_pure ui R' C U.
Proof.
  induction 1 as [|r r' R R' Hr _ IH]; intros C U; [done|].
  cbn [choose_all_pure]. rewrite (choose_pure_same_listing ui r r' C U Hr).
  destruct (choose_pure ui r' C U) as [[[]|e] [Ca Ua]]; [apply IH|done].
Qed.

Lemma confirm_one_session s s' r :
  ss_template_choices s = ss_template_choices s' ->
  ss_user_selections s = ss_user_selections s' ->
  confirm_one s r = confirm_one s' r.
Proof. intros H1 H2. unfold confirm_one. by rewrite H1, H2. Qed.

Lemma confirm_loop_session s s' todo :
  ss_template_choices s = ss_template_choices s' ->
  ss_user_selections s = ss_user_selections s' ->
  ∀ done_, confirm_loop s done_ todo = confirm_loop s' done_ todo.
Proof.
  intros H1 H2. induction todo as [|r rest IH]; intros done_; [done|].
  cbn [confirm_loop]. rewrite (confirm_one_session s s' r H1 H2).
  destruct (confirm_one s' r); [apply IH|done].
Qed.

(** Confirming an object once more sets what is already set. *)
Lemma confirm_one_again s r r' :
  confirm_one s r = Normal r' ->
  same_listing r r' ∧ confirm_one s r' = Normal r'.
Proof.
  unfold confirm_one.
  destruct r as [o|d]; cbn [attr_image_name]; [|done].
  destruct (ss_user_selections s) as [U|]; [|done].
  destruct (U !! image_name o) as [idx|] eqn:HU.
  2: { intros [= <-]. cbn [attr_image_name]. rewrite HU. by split. }
  destruct (ss_template_choices s) as [C|]; [|done].
  destruct (C !! image_name o) as [ts|] eqn:HC; [|done].
  destruct ((0 <=? idx) && (idx <? Z.of_nat (length ts))) eqn:Hg.
  2: { intros [= <-]. cbn [attr_image_name]. rewrite HU, HC, Hg. by split. }
  destruct (ts !! Z.to_nat idx) as [chosen|] eqn:Hts.
  2: { intros [= <-]. cbn [attr_image_name]. rewrite HU, HC, Hg, Hts. by split. }
  intros [= <-]. cbn [attr_image_name set_user_selected_template image_name].
  rewrite HU, HC, Hg, Hts. by split.
Qed.

Lemma confirm_loop_again s todo :
  ∀ done_ o R',
  confirm_loop s done_ todo = (o, R') ->
  ∃ X, R' = done_ ++ X ∧ Forall2 same_listing todo X
       ∧ ∀ done', confirm_loop s done' X = (o, done' ++ X).
Proof.
  induction todo as [|r rest IH]; intros done_ o R'.
  - intros [= <- <-]. exists []. rewrite app_nil_r. split; [done|].
    split; [constructor|]. intros done'. by rewrite app_nil_r.
  - cbn [confirm_loop]. destruct (confirm_one s r) as [r'|e] eqn:E.
    + intros H. destruct (IH _ _ _ H) as (X & -> & HX & Hagain).
      destruct (confirm_one_again s r r' E) as [Hl Hr'].
      exists (r' :: X). rewrite <- app_assoc. split; [done|].
      split; [by constructor|]. intros done'. cbn [confirm_loop].
      rewrite Hr', Hagain. by rewrite <- app_assoc.
    + intros [= <- <-]. exists (r :: rest). split; [done|]. split.
      * apply Forall2_same_length_lookup_2; [done|].
        intros i x y Hx Hy. rewrite Hx in Hy. injection Hy as <-.
        apply same_listing_refl.
      * intros done'. cbn [confirm_loop]. by rewrite E.
Qed.

(** C8. Running the selection screen with the confirmation a second time,
    with every radio group left as the first run stored it, ends the same
    way as the first run and changes nothing: the result objects, and with
    them every [user_selected_template], and the session are what the
    first run left. *)
Theorem confirming_twice_is_confirming_once :
  ∀ (ui : interaction) (sc : screen),
  display_template_choices (untouched ui) (snd (display_template_choices ui sc))
    = display_template_choices ui sc.
Proof.
  intros ui [R s].
  destruct R as [|r0 R'] eqn:HR; [reflexivity|]. rewrite <- HR.
  assert (R ≠ []) as Hne by (by subst R). clear HR.
  rewrite (display_template_choices_run ui R s Hne). unfold display_outcome.
  destruct (choose_all_pure ui R _ _) as [[[]|e] [C1 U1]] eqn:Hloop.
  - apply choose_all_pure_again in Hloop as Hagain.
    destruct (confirm_pressed ui) eqn:Hpress.
    + destruct (confirm_loop _ [] R) as [oc R1] eqn:Hconf.
      destruct (confirm_loop_again _ _ _ _ _ Hconf) as (X & HX & Hlist & Hconf2).
      simpl in HX. subst X.
      assert (R1 ≠ []) as Hne1.
      { intros ->. apply Forall2_length in Hlist. by destruct R. }
      destruct oc as [[]|e]; cbn [snd].
      * rewrite (display_template_choices_run _ R1 _ Hne1). unfold display_outcome.
        cbn [ss_template_choices ss_user_selections set_results
             set_confirm_template_selections with_maps set_user_selections
             set_template_choices ensure_maps default from_option id].
        rewrite <- (choose_all_pure_same_listing (untouched ui) R R1 Hlist).
        rewrite Hagain. cbn [confirm_pressed untouched]. rewrite Hpress.
        erewrite confirm_loop_session; [rewrite (Hconf2 [])| |]; reflexivity.
      * rewrite (display_template_choices_run _ R1 _ Hne1). unfold display_outcome.
        cbn [ss_template_choices ss_user_selections set_results
             set_confirm_template_selections with_maps set_user_selections
             set_template_choices ensure_maps default from_option id].
        rewrite <- (choose_all_pure_same_listing (untouched ui) R R1 Hlist).
        rewrite Hagain. cbn [confirm_pressed untouched]. rewrite Hpress.
        erewrite confirm_loop_session; [rewrite (Hconf2 [])| |]; reflexivity.
    + cbn [snd]. rewrite (display_template_choices_run _ R _ Hne).
      unfold display_outcome.
      cbn [ss_template_choices ss_user_selections with_maps set_user_selections
           set_template_choices ensure_maps default from_option id].
      rewrite Hagain. cbn [confirm_pressed untouched]. by rewrite Hpress.
  - apply choose_all_pure_again in Hloop as Hagain.
    cbn [snd]. rewrite (display_template_choices_run _ R _ Hne).
    unfold display_outcome.
    cbn [ss_template_choices ss_user_selections with_maps set_user_selections
         set_template_choices ensure_maps default from_option id].
    by rewrite Hagain.
Qed.

(** ** A choice out of range *)

Lemma py_index_raised {A} (l : list A) i e :
  py_index l i = Raised e -> e = IndexError.
Proof.
  unfold py_index. destruct (_ && _); [|by intros [= <-]].
  destruct (l !! _); [done|by intros [= <-]].
Qed.

Lemma py_index_normal {A} (l : list A) i x :
  py_index l i = Normal x -> x ∈ l.
Proof.
  unfold py_index. destruct (_ && _); [|done].
  destruct (l !! _) eqn:E; [|done]. intros [= <-].
  by eapply list_elem_of_lookup_2.
Qed.

Lemma py_index_beyond {A} (l : list A) i :
  Z.of_nat (length l) ≤ i -> py_index l i = Raised IndexError.
Proof.
  intros H. unfold py_index.
  destruct (i <? 0) eqn:E1; [lia|].
  destruct ((0 <=? i) && (i <? Z.of_nat (length l))) eqn:E2; [lia|done].
Qed.

Lemma template_titles_present ts :
  Forall is_Some ts -> ∀ j, ∃ titles, template_titles j ts = Normal titles.
Proof.
  induction 1 as [|t ts [t' ->] _ IH]; intros j; [by eexists|].
  cbn [template_titles attr_of_template]. destruct (IH (S j)) as [titles ->].
  by eexists.
Qed.

Lemma listed_templates_present o :
  is_Some (selected_template o) -> Forall is_Some (listed_templates o).
Proof.
  intros H. unfold listed_templates. constructor; [done|].
  apply Forall_fmap, Forall_forall. intros t _. simpl. eauto.
Qed.

Lemma length_listed_templates o :
  Z.of_nat (length (listed_templates o))
    = Z.of_nat (length (alternative_templates o)) + 1.
Proof. unfold listed_templates. simpl. rewrite length_fmap. lia. Qed.

(** The turn for an object that has its AI template and for which the
    dict of choices holds nothing, or holds the object's own list: it goes
    through, or it raises [IndexError]; either way the radio index is
    stored, and the dict of choices holds the object's list. *)
Lemma choose_pure_listed_object ui o C U :
  is_Some (selected_template o) ->
  (∀ ts, C !! image_name o = Some ts -> ts = listed_templates o) ->
  let idx := st_radio ui (image_name o) (default 0 (U !! image_name o)) in
  choose_pure ui (RObj o) C U =
    (match py_index (listed_templates o) idx with
     | Normal _ => Normal tt
     | Raised _ => Raised IndexError
     end,
     (<[image_name o := listed_templates o]> C, <[image_name o := idx]> U)).
Proof.
  intros Hsel HC idx. unfold choose_pure.
  assert ((if bool_decide (is_Some (C !! image_name o)) then C
           else <[image_name o := listed_templates o]> C)
          = <[image_name o := listed_templates o]> C) as ->.
  { destruct (C !! image_name o) as [ts|] eqn:E.
    - rewrite bool_decide_eq_true_2 by eauto.
      rewrite (HC ts eq_refl) in E. by rewrite insert_id.
    - rewrite bool_decide_eq_false_2; [done|]. by intros [? ?]. }
  rewrite lookup_insert_eq.
  destruct (template_titles_present _ (listed_templates_present o Hsel) 0%nat)
    as [titles ->].
  fold idx. destruct (py_index (listed_templates o) idx) as [t|e] eqn:E.
  - apply py_index_normal in E.
    pose proof (listed_templates_present o Hsel) as Hall.
    rewrite Forall_forall in Hall. destruct (Hall t E) as [t' ->]. reflexivity.
  - by rewrite (py_index_raised _ _ _ E).
Qed.







(** The button branch of [display_template_choices] is that block. *)
Lemma display_template_choices_confirm_block ui R s C1 U1 :
  choose_all_pure ui R (default ∅ (ss_template_choices s))
    (default ∅ (ss_user_selections s)) = (Normal tt, (C1, U1)) ->
  R ≠ [] -> confirm_pressed ui = true ->
  display_template_choices ui {| results_of := R; screen_session := s |}
  = confirm_block {| results_of := R;
                     screen_session := with_maps C1 U1 (ensure_maps s) |}.
Proof.
  intros Hchoose HR Hpress.
  rewrite (display_template_choices_run ui R s HR). unfold display_outcome.
  rewrite Hchoose, Hpress. unfold confirm_block. unfold bind at 1.
  unfold confirm_all at 1. cbn [results_of screen_session].
  by destruct (confirm_loop _ [] R) as [[[]|e] R1].
Qed.

(** ** The result views and the user's choice *)

(** X2. The detail view shows the effective template: the user's choice
    under its own heading when there is one, the AI choice otherwise. *)
Lemma detail_view_shows_effective_template i o t pg :
  effective_template o = Some t ->
  display_one_detail i (RObj o) pg =
    (Normal tt,
     pg ++ [Expander ("画像 " +:+ pretty (i + 1)%nat +:+ ": " +:+ image_name o)
                     (bool_decide (i = 0%nat));
            Warning "画像データがありません";
            Write (match user_selected_template o with
                   | Some _ => "### 選択されたテンプレート"
                   | None => "### AIが選択したテンプレート"
                   end);
            Write ("**カテゴリ:** " +:+ category t);
            Write ("**タイトル:** " +:+ title t);
            Write ("**メニュー:** " +:+ menu t);
            Write ("**コメント:** " +:+ comment t);
            Write ("**ハッシュタグ:** " +:+ hashtag t)]).
Proof.
  unfold effective_template, display_one_detail, write_template, bind, emit,
    modify, lift_outcome, ret.
  cbn [attr_image_name attr_user_selected_template attr_selected_template].
  destruct (user_selected_template o) as [u|].
  - intros [= ->]. by rewrite <- !app_assoc.
  - intros ->. by rewrite <- !app_assoc.
Qed.

(** X1. For results that are all objects, the summary table has one row
    per result, in order, built from [image_name] and [selected_template]
    alone, with the placeholders where there is no template; the rows do
    not depend on [user_selected_template], and nothing is added to the
    page. *)
Lemma summary_rows_use_selected_template (objs : list ProcessResult) pg :
  convert_results_to_dataframe (RObj <$> objs) pg =
    (Normal
       ((fun o =>
           {| col_image := image_name o;
              col_category := from_option category "未選択" (selected_template o);
              col_style := from_option title "未選択" (selected_template o);
              col_menu := from_option menu "未設定" (selected_template o);
              col_comment := from_option comment "未設定" (selected_template o);
              col_hashtag := from_option hashtag "なし" (selected_template o) |})
        <$> objs),
     pg).
Proof.
  unfold convert_results_to_dataframe, try_except, lift_outcome.
  assert (rows_of_results (RObj <$> objs) =
          Normal ((fun o =>
           {| col_image := image_name o;
              col_category := from_option category "未選択" (selected_template o);
              col_style := from_option title "未選択" (selected_template o);
              col_menu := from_option menu "未設定" (selected_template o);
              col_comment := from_option comment "未設定" (selected_template o);
              col_hashtag := from_option hashtag "なし" (selected_template o) |})
            <$> objs)) as ->; [|done].
  induction objs as [|o objs IH]; [done|].
  rewrite !fmap_cons. cbn [rows_of_results]. rewrite IH. reflexivity.
Qed.

(** C3, at an input where the code departs from it. For the first sample
    image, after the user has confirmed the second template of its list
    (the wave bob) over the AI choice (the natural bob), the effective
    template is the user's and the detail view writes the user's template,
    but the row of the summary table carries the AI template. *)
Theorem summary_table_ignores_user_selection :
  effective_template confirmed_result = Some wave_template
  ∧ selected_template confirmed_result = Some bob_template
  ∧ display_image_details [RObj confirmed_result] [] =
      (Normal tt,
       [Subheader "画像ごとの詳細";
        Expander "画像 1: styleimg_1.jpg" true;
        Warning "画像データがありません";
        Write "### 選択されたテンプレート";
        Write "**カテゴリ:** ミディアムボブ";
        Write "**タイトル:** 大人かわいいウェーブボブ";
        Write "**メニュー:** カット+パーマ";
        Write "**コメント:** ゆるふわパーマ";
        Write "**ハッシュタグ:** #ウェーブ"])
  ∧ convert_results_to_dataframe [RObj confirmed_result] [] =
      (Normal
         [{| col_image := "styleimg_1.jpg";
             col_category := "ミディアムボブ";
             col_style := "ふんわりナチュラルミディアムボブ";
             col_menu := "カット+カラー";
             col_comment := "柔らかな質感";
             col_hashtag := "#ナチュラル" |}],
       [])
  ∧ title bob_template = "ふんわりナチュラルミディアムボブ"
  ∧ title wave_template = "大人かわいいウェーブボブ".
Proof. repeat split; vm_compute; reflexivity. Qed.

(** ** The upload handler *)

Lemma check_image_run env temp_path safe_filename content l :
  ∃ l', check_image env temp_path safe_filename content l =
    (Normal (is_normal (pil_verify env temp_path content)
             && match pil_size env temp_path content with
                | Normal (width, height) => (0 <? width) && (0 <? height)
                | Raised _ => false
                end), l').
Proof.
  unfold check_image, try_except, bind, lift_outcome, logging, modify, ret.
  destruct (pil_verify env temp_path content) as [[]|e]; [|by eexists].
  destruct (pil_size env temp_path content) as [[width height]|e]; [|by eexists].
  cbn [fst snd is_normal andb].
  destruct (width <=? 0) eqn:Hw; destruct (height <=? 0) eqn:Hh; cbn [orb];
    eexists; f_equal; f_equal; symmetry;
    rewrite ?andb_true_iff, ?andb_false_iff, ?Z.ltb_lt, ?Z.ltb_ge; lia.
Qed.

Lemma upload_one_run env i file image_paths l :
  ∃ l', upload_one env i file image_paths l =
    (Normal (image_paths ++ upload_slot env i file), l').
Proof.
  unfold upload_one, upload_slot, kept, try_except, bind, lift_outcome.
  destruct (bool_decide (lower (path_suffix (file_name file)) ∈ accepted_extensions));
    cbn [negb andb].
  2: { rewrite app_nil_r. by eexists. }
  destruct (save_upload env _ (file_buffer file)) as [[]|e]; cbn [is_normal andb].
  2: { rewrite app_nil_r. by eexists. }
  destruct (check_image_run env
              (temp_path_of env i (lower (path_suffix (file_name file))))
              ("styleimg_" +:+ pretty (i + 1)%nat
               +:+ lower (path_suffix (file_name file)))
              (file_buffer file) l) as [l' ->].
  destruct (is_normal (pil_verify env _ (file_buffer file)) && _).
  - by eexists.
  - rewrite app_nil_r. by eexists.
Qed.

Lemma upload_loop_run env uploaded_files :
  ∀ i0 image_paths l,
  ∃ l', upload_loop env i0 uploaded_files image_paths l =
    (Normal (image_paths ++ upload_slots env i0 uploaded_files), l').
Proof.
  induction uploaded_files as [|file rest IH]; intros i0 image_paths l.
  - simpl. rewrite app_nil_r. by eexists.
  - cbn [upload_loop upload_slots]. unfold bind.
    destruct (upload_one_run env i0 file image_paths l) as [l1 ->].
    destruct (IH (S i0) (image_paths ++ upload_slot env i0 file) l1) as [l2 ->].
    rewrite <- app_assoc. by eexists.
Qed.

Lemma upload_slots_app env before after :
  ∀ i0,
  upload_slots env i0 (before ++ after) =
    upload_slots env i0 before ++ upload_slots env (i0 + length before) after.
Proof.
  induction before as [|file before IH]; intros i0; simpl.
  - by rewrite Nat.add_0_r.
  - rewrite IH, <- app_assoc. do 3 f_equal. lia.
Qed.

Lemma kept_true env i file :
  kept env i file = true ->
  let file_ext := lower (path_suffix (file_name file)) in
  let temp_path := temp_path_of env i file_ext in
  file_ext ∈ accepted_extensions
  ∧ save_upload env temp_path (file_buffer file) = Normal tt
  ∧ pil_verify env temp_path (file_buffer file) = Normal tt
  ∧ ∃ width height,
      pil_size env temp_path (file_buffer file) = Normal (width, height)
      ∧ 0 < width ∧ 0 < height.
Proof.
  unfold kept. intros H.
  apply andb_true_iff in H as [H Hsize]. apply andb_true_iff in H as [H Hver].
  apply andb_true_iff in H as [Hext Hsave]. apply bool_decide_eq_true_1 in Hext.
  cbv zeta. split; [done|].
  destruct (save_upload env _ _) as [[]|]; [|done]. split; [done|].
  destruct (pil_verify env _ _) as [[]|]; [|done]. split; [done|].
  destruct (pil_size env _ _) as [[width height]|]; [|done].
  apply andb_true_iff in Hsize as [Hw Hh].
  apply Z.ltb_lt in Hw. apply Z.ltb_lt in Hh. by exists width, height.
Qed.

Lemma upload_slots_elem env uploaded_files :
  ∀ i0 p, p ∈ upload_slots env i0 uploaded_files ->
  ∃ (i : nat) file, uploaded_files !! i = Some file
    ∧ kept env (i0 + i) file = true
    ∧ p = temp_path_of env (i0 + i) (lower (path_suffix (file_name file))).
Proof.
  induction uploaded_files as [|file rest IH]; intros i0 p Hp; simpl in Hp.
  - by apply not_elem_of_nil in Hp.
  - apply elem_of_app in Hp as [Hp|Hp].
    + unfold upload_slot in Hp. destruct (kept env i0 file) eqn:E.
      * apply list_elem_of_singleton in Hp as ->. exists 0%nat, file.
        rewrite Nat.add_0_r. by split.
      * by apply not_elem_of_nil in Hp.
    + destruct (IH (S i0) p Hp) as (i & f & Hi & Hk & ->).
      exists (S i), f. replace (i0 + S i)%nat with (S i0 + i)%nat by lia. by split.
Qed.

(** C10. [handle_image_upload] returns normally for every list of uploads
    and every behaviour of the file system and of the image library. An
    empty list gives the empty list, and so does a failure to make the
    temporary directory. Otherwise the returned list is made, in upload
    order, of what each upload contributes by itself: its path when it is
    kept, nothing when it is not, so an upload that is skipped leaves the
    paths of the others as they are. Every returned path belongs to an
    upload whose lowered extension is .jpg, .jpeg or .png, that was written
    to that path, and whose written file passed [verify] and has positive
    width and height. *)
Theorem handle_image_upload_keeps_valid_images :
  ∀ (env : upload_environment) (uploaded_files : list UploadedFile) (l : log),
  ∃ image_paths l',
    handle_image_upload env uploaded_files l = (Normal image_paths, l')
    ∧ (uploaded_files = [] -> image_paths = [])
    ∧ (∀ e, make_temp_dir env = Raised e -> image_paths = [])
    ∧ (make_temp_dir env = Normal tt ->
       image_paths = upload_slots env 0 uploaded_files
       ∧ ∀ before file after,
           uploaded_files = before ++ file :: after ->
           kept env (length before) file = false ->
           image_paths = upload_slots env 0 before
                         ++ upload_slots env (S (length before)) after)
    ∧ (∀ p, p ∈ image_paths ->
       ∃ (i : nat) file width height,
         uploaded_files !! i = Some file
         ∧ lower (path_suffix (file_name file)) ∈ accepted_extensions
         ∧ p = temp_path_of env i (lower (path_suffix (file_name file)))
         ∧ save_upload env p (file_buffer file) = Normal tt
         ∧ pil_verify env p (file_buffer file) = Normal tt
         ∧ pil_size env p (file_buffer file) = Normal (width, height)
         ∧ 0 < width ∧ 0 < height).
Proof.
  intros env uploaded_files l.
  destruct uploaded_files as [|file0 rest] eqn:Hfiles.
  { exists [], l. split; [reflexivity|]. split; [done|]. split; [done|].
    split.
    - intros _. split; [done|]. intros before file after H.
      by destruct before.
    - intros p Hp. by apply not_elem_of_nil in Hp. }
  rewrite <- Hfiles.
  assert (handle_image_upload env uploaded_files l =
          try_except
            (do_ lift_outcome (make_temp_dir env);
             do_ try_except
                   (do_ lift_outcome (clean_temp_dir env);
                    logging LogInfo "前回の一時ファイルをクリーンアップしました")
                   (fun e =>
                      logging LogWarning
                        ("一時ファイルのクリーンアップ中にエラー: " +:+ exn_str e));
             upload_loop env 0 uploaded_files [])
            (fun e =>
               do_ logging LogError
                     ("画像のアップロード全体でエラーが発生: " +:+ exn_str e);
               ret []) l) as -> by (by subst uploaded_files).
  clear Hfiles file0 rest.
  unfold try_except at 1. unfold bind at 1. unfold lift_outcome at 1.
  destruct (make_temp_dir env) as [[]|e0].
  - unfold bind at 1.
    assert (∃ l1, try_except
              (do_ lift_outcome (clean_temp_dir env);
               logging LogInfo "前回の一時ファイルをクリーンアップしました")
              (fun e =>
                 logging LogWarning
                   ("一時ファイルのクリーンアップ中にエラー: " +:+ exn_str e)) l
            = (Normal tt, l1)) as [l1 ->].
    { unfold try_except, bind, lift_outcome, logging, modify.
      destruct (clean_temp_dir env) as [[]|e]; by eexists. }
    destruct (upload_loop_run env uploaded_files 0%nat [] l1) as [l2 ->].
    cbn [app]. eexists _, _. split; [reflexivity|].
    split; [by intros ->|]. split; [done|]. split.
    + intros _. split; [done|]. intros before file after -> Hskip.
      rewrite upload_slots_app. cbn [upload_slots]. unfold upload_slot.
      rewrite Nat.add_0_l, Hskip. reflexivity.
    + intros p Hp.
      destruct (upload_slots_elem env uploaded_files 0%nat p Hp)
        as (i & file & Hi & Hk & ->).
      rewrite Nat.add_0_l in *.
      destruct (kept_true env i file Hk) as (Hext & Hsave & Hver & w & h & Hsz & Hw & Hh).
      exists i, file, w, h. by repeat split.
  - unfold bind, logging, modify, ret. eexists _, _. split; [reflexivity|].
    split; [done|]. split; [done|]. split; [done|].
    intros p Hp. by apply not_elem_of_nil in Hp.
Qed.

(** Four uploads: a JPEG, a text file, a PNG that does not decode, and a
    second JPEG. The first and the fourth come back, under the names made
    from their positions. *)
Example handle_image_upload_mixed :
  fst (handle_image_upload working_storage mixed_uploads []) =
    Normal ["temp/hairstyle_analyzer/styleimg_1.jpg";
            "temp/hairstyle_analyzer/styleimg_4.jpeg"].
Proof. vm_compute. reflexivity. Qed.

(** ** Further properties of the result views *)

Lemma display_one_detail_object i o pg :
  ∃ pg', display_one_detail i (RObj o) pg = (Normal tt, pg').
Proof.
  unfold display_one_detail, write_template, bind, emit, modify, lift_outcome, ret.
  cbn [attr_image_name attr_user_selected_template attr_selected_template].
  destruct (user_selected_template o); [by eexists|].
  destruct (selected_template o); by eexists.
Qed.

Lemma detail_loop_objects_then_dict (objs : list ProcessResult) d rest :
  ∀ i0 pg,
  ∃ pg',
    for_enumerate i0 (RObj <$> objs) display_one_detail pg = (Normal tt, pg')
    ∧ for_enumerate i0 ((RObj <$> objs) ++ RDict d :: rest) display_one_detail pg
      = (Raised (AttributeError "image_name"), pg').
Proof.
  induction objs as [|o objs IH]; intros i0 pg.
  - exists pg. split; reflexivity.
  - rewrite fmap_cons. cbn [app for_enumerate]. unfold bind.
    destruct (display_one_detail_object i0 o pg) as [pg1 ->].
    apply IH.
Qed.

(** X4. A result that is a dict aborts the detail view: the details of
    the objects before it are drawn as they are without it, then
    [AttributeError] is raised where the dict's [image_name] is read, and
    nothing of the results after it is drawn. *)
Theorem detail_view_aborts_on_dict :
  ∀ (objs : list ProcessResult) (d : gmap string dval) (rest : list pyresult)
    (pg : page),
  ∃ pg',
    display_image_details (RObj <$> objs) pg = (Normal tt, pg')
    ∧ display_image_details ((RObj <$> objs) ++ RDict d :: rest) pg
      = (Raised (AttributeError "image_name"), pg').
Proof.
  intros objs d rest pg. unfold display_image_details, bind, emit, modify.
  apply detail_loop_objects_then_dict.
Qed.

Lemma rows_of_results_dict (results : list pyresult) d :
  RDict d ∈ results -> ∃ e, rows_of_results results = Raised e.
Proof.
  induction results as [|r results IH]; intros H.
  - by apply not_elem_of_nil in H.
  - apply elem_of_cons in H as [<-|H].
    + by eexists.
    + cbn [rows_of_results]. destruct (row_of_result r); [|by eexists].
      destruct (IH H) as [e ->]. by eexists.
Qed.

(** X3. The summary table is all or nothing: when one of the results is a
    dict, [convert_results_to_dataframe] still returns normally, but with
    an empty table and one error box added to the page, whatever the other
    results are; [display_summary_table] then shows its warning instead of
    a table. *)
Theorem summary_table_empty_on_dict :
  ∀ (results : list pyresult) (d : gmap string dval) (pg : page),
  RDict d ∈ results ->
  ∃ text,
    convert_results_to_dataframe results pg = (Normal [], pg ++ [ErrorBox text])
    ∧ display_summary_table [] (pg ++ [ErrorBox text])
      = (Normal tt, pg ++ [ErrorBox text; Warning "表示するデータがありません"]).
Proof.
  intros results d pg H.
  destruct (rows_of_results_dict results d H) as [e He].
  unfold convert_results_to_dataframe, try_except, lift_outcome, bind, emit,
    modify, ret.
  rewrite He. eexists. split; [reflexivity|].
  unfold display_summary_table, emit, modify. by rewrite <- app_assoc.
Qed.

Lemma summary_table_empty_on_dict_witness :
  ∃ text,
    convert_results_to_dataframe
      [RObj confirmed_result; RDict {[ "image_name" := DStr "a.jpg" ]}] []
      = (Normal [], [] ++ [ErrorBox text])
    ∧ display_summary_table [] ([] ++ [ErrorBox text])
      = (Normal tt, [] ++ [ErrorBox text; Warning "表示するデータがありません"]).
Proof.
  apply (summary_table_empty_on_dict
           [RObj confirmed_result; RDict {[ "image_name" := DStr "a.jpg" ]}]
           {[ "image_name" := DStr "a.jpg" ]} []).
  apply elem_of_cons. right. apply elem_of_cons. by left.
Defined.

Lemma detail_view_shows_effective_template_witness :
  display_one_detail 0 (RObj confirmed_result) [] =
    (Normal tt,
     [] ++ [Expander ("画像 " +:+ pretty (0 + 1)%nat +:+ ": "
                      +:+ image_name confirmed_result)
                     (bool_decide (0%nat = 0%nat));
            Warning "画像データがありません";
            Write (match user_selected_template confirmed_result with
                   | Some _ => "### 選択されたテンプレート"
                   | None => "### AIが選択したテンプレート"
                   end);
            Write ("**カテゴリ:** " +:+ category wave_template);
            Write ("**タイトル:** " +:+ title wave_template);
            Write ("**メニュー:** " +:+ menu wave_template);
            Write ("**コメント:** " +:+ comment wave_template);
            Write ("**ハッシュタグ:** " +:+ hashtag wave_template)]).
Proof.
  apply (detail_view_shows_effective_template 0 confirmed_result wave_template []).
  reflexivity.
Defined.

(** ** Further properties of the selection screen *)

Lemma py_index_in_range {A} (l : list A) i :
  0 ≤ i -> i < Z.of_nat (length l) ->
  ∃ x, l !! Z.to_nat i = Some x ∧ py_index l i = Normal x.
Proof.
  intros H0 H1. unfold py_index.
  destruct (i <? 0) eqn:E; [lia|].
  destruct ((0 <=? i) && (i <? Z.of_nat (length l))) eqn:E2; [|lia].
  destruct (lookup_lt_is_Some_2 l (Z.to_nat i)) as [x Hx]; [lia|].
  exists x. by rewrite Hx.
Qed.

(** The turn for an object whose shown templates all exist. *)
Lemma choose_pure_shown_object ui o C U :
  let shown := default (listed_templates o) (C !! image_name o) in
  let idx := st_radio ui (image_name o) (default 0 (U !! image_name o)) in
  Forall is_Some shown ->
  choose_pure ui (RObj o) C U =
    (match py_index shown idx with
     | Normal _ => Normal tt
     | Raised _ => Raised IndexError
     end,
     (<[image_name o := shown]> C, <[image_name o := idx]> U)).
Proof.
  intros shown idx Hall. unfold choose_pure.
  assert ((if bool_decide (is_Some (C !! image_name o)) then C
           else <[image_name o := listed_templates o]> C)
          = <[image_name o := shown]> C) as ->.
  { subst shown. destruct (C !! image_name o) as [ts|] eqn:E.
    - rewrite bool_decide_eq_true_2 by eauto. simpl. by rewrite insert_id.
    - rewrite bool_decide_eq_false_2; [done|]. by intros [? ?]. }
  rewrite lookup_insert_eq.
  destruct (template_titles_present _ Hall 0%nat) as [titles ->].
  fold idx. destruct (py_index shown idx) as [t|e] eqn:E.
  - apply py_index_normal in E. rewrite Forall_forall in Hall.
    destruct (Hall t E) as [t' ->]. reflexivity.
  - by rewrite (py_index_raised _ _ _ E).
Qed.

Lemma choose_all_pure_valid ui (objs : list ProcessResult) :
  ∀ C U,
  NoDup (image_name <$> objs) ->
  Forall (fun o =>
            Forall is_Some (default (listed_templates o) (C !! image_name o))
            ∧ 0 ≤ st_radio ui (image_name o) (default 0 (U !! image_name o))
            ∧ st_radio ui (image_name o) (default 0 (U !! image_name o))
              < Z.of_nat (length (default (listed_templates o) (C !! image_name o))))
         objs ->
  ∃ C1 U1,
    choose_all_pure ui (RObj <$> objs) C U = (Normal tt, (C1, U1))
    ∧ Forall (fun o =>
                C1 !! image_name o
                  = Some (default (listed_templates o) (C !! image_name o))
                ∧ U1 !! image_name o
                  = Some (st_radio ui (image_name o) (default 0 (U !! image_name o))))
             objs.
Proof.
  induction objs as [|o0 rest IH]; intros C U Hdup Hok.
  - exists C, U. by split.
  - apply Forall_cons in Hok as [(Hall0 & Hlo & Hhi) Hok].
    rewrite fmap_cons in Hdup. apply NoDup_cons in Hdup as [Hnotin Hdup].
    rewrite fmap_cons. cbn [choose_all_pure].
    rewrite (choose_pure_shown_object ui o0 C U Hall0).
    destruct (py_index_in_range _ _ Hlo Hhi) as (t & _ & ->).
    set (C' := <[image_name o0 := _]> C). set (U' := <[image_name o0 := _]> U).
    assert (∀ o, o ∈ rest -> C' !! image_name o = C !! image_name o
                             ∧ U' !! image_name o = U !! image_name o) as Hsame.
    { intros o Ho. assert (image_name o0 ≠ image_name o).
      { intros Heq. apply Hnotin. rewrite Heq. apply list_elem_of_fmap. eauto. }
      subst C' U'. by rewrite !lookup_insert_ne. }
    destruct (IH C' U' Hdup) as (C1 & U1 & Hrun & Hfin).
    { apply Forall_forall. intros o Ho. rewrite Forall_forall in Hok.
      destruct (Hsame o Ho) as [-> ->]. by apply Hok. }
    exists C1, U1. split; [done|]. constructor.
    + eapply (choose_all_pure_keeps ui (RObj <$> rest)); [| | |exact Hrun].
      * subst C'. by rewrite lookup_insert_eq.
      * subst U'. by rewrite lookup_insert_eq.
      * unfold st_radio. destruct (radio_pick ui (image_name o0)); simpl; auto.
    + apply Forall_forall. intros o Ho. rewrite Forall_forall in Hfin.
      destruct (Hsame o Ho) as [<- <-]. by apply Hfin.
Qed.

Lemma confirm_loop_valid s C1 U1 (shown : ProcessResult -> list (option Template))
    (idx : ProcessResult -> Z) (objs : list ProcessResult) :
  ss_template_choices s = Some C1 -> ss_user_selections s = Some U1 ->
  ∀ done_,
  Forall (fun o => C1 !! image_name o = Some (shown o)
                   ∧ U1 !! image_name o = Some (idx o)
                   ∧ 0 ≤ idx o ∧ idx o < Z.of_nat (length (shown o))) objs ->
  confirm_loop s done_ (RObj <$> objs) =
    (Normal tt,
     done_ ++ (RObj <$> ((fun o =>
                            set_user_selected_template
                              (default None (shown o !! Z.to_nat (idx o))) o)
                         <$> objs))).
Proof.
  intros HC HU. induction objs as [|o rest IH]; intros done_ Hok.
  - simpl. by rewrite app_nil_r.
  - apply Forall_cons in Hok as [(Hc & Hu & Hlo & Hhi) Hok].
    rewrite !fmap_cons. cbn [confirm_loop].
    assert (confirm_one s (RObj o) =
            Normal (RObj (set_user_selected_template
                            (default None (shown o !! Z.to_nat (idx o))) o))) as ->.
    { unfold confirm_one. cbn [attr_image_name]. rewrite HU, Hu, HC, Hc.
      destruct ((0 <=? idx o) && (idx o <? Z.of_nat (length (shown o)))) eqn:E; [|lia].
      destruct (lookup_lt_is_Some_2 (shown o) (Z.to_nat (idx o))) as [x ->]; [lia|].
      reflexivity. }
    rewrite (IH _ Hok). by rewrite <- app_assoc.
Qed.

(** X5. Confirming valid choices. Take result objects with distinct image
    names, every one with a radio index inside the list shown for it and
    with every template of that list present. A run with the button
    pressed returns normally; each object gets as [user_selected_template]
    the template at its radio index in its shown list, which is then its
    effective template; nothing else of an object changes; the confirmed
    objects are stored as the results, the confirmation flag is set, and
    the session remembers each index and each shown list. The shown list
    is the one stored under the image's name by an earlier run when there
    is one, and the object's AI template followed by its alternatives
    otherwise. *)
Theorem valid_choices_are_confirmed :
  ∀ (ui : interaction) (objs : list ProcessResult) (s : session),
  objs ≠ [] ->
  NoDup (image_name <$> objs) ->
  confirm_pressed ui = true ->
  Forall (fun o => Forall is_Some (shown_templates s o)
                   ∧ 0 ≤ radio_index ui s o
                   ∧ radio_index ui s o < Z.of_nat (length (shown_templates s o)))
         objs ->
  ∃ s',
    display_template_choices ui
      {| results_of := RObj <$> objs; screen_session := s |}
      = (Normal tt,
         {| results_of := RObj <$> (confirmed_choice ui s <$> objs);
            screen_session := s' |})
    ∧ ss_results s' = Some (RObj <$> (confirmed_choice ui s <$> objs))
    ∧ ss_confirm_template_selections s' = Some true
    ∧ Forall (fun o =>
                default ∅ (ss_user_selections s') !! image_name o
                  = Some (radio_index ui s o)
                ∧ default ∅ (ss_template_choices s') !! image_name o
                  = Some (shown_templates s o)) objs
    ∧ Forall (fun o =>
                ∃ t, shown_templates s o !! Z.to_nat (radio_index ui s o)
                       = Some (Some t)
                     ∧ user_selected_template (confirmed_choice ui s o) = Some t
                     ∧ effective_template (confirmed_choice ui s o) = Some t) objs.
Proof.
  intros ui objs s Hne Hdup Hpress Hok.
  assert (RObj <$> objs ≠ []) as Hne' by (by destruct objs).
  rewrite (display_template_choices_run ui _ s Hne'). unfold display_outcome.
  destruct (choose_all_pure_valid ui objs
              (default ∅ (ss_template_choices s)) (default ∅ (ss_user_selections s))
              Hdup Hok) as (C1 & U1 & -> & Hfin).
  rewrite Hpress.
  rewrite (confirm_loop_valid _ C1 U1 (shown_templates s) (radio_index ui s) objs);
    [|reflexivity|reflexivity|].
  2: { apply Forall_forall. intros o Ho. rewrite Forall_forall in Hfin, Hok.
       destruct (Hfin o Ho) as [? ?]. destruct (Hok o Ho) as (_ & ? & ?). by repeat split. }
  cbn [app]. eexists. split; [reflexivity|].
  cbn [ss_results ss_confirm_template_selections ss_user_selections
       ss_template_choices set_results set_confirm_template_selections with_maps
       set_user_selections set_template_choices default from_option id].
  split; [done|]. split; [done|]. split.
  - apply Forall_forall. intros o Ho. rewrite Forall_forall in Hfin.
    destruct (Hfin o Ho) as [? ?]. by split.
  - apply Forall_forall. intros o Ho. rewrite Forall_forall in Hok.
    destruct (Hok o Ho) as (Hall & Hlo & Hhi).
    destruct (lookup_lt_is_Some_2 (shown_templates s o)
                (Z.to_nat (radio_index ui s o))) as [x Hx]; [lia|].
    rewrite Forall_forall in Hall.
    destruct (Hall x (list_elem_of_lookup_2 _ _ _ Hx)) as [t ->].
    exists t. split; [done|]. unfold confirmed_choice, effective_template.
    cbn [user_selected_template set_user_selected_template]. by rewrite Hx.
Qed.

Lemma valid_choices_are_confirmed_witness :
  ∃ s',
    display_template_choices pick_second
      {| results_of := RObj <$> two_objects; screen_session := shown_once |}
      = (Normal tt,
         {| results_of := RObj <$> (confirmed_choice pick_second shown_once <$> two_objects);
            screen_session := s' |})
    ∧ ss_results s'
        = Some (RObj <$> (confirmed_choice pick_second shown_once <$> two_objects))
    ∧ ss_confirm_template_selections s' = Some true
    ∧ Forall (fun o =>
                default ∅ (ss_user_selections s') !! image_name o
                  = Some (radio_index pick_second shown_once o)
                ∧ default ∅ (ss_template_choices s') !! image_name o
                  = Some (shown_templates shown_once o)) two_objects
    ∧ Forall (fun o =>
                ∃ t, shown_templates shown_once o
                       !! Z.to_nat (radio_index pick_second shown_once o)
                       = Some (Some t)
                     ∧ user_selected_template
                         (confirmed_choice pick_second shown_once o) = Some t
                     ∧ effective_template
                         (confirmed_choice pick_second shown_once o) = Some t)
             two_objects.
Proof.
  apply (valid_choices_are_confirmed pick_second two_objects shown_once).
  - discriminate.
  - apply (bool_decide_unpack _). vm_compute. exact I.
  - reflexivity.
  - repeat constructor; try (eexists; reflexivity); vm_compute; congruence.
Defined.

(** The first sample image gets the wave bob, the second keeps the AI
    choice as the user's. *)
Example pick_second_confirms_wave_bob :
  (fun o => title <$> user_selected_template o)
    <$> (confirmed_choice pick_second shown_once <$> two_objects)
  = [Some "大人かわいいウェーブボブ"; Some "ふんわりナチュラルミディアムボブ"].
Proof. vm_compute. reflexivity. Qed.

Lemma same_but_choice_refl r : same_but_choice r r.
Proof. destruct r as [o|d]; [|done]. by destruct o. Qed.

Lemma Forall2_same_but_choice_refl R : Forall2 same_but_choice R R.
Proof. induction R; constructor; [apply same_but_choice_refl|done]. Qed.

Lemma confirm_one_same_but_choice s r r' :
  confirm_one s r = Normal r' -> same_but_choice r r'.
Proof.
  unfold confirm_one.
  destruct r as [o|d]; cbn [attr_image_name]; [|done].
  destruct (ss_user_selections s) as [U|]; [|done].
  destruct (U !! image_name o) as [idx|];
    [|intros [= <-]; apply same_but_choice_refl].
  destruct (ss_template_choices s) as [C|]; [|done].
  destruct (C !! image_name o) as [ts|]; [|done].
  destruct ((0 <=? idx) && (idx <? Z.of_nat (length ts)));
    [|intros [= <-]; apply same_but_choice_refl].
  destruct (ts !! Z.to_nat idx) as [chosen|];
    intros [= <-]; [reflexivity|apply same_but_choice_refl].
Qed.

Lemma confirm_loop_same_but_choice s todo :
  ∀ done_ o R',
  confirm_loop s done_ todo = (o, R') ->
  ∃ X, R' = done_ ++ X ∧ Forall2 same_but_choice todo X.
Proof.
  induction todo as [|r rest IH]; intros done_ o R'.
  - intros [= <- <-]. exists []. rewrite app_nil_r. split; [done|constructor].
  - cbn [confirm_loop]. destruct (confirm_one s r) as [r'|e] eqn:E.
    + intros H. destruct (IH _ _ _ H) as (X & -> & HX).
      exists (r' :: X). rewrite <- app_assoc. split; [done|].
      constructor; [by apply (confirm_one_same_but_choice s)|done].
    + intros [= <- <-]. exists (r :: rest). split; [done|].
      apply Forall2_same_but_choice_refl.
Qed.

Lemma choose_pure_keeps_choice ui result name ts C U o' C' U' :
  C !! name = Some ts ->
  choose_pure ui result C U = (o', (C', U')) ->
  C' !! name = Some ts.
Proof.
  intros HC. unfold choose_pure.
  destruct result as [o|d]; [|by intros [= _ <- <-]].
  set (Cx := if bool_decide _ then C else _).
  assert (Cx !! name = Some ts) as HCx.
  { subst Cx. destruct (bool_decide _) eqn:E; [done|].
    rewrite lookup_insert_ne; [done|]. intros <-.
    apply bool_decide_eq_false_1 in E. apply E. eauto. }
  destruct (Cx !! image_name o) as [ts'|]; [|by intros [= _ <- <-]].
  destruct (template_titles 0 ts'); [|by intros [= _ <- <-]].
  destruct (py_index ts' _) as [t|];
    [destruct (attr_of_template category "category" t)|];
    by intros [= _ <- <-].
Qed.

Lemma choose_all_pure_keeps_choice ui results name ts :
  ∀ C U o' C' U',
  C !! name = Some ts ->
  choose_all_pure ui results C U = (o', (C', U')) ->
  C' !! name = Some ts.
Proof.
  induction results as [|result rest IH]; intros C U o' C' U' HC.
  - by intros [= _ <- <-].
  - cbn [choose_all_pure].
    destruct (choose_pure ui result C U) as [[[]|e] [Ca Ua]] eqn:E.
    + apply IH. by eapply choose_pure_keeps_choice.
    + intros [= _ <- <-]. by eapply choose_pure_keeps_choice.
Qed.

(** X6. Whatever the user does and however the run ends, the selection
    screen leaves the results as many as they were and in the same order,
    changes nothing of a result but its [user_selected_template], and
    touches no session key other than the two selection dicts, the
    confirmation flag and the stored results. *)
Theorem selection_screen_touches_only_choice :
  ∀ (ui : interaction) (sc : screen),
  Forall2 same_but_choice
    (results_of sc) (results_of (snd (display_template_choices ui sc)))
  ∧ same_outside_selection
      (screen_session sc) (screen_session (snd (display_template_choices ui sc))).
Proof.
  intros ui [R s].
  destruct R as [|r0 R'] eqn:HR.
  { split; [constructor|]. by repeat split. }
  rewrite <- HR. assert (R ≠ []) as Hne by (by subst R). clear HR.
  rewrite (display_template_choices_run ui R s Hne). unfold display_outcome.
  destruct (choose_all_pure ui R _ _) as [[[]|e] [C1 U1]].
  - destruct (confirm_pressed ui).
    + destruct (confirm_loop _ [] R) as [oc R1] eqn:Hc.
      destruct (confirm_loop_same_but_choice _ _ _ _ _ Hc) as (X & -> & HX).
      destruct oc as [[]|e]; cbn [snd results_of screen_session app];
        (split; [done|]); by destruct s.
    + cbn [snd results_of screen_session].
      split; [apply Forall2_same_but_choice_refl|]. by destruct s.
  - cbn [snd results_of screen_session].
    split; [apply Forall2_same_but_choice_refl|]. by destruct s.
Qed.

(** X7. A list of templates stored under an image name is never replaced
    or removed by the selection screen: after any run, the name still
    holds the same list, even when the results carry other templates for
    an image of that name. *)
Theorem stored_templates_are_never_replaced :
  ∀ (ui : interaction) (sc : screen) (name : string) (ts : list (option Template)),
  default ∅ (ss_template_choices (screen_session sc)) !! name = Some ts ->
  default ∅ (ss_template_choices
               (screen_session (snd (display_template_choices ui sc)))) !! name
    = Some ts.
Proof.
  intros ui [R s] name ts Hts. cbn [screen_session] in Hts.
  destruct R as [|r0 R'] eqn:HR; [done|].
  rewrite <- HR. assert (R ≠ []) as Hne by (by subst R). clear HR.
  rewrite (display_template_choices_run ui R s Hne). unfold display_outcome.
  destruct (choose_all_pure ui R _ _) as [[[]|e] [C1 U1]] eqn:Hloop;
    pose proof (choose_all_pure_keeps_choice _ _ _ _ _ _ _ _ _ Hts Hloop) as HC1.
  - destruct (confirm_pressed ui).
    + destruct (confirm_loop _ [] R) as [[[]|e] R1]; by cbn.
    + by cbn.
  - by cbn.
Qed.

Lemma stored_templates_are_never_replaced_witness :
  default ∅ (ss_template_choices
               (screen_session
                  (snd (display_template_choices pick_second
                          {| results_of := [RObj confirmed_result];
                             screen_session := shown_once |}))))
    !! "styleimg_1.jpg"
    = Some (listed_templates (sample_result "styleimg_1.jpg")).
Proof.
  apply (stored_templates_are_never_replaced pick_second
           {| results_of := [RObj confirmed_result]; screen_session := shown_once |}
           "styleimg_1.jpg" (listed_templates (sample_result "styleimg_1.jpg"))).
  vm_compute. reflexivity.
Defined.

(** X8. Without the confirmation button the screen only records what is
    shown and picked: the result objects, the stored results and the
    confirmation flag are left exactly as they were, whatever is picked
    and however the run ends. *)
Theorem nothing_is_confirmed_without_the_button :
  ∀ (picks : string -> option Z) (sc : screen),
  let sc' := snd (display_template_choices
                    {| radio_pick := picks; confirm_pressed := false |} sc) in
  results_of sc' = results_of sc
  ∧ ss_results (screen_session sc') = ss_results (screen_session sc)
  ∧ ss_confirm_template_selections (screen_session sc')
    = ss_confirm_template_selections (screen_session sc).
Proof.
  intros picks [R s]. cbv zeta.
  destruct R as [|r0 R'] eqn:HR; [done|].
  rewrite <- HR. assert (R ≠ []) as Hne by (by subst R). clear HR.
  rewrite (display_template_choices_run _ R s Hne). unfold display_outcome.
  destruct (choose_all_pure _ R _ _) as [[[]|e] [C1 U1]];
    cbn [confirm_pressed snd results_of screen_session]; by destruct s.
Qed.

(** ** Further properties of the batch *)

Lemma recreation_run env w :
  try_except
    (do config_manager <- in_session (get_config_manager env);
     do p <- in_session (create_processor env (Some config_manager));
     match p with
     | None => ret None
     | Some p' =>
         do_ in_session (set_session_value (set_processor (Some p')));
         ret (Some p')
     end)
    (fun _ => ret None) w
  = (Normal (recreated_processor env (session_of w)),
     {| session_of := session_after_recreation env (session_of w);
        history := history w |}).
Proof.
  destruct w as [s h].
  unfold recreated_processor, session_after_recreation, recreated_processor,
    config_at_hand.
  unfold try_except, bind, in_session, get_config_manager, create_processor,
    has_session_key, set_session_value, modify, get, ret, raise, lift_outcome,
    try_except, bind.
  cbn [session_of history].
  destruct (ss_config s) as [c|] eqn:Hc.
  - rewrite bool_decide_eq_true_2 by eauto. rewrite Hc. cbn [session_of history].
    destruct (build_processor env c (default true (ss_use_cache s))) as [[p|]|e];
      reflexivity.
  - rewrite bool_decide_eq_false_2 by (intros [? ?]; congruence).
    destruct (load_config env "config/config.yaml") as [c|e];
      cbn [session_of history ss_use_cache set_config]; [|reflexivity].
    destruct (build_processor env c _) as [[p|]|e]; reflexivity.
Qed.

(** X9. When no processor is passed and one can be re-created, the batch
    runs exactly as if that processor had been passed, on the session in
    which it has been stored under [SESSION_PROCESSOR] (and the
    configuration, if it had to be loaded, under [SESSION_CONFIG]). *)
Theorem process_images_recreates_processor :
  ∀ env (image_paths : list string) stylists coupons use_cache w p,
  recreated_processor env (session_of w) = Some p ->
  process_images env None image_paths stylists coupons use_cache w
    = process_images env (Some p) image_paths stylists coupons use_cache
        {| session_of := session_after_recreation env (session_of w);
           history := history w |}
  ∧ ss_processor (session_after_recreation env (session_of w)) = Some (Some p).
Proof.
  intros env image_paths stylists coupons use_cache w p Hp.
  unfold process_images. unfold bind at 1. rewrite recreation_run, Hp.
  split; [reflexivity|]. unfold session_after_recreation. by rewrite Hp.
Qed.

Lemma process_images_recreates_processor_witness :
  process_images working_environment None three_uploads None None false fresh_world
    = process_images working_environment (Some steady_processor) three_uploads
        None None false
        {| session_of := session_after_recreation working_environment
                           (session_of fresh_world);
           history := history fresh_world |}
  ∧ ss_processor (session_after_recreation working_environment
                    (session_of fresh_world)) = Some (Some steady_processor).
Proof.
  apply (process_images_recreates_processor working_environment three_uploads
           None None false fresh_world steady_processor).
  reflexivity.
Defined.

(** X10. When no processor is passed and none can be re-created (the
    configuration cannot be loaded, or the construction fails or gives
    nothing), [process_images] returns the empty list for any list of
    images, without raising; the progress, the stored results and the
    stored processor are what they were, and nothing is recorded. *)
Theorem process_images_without_processor :
  ∀ env (image_paths : list string) stylists coupons use_cache w,
  recreated_processor env (session_of w) = None ->
  ∃ w',
    process_images env None image_paths stylists coupons use_cache w
      = (Normal [], w')
    ∧ ss_progress (session_of w') = ss_progress (session_of w)
    ∧ ss_results (session_of w') = ss_results (session_of w)
    ∧ ss_processor (session_of w') = ss_processor (session_of w)
    ∧ history w' = history w.
Proof.
  intros env image_paths stylists coupons use_cache w Hp.
  unfold process_images. unfold bind at 1. rewrite recreation_run, Hp.
  eexists. split; [reflexivity|]. cbn [session_of history].
  unfold session_after_recreation. rewrite Hp.
  destruct (ss_config (session_of w)); [done|].
  destruct (load_config env "config/config.yaml"); done.
Qed.

Lemma process_images_without_processor_witness :
  ∃ w',
    process_images bare_environment None three_uploads None None false fresh_world
      = (Normal [], w')
    ∧ ss_progress (session_of w') = ss_progress (session_of fresh_world)
    ∧ ss_results (session_of w') = ss_results (session_of fresh_world)
    ∧ ss_processor (session_of w') = ss_processor (session_of fresh_world)
    ∧ history w' = history fresh_world.
Proof.
  apply (process_images_without_processor bare_environment three_uploads
           None None false fresh_world).
  reflexivity.
Defined.

Lemma slot_well_tagged processor stylists coupons use_cache image_path :
  Forall well_tagged (slot processor stylists coupons use_cache image_path).
Proof.
  unfold slot.
  destruct (call_processor processor stylists coupons use_cache image_path)
    as [[r|]|e]; [|constructor|constructor].
  destruct (truthy (Some r)) eqn:Ht; [|constructor].
  constructor; [|constructor].
  destruct r as [o|d]; [done|]. cbn [truthy] in Ht. unfold tag_result.
  apply negb_true_iff, bool_decide_eq_false_1 in Ht.
  destruct (bool_decide (is_Some (d !! "image_name"))) eqn:E.
  - apply bool_decide_eq_true_1 in E. by split.
  - split.
    + rewrite lookup_insert_ne by done. rewrite lookup_insert_eq. eauto.
    + apply insert_non_empty.
Qed.

Lemma flat_map_Forall {A B} (P : B -> Prop) (f : A -> list B) l :
  (∀ x, Forall P (f x)) -> Forall P (flat_map f l).
Proof.
  intros H. induction l as [|x l IH]; simpl; [constructor|].
  apply Forall_app. by split.
Qed.

(** X11. [process_images] never raises, with or without a processor, and
    every dict in the list it returns is non-empty and carries the key
    [image_name]: a dict the processor returned without the key has been
    given the name and the path of its image. *)
Theorem returned_dicts_carry_image_name :
  ∀ env processor (image_paths : list string) stylists coupons use_cache w,
  ∃ results w',
    process_images env processor image_paths stylists coupons use_cache w
      = (Normal results, w')
    ∧ Forall well_tagged results.
Proof.
  assert (∀ env p (image_paths : list string) stylists coupons use_cache w,
            ∃ results w',
              process_images env (Some p) image_paths stylists coupons use_cache w
                = (Normal results, w') ∧ Forall well_tagged results) as Hsome.
  { intros env p image_paths stylists coupons use_cache w.
    destruct image_paths as [|image_path rest] eqn:E.
    - eexists _, _. split; [reflexivity|constructor].
    - rewrite <- E. rewrite process_images_with_processor by (by subst).
      eexists _, _. split; [reflexivity|].
      apply flat_map_Forall. intros x. apply slot_well_tagged. }
  intros env [p|] image_paths stylists coupons use_cache w; [apply Hsome|].
  unfold process_images. unfold bind at 1. rewrite recreation_run.
  destruct (recreated_processor env (session_of w)) as [p|].
  - apply (Hsome env p).
  - eexists _, _. split; [reflexivity|constructor].
Qed.

(** Three images through the processor of the older format: three dicts,
    each with the name of its image. *)
Example dict_results_are_tagged :
  (fun r => match r with RDict d => d !! "image_name" | RObj _ => None end)
    <$> default [] (match fst (process_images bare_environment (Some dict_processor)
                                 three_uploads None None false fresh_world) with
                    | Normal results => Some results
                    | Raised _ => None
                    end)
  = [Some (DStr "styleimg_1.jpg"); Some (DStr "styleimg_2.jpg");
     Some (DStr "styleimg_3.png")].
Proof. vm_compute. reflexivity. Qed.

(** ** Further properties of the progress entry and the configuration *)

(** X12. A progress entry that has been completed stays completed under
    [update_progress]: once a call has reached a positive total, any later
    call stores its own index, total and message, even an index below its
    total, and the entry still says complete. *)
Theorem completed_progress_stays_completed :
  ∀ (current1 total1 current2 total2 : Z) (message1 message2 : string)
    (details1 details2 : option string) (s : session) (p : progress),
  ss_progress s = Some p ->
  0 < total1 -> total1 ≤ current1 ->
  ∃ s' p',
    (do_ update_progress current1 total1 message1 details1;
     update_progress current2 total2 message2 details2) s = (Normal tt, s')
    ∧ ss_progress s' = Some p'
    ∧ complete p' = true
    ∧ current p' = current2 ∧ total p' = total2 ∧ message p' = message2.
Proof.
  intros c1 t1 c2 t2 m1 m2 d1 d2 s p Hp Ht Hc.
  unfold update_progress, has_session_key, bind, get, ret, set_session_value, modify.
  rewrite bool_decide_eq_true_2 by eauto. rewrite Hp.
  cbn [ss_progress set_progress].
  rewrite bool_decide_eq_true_2 by eauto.
  assert ((t1 <=? c1) && (0 <? t1) = true) as ->
    by (apply andb_true_iff; split; [apply Z.leb_le|apply Z.ltb_lt]; lia).
  eexists _, _. split; [reflexivity|]. split; [reflexivity|].
  destruct (str_truthy d1), (str_truthy d2), ((t2 <=? c2) && (0 <? t2)); by cbn.
Qed.

Lemma completed_progress_stays_completed_witness :
  ∃ s' p',
    (do_ update_progress 3 3 "処理完了" None;
     update_progress 0 5 "次のバッチ" None) busy_session = (Normal tt, s')
    ∧ ss_progress s' = Some p'
    ∧ complete p' = true
    ∧ current p' = 0 ∧ total p' = 5 ∧ message p' = "次のバッチ".
Proof.
  apply (completed_progress_stays_completed 3 3 0 5 "処理完了" "次のバッチ"
           None None busy_session
           {| current := 2; total := 3; message := "m"; start_time := Some 17;
              complete := false; stage_details := None |});
    [reflexivity|lia|lia].
Defined.

(** X13. [get_config_manager] reads the configuration file at most once
    per session. When it returns a configuration, the session holds that
    configuration and is otherwise unchanged, and any later call, whatever
    the file has become, returns the same configuration and leaves the
    session alone. When loading fails the exception comes out and the
    session is untouched, so the next call tries again. *)
Theorem get_config_manager_loads_once :
  ∀ (env env' : environment) (s : session),
  match get_config_manager env s with
  | (Normal c, s') =>
      ss_config s' = Some c
      ∧ s' = match ss_config s with Some _ => s | None => set_config c s end
      ∧ get_config_manager env' s' = (Normal c, s')
  | (Raised e, s') =>
      s' = s ∧ ss_config s = None
      ∧ load_config env "config/config.yaml" = Raised e
  end.
Proof.
  intros env env' s.
  unfold get_config_manager, has_session_key, bind, get, ret, raise, lift_outcome,
    set_session_value, modify.
  destruct (ss_config s) as [c|] eqn:Hc.
  - rewrite bool_decide_eq_true_2 by eauto. rewrite Hc.
    rewrite bool_decide_eq_true_2 by eauto. by rewrite Hc.
  - rewrite bool_decide_eq_false_2 by (intros [? ?]; congruence).
    destruct (load_config env "config/config.yaml") as [c|e]; [|done].
    cbn [ss_config set_config]. rewrite bool_decide_eq_true_2 by eauto. done.
Qed.

(** ** The stages of [main] *)

(** X14. A session whose batch is done and has left no result is stuck:
    whatever the user uploads or presses, a run of [main] after the
    uploader returns normally and changes neither the session nor the
    record of progress nor the log; it draws at most the invitation to
    upload, and never the process button's work, the selection screen or
    the results. *)
Theorem session_without_results_is_stuck :
  ∀ (env : environment) (uenv : upload_environment) (v : visit) (a : app_state)
    (st : stages),
  ss_processing_stages (app_session a) = Some st ->
  processing_done st = true ->
  default [] (ss_results (app_session a)) = [] ->
  main_stages env uenv v a =
    (Normal tt,
     {| app_session := app_session a; app_history := app_history a;
        app_log := app_log a;
        app_page := app_page a ++
          (if list_nonempty (uploaded v) then []
           else [InfoBox "画像ファイルをアップロードしてください。"]) |}).
Proof.
  intros env uenv v a st Hst Hpd Hres. destruct a as [s h l pg].
  cbn [app_session app_history app_log app_page] in *.
  unfold main_stages, bind, with_session, get, ret, st_info, modify.
  cbn [app_session app_history app_log app_page].
  rewrite Hst, Hres. unfold stage_flag. cbn [from_option]. rewrite Hpd.
  cbn [negb list_nonempty]. rewrite !andb_false_r.
  cbv beta iota. cbn [app_session app_history app_log app_page andb].
  rewrite Hst. cbn [from_option]. rewrite Hpd. cbn [negb]. rewrite !andb_false_r.
  destruct (list_nonempty (uploaded v));
    cbv beta iota; cbn [app_session app_history app_log app_page];
    by rewrite ?app_nil_r.
Qed.

Lemma session_without_results_is_stuck_witness :
  main_stages bare_environment working_storage
    {| uploaded := mixed_uploads; process_pressed := true; selection := pick_second |}
    {| app_session :=
         set_processing_stages (stages_at true false false) (session_of fresh_world);
       app_history := []; app_log := []; app_page := [] |}
  = (Normal tt,
     {| app_session :=
          set_processing_stages (stages_at true false false) (session_of fresh_world);
        app_history := []; app_log := [];
        app_page := [] ++ (if list_nonempty mixed_uploads then []
                           else [InfoBox "画像ファイルをアップロードしてください。"]) |}).
Proof.
  apply (session_without_results_is_stuck bare_environment working_storage
           {| uploaded := mixed_uploads; process_pressed := true;
              selection := pick_second |}
           {| app_session :=
                set_processing_stages (stages_at true false false)
                  (session_of fresh_world);
              app_history := []; app_log := []; app_page := [] |}
           (stages_at true false false)); reflexivity.
Defined.

(** ** The result views inside [main] *)

Lemma view_only_refl a : view_only a a.
Proof.
  repeat split; [exists []|exists []]; rewrite app_nil_r; by repeat split.
Qed.

Lemma view_only_trans a1 a2 a3 :
  view_only a1 a2 -> view_only a2 a3 -> view_only a1 a3.
Proof.
  intros (Hs1 & Hh1 & (l1 & Hl1 & Hf1) & (d1 & Hd1))
         (Hs2 & Hh2 & (l2 & Hl2 & Hf2) & (d2 & Hd2)).
  split; [congruence|]. split; [congruence|]. split.
  - exists (l1 ++ l2). rewrite Hl2, Hl1, app_assoc. split; [done|].
    by apply Forall_app.
  - exists (d1 ++ d2). by rewrite Hd2, Hd1, app_assoc.
Qed.

Lemma is_view_ret {A} (x : A) : is_view (ret x).
Proof. intros a. apply view_only_refl. Qed.

Lemma is_view_lift_outcome {A} (o : outcome A) : is_view (lift_outcome o).
Proof. intros a. apply view_only_refl. Qed.

Lemma is_view_bind {A B} (c : M app_state A) (k : A -> M app_state B) :
  is_view c -> (∀ x, is_view (k x)) -> is_view (bind c k).
Proof.
  intros Hc Hk a. unfold bind. specialize (Hc a).
  destruct (c a) as [[x|e] a1]; cbn [snd] in *; [|done].
  apply (view_only_trans _ _ _ Hc). apply Hk.
Qed.

Lemma is_view_try_except {A} (body : M app_state A) (handler : exn -> M app_state A) :
  is_view body -> (∀ e, is_view (handler e)) -> is_view (try_except body handler).
Proof.
  intros Hb Hh a. unfold try_except. specialize (Hb a).
  destruct (body a) as [[x|e] a1]; cbn [snd] in *; [done|].
  apply (view_only_trans _ _ _ Hb). apply Hh.
Qed.

Lemma is_view_with_page {A} (c : M page A) : is_view (with_page c).
Proof.
  intros a. unfold with_page. destruct (c []) as [o drawn]. cbn [snd].
  split; [done|]. split; [done|]. split.
  - exists []. rewrite app_nil_r. by split.
  - by eexists.
Qed.

Lemma is_view_session_get : is_view (with_session get).
Proof. intros a. destruct a. apply view_only_refl. Qed.

Lemma is_view_log_error text : is_view (with_log (logging LogError text)).
Proof.
  intros a. unfold with_log, logging, modify. cbn [snd].
  split; [done|]. split; [done|]. split.
  - eexists. split; [reflexivity|]. by repeat constructor.
  - exists []. by rewrite app_nil_r.
Qed.

Lemma is_view_download_button label data : is_view (st_download_button label data).
Proof.
  intros a. unfold st_download_button, modify. cbn [snd].
  split; [done|]. split; [done|]. split.
  - exists []. rewrite app_nil_r. by split.
  - by eexists.
Qed.

Lemma convert_one_run env result l :
  ∃ converted logged,
    convert_one env result l = (Normal converted, l ++ logged)
    ∧ Forall (fun entry => entry.1 = LogError) logged
    ∧ (∀ o, result = RObj o -> converted = [o] ∧ logged = []).
Proof.
  unfold convert_one, try_except, bind, lift_outcome, ret, logging, modify.
  destruct result as [o|d].
  - exists [o], []. rewrite app_nil_r. split; [done|]. split; [done|].
    by intros ? [= <-].
  - destruct (result_of_dict env d) as [o|e].
    + exists [o], []. rewrite app_nil_r. by repeat split.
    + eexists [], _. split; [reflexivity|]. split; [|done]. by repeat constructor.
Qed.

Lemma convert_to_process_results_run env results :
  ∀ l, ∃ converted logged,
    convert_to_process_results env results l = (Normal converted, l ++ logged)
    ∧ Forall (fun entry => entry.1 = LogError) logged
    ∧ (∀ objs, results = RObj <$> objs -> converted = objs ∧ logged = []).
Proof.
  induction results as [|result rest IH]; intros l.
  - exists [], []. rewrite app_nil_r. split; [done|]. split; [done|].
    intros objs Hobjs. symmetry in Hobjs. apply fmap_nil_inv in Hobjs. by subst.
  - cbn [convert_to_process_results]. unfold bind.
    destruct (convert_one_run env result l) as (c1 & l1 & -> & Hf1 & Hobj1).
    destruct (IH (l ++ l1)) as (c2 & l2 & -> & Hf2 & Hobj2).
    exists (c1 ++ c2), (l1 ++ l2). rewrite app_assoc. split; [done|].
    split; [by apply Forall_app|].
    intros objs Hobjs. destruct objs as [|o objs']; [done|].
    rewrite fmap_cons in Hobjs. injection Hobjs as -> ->.
    destruct (Hobj1 o eq_refl) as [-> ->].
    destruct (Hobj2 objs' eq_refl) as [-> ->]. done.
Qed.

Lemma is_view_convert_to_process_results env results :
  is_view (with_log (convert_to_process_results env results)).
Proof.
  intros a. unfold with_log.
  destruct (convert_to_process_results_run env results (app_log a))
    as (c & logged & -> & Hf & _). cbn [snd].
  split; [done|]. split; [done|]. split.
  - by exists logged.
  - exists []. by rewrite app_nil_r.
Qed.

Lemma is_view_generate_excel_download env processor results :
  is_view (generate_excel_download env processor results).
Proof.
  unfold generate_excel_download. apply is_view_try_except.
  - destruct processor as [p|].
    + destruct (has_excel_exporter env p).
      * apply is_view_bind; [apply is_view_convert_to_process_results|].
        intros process_results.
        apply is_view_bind; [apply is_view_lift_outcome|].
        intros [|b bs]; [apply is_view_ret|].
        apply is_view_bind; [apply is_view_download_button|]. intros _.
        apply is_view_bind; [apply is_view_with_page|]. intros _.
        apply is_view_ret.
      * apply is_view_bind; [apply is_view_with_page|]. intros _.
        apply is_view_ret.
    + apply is_view_bind; [apply is_view_with_page|]. intros _.
      apply is_view_ret.
  - intros e. apply is_view_bind; [apply is_view_log_error|]. intros _.
    apply is_view_bind; [apply is_view_with_page|]. intros _.
    apply is_view_ret.
Qed.

Lemma is_view_generate_text_download env processor results :
  is_view (generate_text_download env processor results).
Proof.
  unfold generate_text_download. apply is_view_try_except.
  - destruct processor as [p|].
    + destruct (has_text_exporter env p).
      * apply is_view_bind; [apply is_view_convert_to_process_results|].
        intros process_results.
        apply is_view_bind; [apply is_view_lift_outcome|].
        intros text_data. destruct (bool_decide (text_data = "")); [apply is_view_ret|].
        apply is_view_bind; [apply is_view_download_button|]. intros _.
        apply is_view_bind; [apply is_view_with_page|]. intros _.
        apply is_view_ret.
      * apply is_view_bind; [apply is_view_with_page|]. intros _.
        apply is_view_ret.
    + apply is_view_bind; [apply is_view_with_page|]. intros _.
      apply is_view_ret.
  - intros e. apply is_view_bind; [apply is_view_log_error|]. intros _.
    apply is_view_bind; [apply is_view_with_page|]. intros _.
    apply is_view_ret.
Qed.

(** The handler of a download helper ends every run normally. *)
Lemma download_handler_normal {A} (body : M app_state A) (fallback : A)
    (text : exn -> string) a :
  ∃ b a',
    try_except body
      (fun e =>
         do_ with_log (logging LogError (text e));
         do_ with_page (emit (ErrorBox (text e)));
         ret fallback) a = (Normal b, a').
Proof.
  unfold try_except. destruct (body a) as [[x|e] a1]; by eexists _, _.
Qed.

Lemma display_export_buttons_normal env a :
  ∃ a', display_export_buttons env a = (Normal tt, a').
Proof.
  unfold display_export_buttons. unfold bind at 1.
  unfold with_page at 1, emit at 1, modify at 1.
  unfold bind at 1. unfold with_session at 1, get at 1.
  cbn [app_session app_history app_log app_page].
  destruct (default [] (ss_results (app_session a))) as [|r rs].
  { unfold with_page, emit, modify. by eexists. }
  destruct (ss_processor (app_session a)) as [[p|]|];
    try (unfold with_page, emit, modify; by eexists).
  unfold bind at 1. unfold generate_excel_download.
  match goal with
  | |- context [try_except ?body _ ?a0] =>
      destruct (download_handler_normal body false
                  (fun e => "Excel出力中にエラーが発生しました: " +:+ exn_str e) a0)
        as (b1 & a1 & ->)
  end.
  unfold bind at 1. unfold generate_text_download.
  match goal with
  | |- context [try_except ?body _ ?a0] =>
      destruct (download_handler_normal body false
                  (fun e => "テキスト出力中にエラーが発生しました: " +:+ exn_str e) a0)
        as (b2 & a2 & ->)
  end.
  by eexists.
Qed.

Lemma is_view_display_export_buttons env : is_view (display_export_buttons env).
Proof.
  unfold display_export_buttons.
  apply is_view_bind; [apply is_view_with_page|]. intros _.
  apply is_view_bind; [apply is_view_session_get|]. intros s.
  destruct (default [] (ss_results s)) as [|r rs]; [apply is_view_with_page|].
  destruct (ss_processor s) as [[p|]|]; try apply is_view_with_page.
  apply is_view_bind; [apply is_view_generate_excel_download|]. intros _.
  apply is_view_bind; [apply is_view_generate_text_download|]. intros _.
  apply is_view_ret.
Qed.

(** The result views draw on the page and may log errors; they change
    nothing else. *)
Lemma is_view_display_results env results : is_view (display_results env results).
Proof.
  unfold display_results. destruct results as [|r rs]; [apply is_view_with_page|].
  apply is_view_bind.
  { unfold convert_results_logged. apply is_view_bind; [|intros _; apply is_view_with_page].
    destruct (rows_of_results (r :: rs)); [apply is_view_ret|apply is_view_log_error]. }
  intros df. apply is_view_bind; [apply is_view_with_page|]. intros _.
  apply is_view_bind; [apply is_view_with_page|]. intros _.
  apply is_view_display_export_buttons.
Qed.

(** X15. Once the selection stage is done the choices are final: whatever
    the user uploads or presses, and however the run ends, a run of [main]
    after the uploader leaves the stored results, and with them every
    [user_selected_template], as they are; the session changes at most in
    its stage flags, where processing and selection stay done; nothing is
    processed, and the log gets at most error entries of the result
    views. *)
Theorem confirmed_results_are_final :
  ∀ (env : environment) (uenv : upload_environment) (v : visit) (a : app_state)
    (st : stages),
  ss_processing_stages (app_session a) = Some st ->
  processing_done st = true ->
  template_selection_done st = true ->
  let a' := snd (main_stages env uenv v a) in
  ss_results (app_session a') = ss_results (app_session a)
  ∧ same_but_stages (app_session a) (app_session a')
  ∧ (ss_processing_stages (app_session a') = Some st
     ∨ ss_processing_stages (app_session a') = Some (stages_at true true true))
  ∧ app_history a' = app_history a
  ∧ ∃ logged, app_log a' = app_log a ++ logged
              ∧ Forall (fun entry => entry.1 = LogError) logged.
Proof.
  intros env uenv v a st Hst Hpd Htsd. cbv zeta.
  assert (same_but_stages (app_session a) (app_session a)) as Hsame.
  { unfold same_but_stages. rewrite Hst. destruct (app_session a). simpl in *.
    by subst. }
  assert (∃ logged, app_log a = app_log a ++ logged
                    ∧ Forall (fun entry => entry.1 = LogError) logged) as Hlog.
  { exists []. by rewrite app_nil_r. }
  unfold main_stages, bind, with_session, get, ret, st_info, modify,
    set_session_value.
  rewrite Hst. unfold stage_flag. cbn [from_option]. rewrite Hpd.
  cbn [negb]. rewrite !andb_false_r.
  cbv beta iota. cbn [app_session app_history app_log app_page andb].
  rewrite Hst. cbn [from_option]. rewrite Hpd, Htsd. cbn [negb].
  rewrite !andb_false_r, !andb_true_r. cbv beta iota.
  destruct (list_nonempty (default [] (ss_results (app_session a)))) eqn:Hres.
  - pose proof (is_view_display_results env (default [] (ss_results (app_session a)))
                  {| app_session := app_session a; app_history := app_history a;
                     app_log := app_log a; app_page := app_page a |}) as Hview.
    destruct (display_results env _ _) as [o a1]. cbn [snd] in Hview.
    destruct Hview as (Hs1 & Hh1 & Hl1 & _).
    cbn [app_session app_history app_log] in Hs1, Hh1, Hl1.
    destruct o as [[]|e]; cbn [snd].
    + destruct (results_display_done st); cbn [negb snd app_session app_history
                                               app_log].
      * rewrite Hs1, Hh1. by auto.
      * rewrite Hs1, Hh1.
        cbn [ss_results ss_processing_stages set_processing_stages].
        split; [done|]. split; [|by auto]. unfold same_but_stages.
        cbn [ss_processing_stages set_processing_stages]. done.
    + rewrite Hs1, Hh1. by auto.
  - destruct (list_nonempty (uploaded v)); cbn; auto.
Qed.

Lemma confirmed_results_are_final_witness :
  let a' := snd (main_stages bare_environment working_storage
                   {| uploaded := mixed_uploads; process_pressed := true;
                      selection := pick_beyond |} finalized_app) in
  ss_results (app_session a') = ss_results (app_session finalized_app)
  ∧ same_but_stages (app_session finalized_app) (app_session a')
  ∧ (ss_processing_stages (app_session a') = Some (stages_at true true false)
     ∨ ss_processing_stages (app_session a') = Some (stages_at true true true))
  ∧ app_history a' = app_history finalized_app
  ∧ ∃ logged, app_log a' = app_log finalized_app ++ logged
              ∧ Forall (fun entry => entry.1 = LogError) logged.
Proof.
  apply (confirmed_results_are_final bare_environment working_storage
           {| uploaded := mixed_uploads; process_pressed := true;
              selection := pick_beyond |} finalized_app
           (stages_at true true false)); reflexivity.
Defined.

Lemma handle_image_upload_run uenv uploaded_files l :
  ∃ l', handle_image_upload uenv uploaded_files l
        = (Normal (saved_paths uenv uploaded_files), l').
Proof.
  unfold saved_paths. destruct uploaded_files as [|file0 rest] eqn:Hfiles.
  { destruct (make_temp_dir uenv); by eexists. }
  rewrite <- Hfiles.
  assert (handle_image_upload uenv uploaded_files l =
          try_except
            (do_ lift_outcome (make_temp_dir uenv);
             do_ try_except
                   (do_ lift_outcome (clean_temp_dir uenv);
                    logging LogInfo "前回の一時ファイルをクリーンアップしました")
                   (fun e =>
                      logging LogWarning
                        ("一時ファイルのクリーンアップ中にエラー: " +:+ exn_str e));
             upload_loop uenv 0 uploaded_files [])
            (fun e =>
               do_ logging LogError
                     ("画像のアップロード全体でエラーが発生: " +:+ exn_str e);
               ret []) l) as -> by (by subst uploaded_files).
  unfold try_except at 1. unfold bind at 1. unfold lift_outcome at 1.
  destruct (make_temp_dir uenv) as [[]|e0].
  - unfold bind at 1.
    assert (∃ l1, try_except
              (do_ lift_outcome (clean_temp_dir uenv);
               logging LogInfo "前回の一時ファイルをクリーンアップしました")
              (fun e =>
                 logging LogWarning
                   ("一時ファイルのクリーンアップ中にエラー: " +:+ exn_str e)) l
            = (Normal tt, l1)) as [l1 ->].
    { unfold try_except, bind, lift_outcome, logging, modify.
      destruct (clean_temp_dir uenv) as [[]|e]; by eexists. }
    destruct (upload_loop_run uenv uploaded_files 0%nat [] l1) as [l2 ->].
    by eexists.
  - unfold bind, logging, modify, ret. by eexists.
Qed.

(** ** The process button in [main] *)

Lemma with_session_get a : with_session get a = (Normal (app_session a), a).
Proof. by destruct a. Qed.

Lemma with_session_set f a :
  with_session (set_session_value f) a
  = (Normal tt, {| app_session := f (app_session a); app_history := app_history a;
                   app_log := app_log a; app_page := app_page a |}).
Proof. done. Qed.

Lemma with_session_has {A} (field : session -> option A) a :
  with_session (has_session_key field) a
  = (Normal (bool_decide (is_Some (field (app_session a)))), a).
Proof. by destruct a. Qed.

(** [display_progress] changes nothing; it returns or raises. *)
Lemma display_progress_run env a :
  display_progress env a = (fst (display_progress env a), a).
Proof.
  unfold display_progress. rewrite (bind_normal _ _ _ _ _ (with_session_get a)).
  destruct (ss_progress (app_session a)) as [q|]; [|done].
  by destruct (0 <? total q).
Qed.

Lemma display_progress_drawn env a :
  progress_bar_drawn env (app_session a) ->
  fst (display_progress env a) = Normal tt.
Proof.
  intros H. unfold display_progress.
  rewrite (bind_normal _ _ _ _ _ (with_session_get a)).
  destruct (ss_progress (app_session a)) as [q|] eqn:Hq; [|done].
  destruct (0 <? total q) eqn:Ht; [|done].
  cbn [lift_outcome fst]. apply (H q Hq). by apply Z.ltb_lt.
Qed.

Lemma display_progress_raised env a e :
  fst (display_progress env a) = Raised e ->
  ∃ q, ss_progress (app_session a) = Some q ∧ 0 < total q
       ∧ draw_progress env q = Raised e.
Proof.
  unfold display_progress.
  rewrite (bind_normal _ _ _ _ _ (with_session_get a)).
  destruct (ss_progress (app_session a)) as [q|] eqn:Hq; [|done].
  destruct (0 <? total q) eqn:Ht; [|done].
  cbn [lift_outcome fst]. intros H. exists q. split; [done|].
  split; [by apply Z.ltb_lt|done].
Qed.

Lemma display_progress_ext env a a' :
  ss_progress (app_session a') = ss_progress (app_session a) ->
  fst (display_progress env a') = fst (display_progress env a).
Proof.
  intros H. unfold display_progress.
  rewrite (bind_normal _ _ _ _ _ (with_session_get a)).
  rewrite (bind_normal _ _ _ _ _ (with_session_get a')). rewrite H.
  destruct (ss_progress (app_session a)) as [q|]; [|done].
  by destruct (0 <? total q).
Qed.

(** Marking the progress entry complete, as the processing branch of
    [main] does once the results are stored. *)
Lemma finish_progress_run a :
  ∃ a',
    (do present <- with_session (has_session_key ss_progress);
     if present then
       with_world (do_ mutate_progress (set_complete true);
                   do_ mutate_progress (set_message "処理完了");
                   restore_progress)
     else ret tt) a = (Normal tt, a')
    ∧ ss_progress (app_session a')
      = (set_message "処理完了" ∘ set_complete true) <$> ss_progress (app_session a)
    ∧ ss_results (app_session a') = ss_results (app_session a)
    ∧ ss_processing_stages (app_session a') = ss_processing_stages (app_session a)
    ∧ ss_processor (app_session a') = ss_processor (app_session a).
Proof.
  rewrite (bind_normal _ _ _ _ _ (with_session_has ss_progress a)).
  destruct a as [s h l pg]. cbn [app_session].
  destruct (ss_progress s) as [q|] eqn:Hq.
  - rewrite bool_decide_eq_true_2 by eauto.
    unfold with_world, bind, mutate_progress, modify, restore_progress, ret.
    cbn [app_session app_history app_log app_page session_of history].
    rewrite Hq. cbn [session_of history ss_progress set_progress].
    eexists. split; [reflexivity|]. by cbn.
  - rewrite bool_decide_eq_false_2 by (intros [? ?]; congruence).
    eexists. split; [reflexivity|]. cbn. by rewrite Hq.
Qed.

(** The processing branch with a processor in the session, when the
    progress bar is drawn. *)
Lemma main_process_run env uenv v a p :
  ss_processor (app_session a) = Some (Some p) ->
  fst (display_progress env a) = Normal tt ->
  let s := app_session a in
  let image_paths := saved_paths uenv (uploaded v) in
  let results :=
    flat_map (slot p (Some (default [] (ss_stylists s)))
                   (Some (default [] (ss_coupons s)))
                   (default true (ss_use_cache s))) image_paths in
  ∃ a',
    main_process env uenv v a = (Normal tt, a')
    ∧ ss_results (app_session a') = Some results
    ∧ ss_processing_stages (app_session a') = Some (stages_at true false false)
    ∧ ss_processor (app_session a') = Some (Some p)
    ∧ (∀ q, ss_progress (app_session a') = Some q ->
            complete q = true ∧ message q = "処理完了")
    ∧ (image_paths ≠ [] ->
       ∃ q, ss_progress (app_session a') = Some q
            ∧ current q = Z.of_nat (length image_paths)
            ∧ total q = Z.of_nat (length image_paths))
    ∧ (image_paths = [] ->
       ss_progress (app_session a')
       = (set_message "処理完了" ∘ set_complete true) <$> ss_progress s).
Proof.
  intros Hp Hbar s image_paths results. destruct a as [s0 h l pg].
  cbn [app_session] in *. subst s.
  destruct (handle_image_upload_run uenv (uploaded v) l) as [l' Hup].
  set (a1 := {| app_session := s0; app_history := h; app_log := l'; app_page := pg |}).
  assert (H1 : with_log (handle_image_upload uenv (uploaded v))
                 {| app_session := s0; app_history := h; app_log := l; app_page := pg |}
               = (Normal image_paths, a1)).
  { unfold with_log. cbn [app_log app_session app_history app_page]. by rewrite Hup. }
  assert (Hbar1 : display_progress env a1 = (Normal tt, a1)).
  { rewrite display_progress_run. f_equal. rewrite <- Hbar.
    by apply display_progress_ext. }
  unfold main_process.
  rewrite (bind_normal _ _ _ _ _ H1).
  rewrite (bind_normal _ _ _ _ _ (with_session_get a1)).
  cbn [app_session a1]. rewrite Hp.
  rewrite (bind_normal (ret (Some p)) _ a1 (Some p) a1 eq_refl).
  rewrite (bind_normal _ _ _ _ _ (with_session_get a1)).
  cbn [app_session a1].
  rewrite (bind_normal _ _ _ _ _ Hbar1).
  set (stylists := Some (default [] (ss_stylists s0))) in *.
  set (coupons := Some (default [] (ss_coupons s0))) in *.
  set (use_cache := default true (ss_use_cache s0)) in *.
  assert (∃ a2, with_world (process_images env (Some p) image_paths stylists coupons
                              use_cache) a1 = (Normal results, a2)
                ∧ ss_results (app_session a2) = ss_results s0
                ∧ ss_processing_stages (app_session a2) = ss_processing_stages s0
                ∧ ss_processor (app_session a2) = Some (Some p)
                ∧ (image_paths ≠ [] ->
                   ∃ q, ss_progress (app_session a2) = Some q
                        ∧ current q = Z.of_nat (length image_paths)
                        ∧ total q = Z.of_nat (length image_paths))
                ∧ (image_paths = [] -> ss_progress (app_session a2) = ss_progress s0))
    as (a2 & H2 & Hr2 & Hst2 & Hp2 & Hq2 & Hq2').
  { unfold with_world. cbn [app_session app_history app_log app_page a1].
    destruct image_paths as [|path0 rest] eqn:Hpaths.
    - subst results. cbn [flat_map process_images ret session_of history app_session].
      eexists. split; [reflexivity|]. by cbn [app_session].
    - rewrite process_images_with_processor by done.
      destruct (batch_trace_shape env p (path0 :: rest) stylists coupons use_cache)
        as (running & closing & final & _ & Hfinal & _ & _ & _ & _ & _ & _
            & Hcur & Htot & _); [done|].
      rewrite Hfinal. cbn [session_of history].
      eexists. split; [reflexivity|].
      cbn [app_session ss_results ss_processing_stages ss_processor ss_progress
           set_progress].
      split; [done|]. split; [done|]. split; [done|].
      split; [|done]. intros _. by exists final. }
  rewrite (bind_normal _ _ _ _ _ H2).
  rewrite (bind_normal _ _ _ _ _ (with_session_set _ a2)).
  rewrite (bind_normal _ _ _ _ _ (with_session_set _ _)).
  cbn [app_session app_history app_log app_page].
  match goal with
  | |- ∃ a', _ ?a3 = _ ∧ _ => destruct (finish_progress_run a3)
        as (a' & Hrun & Hq' & Hr' & Hst' & Hp')
  end.
  exists a'. split; [exact Hrun|].
  cbn [app_session ss_results ss_processing_stages ss_processor ss_progress
       set_results set_processing_stages] in Hq', Hr', Hst', Hp'.
  rewrite Hr', Hst', Hp', Hq'.
  split; [done|]. split; [done|]. split; [done|]. split.
  { intros q. destruct (ss_progress (app_session a2)) as [q2|]; [|done].
    by intros [= <-]. }
  split.
  - intros Hne. destruct (Hq2 Hne) as (q & -> & Hcur & Htot).
    eexists. split; [reflexivity|]. by cbn.
  - intros Hnil. by rewrite (Hq2' Hnil).
Qed.

Lemma flat_map_nil {A B} (f : A -> list B) (l : list A) :
  (∀ x, x ∈ l -> f x = []) -> flat_map f l = [].
Proof.
  induction l as [|x l IH]; intros H; [done|]. cbn [flat_map].
  rewrite (H x) by left. apply IH. intros y Hy. apply H. by right.
Qed.

(** The head of [main_stages] while the processing stage is open and
    files are in the uploader. *)
Lemma main_stages_processing env uenv v a :
  list_nonempty (uploaded v) = true ->
  stage_flag processing_done false (ss_processing_stages (app_session a)) = false ->
  main_stages env uenv v a
  = (if process_pressed v then main_process env uenv v else ret tt)
      {| app_session := set_processing_stages (stages_at false false false)
                          (app_session a);
         app_history := app_history a; app_log := app_log a;
         app_page := app_page a |}.
Proof.
  intros Hup Hpd. unfold main_stages.
  rewrite (bind_normal _ _ _ _ _ (with_session_get a)).
  rewrite Hup, Hpd. cbn [negb andb].
  rewrite (bind_normal _ _ _ _ _ (with_session_set _ a)).
  rewrite (bind_normal _ _ _ _ _ (with_session_get _)).
  cbn [app_session ss_processing_stages set_processing_stages stage_flag
       from_option stages_at processing_done negb andb].
  reflexivity.
Qed.

(** X16. With files in the uploader, the processing stage open, a
    processor in the session, the button pressed and the progress bar
    drawn, a run of [main]
    returns normally; it stores as the results what the processor gives,
    in order, for the paths of the uploads that were kept (with the
    stylists, coupons and cache flag of the session), marks the processing
    stage done and the two later stages open, and leaves the progress
    entry, when there is one, complete with the message of completion;
    when a path was kept the progress entry exists and stands at the
    number of kept paths. *)
Theorem process_button_stores_results :
  ∀ (env : environment) (uenv : upload_environment) (v : visit) (a : app_state)
    (p : Processor),
  list_nonempty (uploaded v) = true ->
  process_pressed v = true ->
  stage_flag processing_done false (ss_processing_stages (app_session a)) = false ->
  ss_processor (app_session a) = Some (Some p) ->
  progress_bar_drawn env (app_session a) ->
  let s := app_session a in
  let image_paths := saved_paths uenv (uploaded v) in
  ∃ a',
    main_stages env uenv v a = (Normal tt, a')
    ∧ ss_results (app_session a')
      = Some (flat_map (slot p (Some (default [] (ss_stylists s)))
                         (Some (default [] (ss_coupons s)))
                         (default true (ss_use_cache s))) image_paths)
    ∧ ss_processing_stages (app_session a') = Some (stages_at true false false)
    ∧ (∀ q, ss_progress (app_session a') = Some q ->
            complete q = true ∧ message q = "処理完了")
    ∧ (image_paths ≠ [] ->
       ∃ q, ss_progress (app_session a') = Some q
            ∧ current q = Z.of_nat (length image_paths)
            ∧ total q = Z.of_nat (length image_paths)).
Proof.
  intros env uenv v a p Hup Hpress Hpd Hp Hbar s image_paths.
  rewrite (main_stages_processing env uenv v a Hup Hpd), Hpress.
  destruct (main_process_run env uenv v
              {| app_session := set_processing_stages (stages_at false false false)
                                  (app_session a);
                 app_history := app_history a; app_log := app_log a;
                 app_page := app_page a |} p Hp
              (display_progress_drawn env
                 {| app_session := set_processing_stages
                                     (stages_at false false false) (app_session a);
                    app_history := app_history a; app_log := app_log a;
                    app_page := app_page a |} Hbar))
    as (a' & Hrun & Hres & Hst & _ & Hq & Hcur & _).
  exists a'. split; [exact Hrun|]. split; [exact Hres|]. split; [exact Hst|].
  split; [exact Hq|exact Hcur].
Qed.

Lemma process_button_stores_results_witness :
  ∃ a',
    main_stages bare_environment working_storage
      {| uploaded := mixed_uploads; process_pressed := true; selection := pick_second |}
      ready_app = (Normal tt, a')
    ∧ ss_results (app_session a')
      = Some (flat_map (slot steady_processor
                          (Some (default [] (ss_stylists (app_session ready_app))))
                          (Some (default [] (ss_coupons (app_session ready_app))))
                          (default true (ss_use_cache (app_session ready_app))))
                (saved_paths working_storage mixed_uploads))
    ∧ ss_processing_stages (app_session a') = Some (stages_at true false false)
    ∧ (∀ q, ss_progress (app_session a') = Some q ->
            complete q = true ∧ message q = "処理完了")
    ∧ (saved_paths working_storage mixed_uploads ≠ [] ->
       ∃ q, ss_progress (app_session a') = Some q
            ∧ current q = Z.of_nat (length (saved_paths working_storage mixed_uploads))
            ∧ total q = Z.of_nat (length (saved_paths working_storage mixed_uploads))).
Proof.
  apply (process_button_stores_results bare_environment working_storage
           {| uploaded := mixed_uploads; process_pressed := true;
              selection := pick_second |} ready_app steady_processor);
    try reflexivity.
  intros q _ _. reflexivity.
Defined.

(** The two images of [mixed_uploads] that are kept give the two results
    the session holds afterwards. *)
Example process_button_on_mixed_uploads :
  (fun r => match r with RObj o => image_name o | RDict _ => "" end)
    <$> default [] (ss_results (app_session (snd
          (main_stages bare_environment working_storage
             {| uploaded := mixed_uploads; process_pressed := true;
                selection := pick_second |} ready_app))))
  = ["styleimg_1.jpg"; "styleimg_4.jpeg"].
Proof. vm_compute. reflexivity. Qed.

(** A run of [main] on a session whose batch is done and has left no
    result changes at most the page. *)
Lemma main_stages_stuck env uenv v a st :
  ss_processing_stages (app_session a) = Some st ->
  processing_done st = true ->
  default [] (ss_results (app_session a)) = [] ->
  ∃ pg,
    main_stages env uenv v a
    = (Normal tt,
       {| app_session := app_session a; app_history := app_history a;
          app_log := app_log a; app_page := pg |}).
Proof.
  intros Hst Hpd Hres. unfold main_stages.
  rewrite (bind_normal _ _ _ _ _ (with_session_get a)).
  rewrite Hst, Hres. cbn [stage_flag from_option]. rewrite Hpd.
  cbn [negb list_nonempty]. rewrite !andb_false_r.
  rewrite (bind_normal (ret tt) _ a tt a eq_refl).
  rewrite (bind_normal _ _ _ _ _ (with_session_get a)).
  rewrite Hst. cbn [stage_flag from_option]. rewrite Hpd.
  cbn [negb andb]. rewrite !andb_false_r.
  destruct a as [s h l pg]. cbn [app_session app_history app_log app_page].
  destruct (list_nonempty (uploaded v)); by eexists.
Qed.

Lemma saved_paths_elem uenv uploaded_files path :
  path ∈ saved_paths uenv uploaded_files ->
  ∃ (i : nat) file,
    uploaded_files !! i = Some file ∧ kept uenv i file = true
    ∧ path = temp_path_of uenv i (lower (path_suffix (file_name file))).
Proof.
  unfold saved_paths. destruct (make_temp_dir uenv).
  - intros H. by apply (upload_slots_elem uenv uploaded_files 0%nat) in H.
  - intros H. by apply not_elem_of_nil in H.
Qed.

(** X17. A batch that yields nothing locks the session. When every file
    in the uploader is either dropped by the upload step or gives no
    result in the processor, pressing the button (with a processor in the
    session and the progress bar drawn) stores an empty list of
    results with the processing stage done; from then on every run of
    [main], whatever is uploaded or pressed, returns normally and leaves
    the session, the record of progress and the log as they are: nothing
    can be processed again. *)
Theorem batch_without_result_locks_session :
  ∀ (env : environment) (uenv : upload_environment) (v : visit) (a : app_state)
    (p : Processor),
  list_nonempty (uploaded v) = true ->
  process_pressed v = true ->
  stage_flag processing_done false (ss_processing_stages (app_session a)) = false ->
  ss_processor (app_session a) = Some (Some p) ->
  progress_bar_drawn env (app_session a) ->
  (∀ (i : nat) file,
     uploaded v !! i = Some file -> kept uenv i file = true ->
     slot p (Some (default [] (ss_stylists (app_session a))))
            (Some (default [] (ss_coupons (app_session a))))
            (default true (ss_use_cache (app_session a)))
            (temp_path_of uenv i (lower (path_suffix (file_name file)))) = []) ->
  ∃ a',
    main_stages env uenv v a = (Normal tt, a')
    ∧ ss_results (app_session a') = Some []
    ∧ ∀ env2 uenv2 v2, ∃ pg,
        main_stages env2 uenv2 v2 a'
        = (Normal tt,
           {| app_session := app_session a'; app_history := app_history a';
              app_log := app_log a'; app_page := pg |}).
Proof.
  intros env uenv v a p Hup Hpress Hpd Hp Hbar Hnone.
  rewrite (main_stages_processing env uenv v a Hup Hpd), Hpress.
  destruct (main_process_run env uenv v
              {| app_session := set_processing_stages (stages_at false false false)
                                  (app_session a);
                 app_history := app_history a; app_log := app_log a;
                 app_page := app_page a |} p Hp
              (display_progress_drawn env
                 {| app_session := set_processing_stages
                                     (stages_at false false false) (app_session a);
                    app_history := app_history a; app_log := app_log a;
                    app_page := app_page a |} Hbar))
    as (a' & Hrun & Hres & Hst & _).
  cbn [app_session ss_stylists ss_coupons ss_use_cache set_processing_stages]
    in Hres.
  rewrite flat_map_nil in Hres.
  2: { intros path Hpath.
       destruct (saved_paths_elem _ _ _ Hpath) as (i & file & Hi & Hk & ->).
       by apply Hnone. }
  exists a'. split; [exact Hrun|]. split; [exact Hres|].
  intros env2 uenv2 v2.
  apply (main_stages_stuck env2 uenv2 v2 a' (stages_at true false false));
    [exact Hst|reflexivity|by rewrite Hres].
Qed.

Lemma batch_without_result_locks_session_witness :
  ∃ a',
    main_stages bare_environment working_storage
      {| uploaded := useless_uploads; process_pressed := true;
         selection := pick_second |} ready_app = (Normal tt, a')
    ∧ ss_results (app_session a') = Some []
    ∧ ∀ env2 uenv2 v2, ∃ pg,
        main_stages env2 uenv2 v2 a'
        = (Normal tt,
           {| app_session := app_session a'; app_history := app_history a';
              app_log := app_log a'; app_page := pg |}).
Proof.
  apply (batch_without_result_locks_session bare_environment working_storage
           {| uploaded := useless_uploads; process_pressed := true;
              selection := pick_second |} ready_app steady_processor);
    try reflexivity.
  { intros q _ _. reflexivity. }
  intros i file Hi Hk.
  destruct i as [|[|i]]; simpl in Hi; [| |done];
    injection Hi as <-; vm_compute in Hk; discriminate.
Defined.

(** ** The selection stage in [main] *)

(** The head of [main_stages] in the selection stage. *)
Lemma main_stages_selection env uenv v a st :
  ss_processing_stages (app_session a) = Some st ->
  processing_done st = true ->
  template_selection_done st = false ->
  default [] (ss_results (app_session a)) ≠ [] ->
  main_stages env uenv v a
  = (do_ with_screen (default [] (ss_results (app_session a)))
           (display_template_choices (selection v));
     do s <- with_session get;
     if default false (ss_confirm_template_selections s) then
       do_ with_session (set_session_value
                           (set_processing_stages (stages_at true true false)));
       with_session (set_session_value (set_confirm_template_selections false))
     else ret tt) a.
Proof.
  intros Hst Hpd Htsd Hres. unfold main_stages.
  rewrite (bind_normal _ _ _ _ _ (with_session_get a)).
  rewrite Hst. cbn [stage_flag from_option]. rewrite Hpd.
  cbn [negb]. rewrite !andb_false_r.
  rewrite (bind_normal (ret tt) _ a tt a eq_refl).
  rewrite (bind_normal _ _ _ _ _ (with_session_get a)).
  rewrite Hst. cbn [stage_flag from_option]. rewrite Hpd, Htsd.
  cbn [negb]. rewrite !andb_false_r.
  destruct (default [] (ss_results (app_session a))) as [|r0 R]; [done|].
  reflexivity.
Qed.

(** The selection screen on valid choices with the button pressed. *)
Lemma display_outcome_valid ui (objs : list ProcessResult) s :
  NoDup (image_name <$> objs) ->
  confirm_pressed ui = true ->
  Forall (fun o => Forall is_Some (shown_templates s o)
                   ∧ 0 ≤ radio_index ui s o
                   ∧ radio_index ui s o < Z.of_nat (length (shown_templates s o)))
         objs ->
  ∃ s',
    display_outcome ui (RObj <$> objs) s
    = (Normal tt,
       {| results_of := RObj <$> (confirmed_choice ui s <$> objs);
          screen_session := s' |})
    ∧ ss_confirm_template_selections s' = Some true
    ∧ same_outside_selection s s'.
Proof.
  intros Hdup Hpress Hok. unfold display_outcome.
  destruct (choose_all_pure_valid ui objs
              (default ∅ (ss_template_choices s)) (default ∅ (ss_user_selections s))
              Hdup Hok) as (C1 & U1 & -> & Hfin).
  rewrite Hpress.
  rewrite (confirm_loop_valid _ C1 U1 (shown_templates s) (radio_index ui s) objs);
    [|reflexivity|reflexivity|].
  2: { apply Forall_forall. intros o Ho. rewrite Forall_forall in Hfin, Hok.
       destruct (Hfin o Ho) as [? ?]. destruct (Hok o Ho) as (_ & ? & ?). by repeat split. }
  cbn [app]. eexists. split; [reflexivity|]. split; [done|].
  by destruct s.
Qed.

(** X18. In the selection stage, valid choices and the confirmation
    button end the stage within the same run of [main]: the run returns
    normally, every stored result carries as [user_selected_template] the
    template at its radio index, the stage flags say that processing and
    selection are done and the display is not, and the confirmation flag
    is back to false, so that the next run starts in the display stage;
    nothing is processed or logged. *)
Theorem confirmation_ends_selection_stage :
  ∀ (env : environment) (uenv : upload_environment) (v : visit) (a : app_state)
    (st : stages) (objs : list ProcessResult),
  ss_processing_stages (app_session a) = Some st ->
  processing_done st = true ->
  template_selection_done st = false ->
  ss_results (app_session a) = Some (RObj <$> objs) ->
  objs ≠ [] ->
  NoDup (image_name <$> objs) ->
  confirm_pressed (selection v) = true ->
  Forall (fun o =>
            Forall is_Some (shown_templates (app_session a) o)
            ∧ 0 ≤ radio_index (selection v) (app_session a) o
            ∧ radio_index (selection v) (app_session a) o
              < Z.of_nat (length (shown_templates (app_session a) o)))
         objs ->
  ∃ a',
    main_stages env uenv v a = (Normal tt, a')
    ∧ ss_results (app_session a')
      = Some (RObj <$> (confirmed_choice (selection v) (app_session a) <$> objs))
    ∧ ss_processing_stages (app_session a') = Some (stages_at true true false)
    ∧ ss_confirm_template_selections (app_session a') = Some false
    ∧ ss_progress (app_session a') = ss_progress (app_session a)
    ∧ app_history a' = app_history a
    ∧ app_log a' = app_log a.
Proof.
  intros env uenv v a st objs Hst Hpd Htsd Hres Hne Hdup Hpress Hok.
  assert (RObj <$> objs ≠ []) as Hne' by (by destruct objs).
  rewrite (main_stages_selection env uenv v a st Hst Hpd Htsd)
    by (by rewrite Hres).
  rewrite Hres. cbn [default from_option id].
  destruct (display_outcome_valid (selection v) objs (app_session a) Hdup Hpress Hok)
    as (s' & Hrun & Hflag & Hsame).
  assert (with_screen (RObj <$> objs) (display_template_choices (selection v)) a
          = (Normal tt,
             {| app_session :=
                  set_results
                    (RObj <$> (confirmed_choice (selection v) (app_session a) <$> objs))
                    s';
                app_history := app_history a; app_log := app_log a;
                app_page := app_page a |})) as H1.
  { unfold with_screen.
    rewrite (display_template_choices_run _ _ _ Hne'), Hrun. reflexivity. }
  rewrite (bind_normal _ _ _ _ _ H1).
  rewrite (bind_normal _ _ _ _ _ (with_session_get _)).
  cbn [app_session ss_confirm_template_selections set_results].
  rewrite Hflag. cbn [default from_option id].
  rewrite (bind_normal _ _ _ _ _ (with_session_set _ _)).
  rewrite with_session_set.
  eexists. split; [reflexivity|].
  cbn [app_session app_history app_log ss_results ss_processing_stages
       ss_confirm_template_selections ss_progress set_results
       set_processing_stages set_confirm_template_selections].
  destruct Hsame as (_ & _ & _ & _ & Hq & _). by rewrite Hq.
Qed.

Lemma confirmation_ends_selection_stage_witness :
  ∃ a',
    main_stages bare_environment working_storage
      {| uploaded := []; process_pressed := false; selection := pick_second |}
      selecting_app = (Normal tt, a')
    ∧ ss_results (app_session a')
      = Some (RObj <$> (confirmed_choice pick_second (app_session selecting_app)
                          <$> two_objects))
    ∧ ss_processing_stages (app_session a') = Some (stages_at true true false)
    ∧ ss_confirm_template_selections (app_session a') = Some false
    ∧ ss_progress (app_session a') = ss_progress (app_session selecting_app)
    ∧ app_history a' = app_history selecting_app
    ∧ app_log a' = app_log selecting_app.
Proof.
  apply (confirmation_ends_selection_stage bare_environment working_storage
           {| uploaded := []; process_pressed := false; selection := pick_second |}
           selecting_app (stages_at true false false) two_objects).
  - reflexivity.
  - reflexivity.
  - reflexivity.
  - reflexivity.
  - discriminate.
  - apply (bool_decide_unpack _). vm_compute. exact I.
  - reflexivity.
  - repeat constructor; try (eexists; reflexivity); vm_compute; congruence.
Defined.

(** X19. The selection stage waits for the button. While the confirmation
    flag is not set, a run of [main] in the selection stage without the
    button pressed leaves the stage flags, the stored results and the
    confirmation flag as they are, whatever is picked or uploaded and
    however the run ends; nothing is processed or logged. *)
Theorem selection_stage_waits_for_button :
  ∀ (env : environment) (uenv : upload_environment) (v : visit) (a : app_state)
    (st : stages),
  ss_processing_stages (app_session a) = Some st ->
  processing_done st = true ->
  template_selection_done st = false ->
  confirm_pressed (selection v) = false ->
  default false (ss_confirm_template_selections (app_session a)) = false ->
  let a' := snd (main_stages env uenv v a) in
  ss_processing_stages (app_session a') = Some st
  ∧ ss_results (app_session a') = ss_results (app_session a)
  ∧ ss_confirm_template_selections (app_session a')
    = ss_confirm_template_selections (app_session a)
  ∧ app_history a' = app_history a
  ∧ app_log a' = app_log a.
Proof.
  intros env uenv v a st Hst Hpd Htsd Hpress Hflag. cbv zeta.
  destruct (default [] (ss_results (app_session a))) as [|r0 R0] eqn:Hres.
  { destruct (main_stages_stuck env uenv v a st Hst Hpd Hres) as [pg ->].
    by cbn. }
  rewrite (main_stages_selection env uenv v a st Hst Hpd Htsd)
    by (by rewrite Hres).
  rewrite Hres.
  assert (ss_results (app_session a) = Some (r0 :: R0)) as Hsome.
  { destruct (ss_results (app_session a)); [by simpl in Hres; subst|done]. }
  assert (∃ o s',
            with_screen (r0 :: R0) (display_template_choices (selection v)) a
            = (o, {| app_session := s'; app_history := app_history a;
                     app_log := app_log a; app_page := app_page a |})
            ∧ ss_processing_stages s' = Some st
            ∧ ss_results s' = Some (r0 :: R0)
            ∧ ss_confirm_template_selections s'
              = ss_confirm_template_selections (app_session a))
    as (o & s' & H1 & Hst' & Hres' & Hflag').
  { unfold with_screen.
    rewrite (display_template_choices_run _ (r0 :: R0) _) by done.
    unfold display_outcome. rewrite Hpress.
    destruct (choose_all_pure _ _ _ _) as [[[]|e] [C1 U1]];
      (eexists _, _; split; [reflexivity|]);
      cbn [results_of screen_session ss_processing_stages ss_results
           ss_confirm_template_selections set_results with_maps
           set_user_selections set_template_choices ensure_maps];
      by rewrite Hst. }
  destruct o as [[]|e].
  - rewrite (bind_normal _ _ _ _ _ H1).
    rewrite (bind_normal _ _ _ _ _ (with_session_get _)).
    cbn [app_session]. rewrite Hflag', Hflag.
    cbn [ret snd app_session app_history app_log].
    by rewrite Hsome.
  - rewrite (bind_raised _ _ _ _ _ H1).
    cbn [snd app_session app_history app_log]. by rewrite Hsome.
Qed.

Lemma selection_stage_waits_for_button_witness :
  let a' := snd (main_stages bare_environment working_storage
                   {| uploaded := mixed_uploads; process_pressed := true;
                      selection := {| radio_pick := radio_pick pick_beyond;
                                      confirm_pressed := false |} |}
                   selecting_app) in
  ss_processing_stages (app_session a') = Some (stages_at true false false)
  ∧ ss_results (app_session a') = ss_results (app_session selecting_app)
  ∧ ss_confirm_template_selections (app_session a')
    = ss_confirm_template_selections (app_session selecting_app)
  ∧ app_history a' = app_history selecting_app
  ∧ app_log a' = app_log selecting_app.
Proof.
  apply (selection_stage_waits_for_button bare_environment working_storage
           {| uploaded := mixed_uploads; process_pressed := true;
              selection := {| radio_pick := radio_pick pick_beyond;
                              confirm_pressed := false |} |}
           selecting_app (stages_at true false false)); reflexivity.
Defined.

(** ** What [process_images] leaves alone *)

Lemma same_outside_batch_refl s : same_outside_batch s s.
Proof. by repeat split. Qed.

Lemma same_outside_batch_trans s1 s2 s3 :
  same_outside_batch s1 s2 -> same_outside_batch s2 s3 -> same_outside_batch s1 s3.
Proof.
  unfold same_outside_batch.
  intros (?&?&?&?&?&?&?&?&?) (?&?&?&?&?&?&?&?&?).
  repeat split; congruence.
Qed.

Lemma session_after_recreation_frame env s :
  same_outside_batch s (session_after_recreation env s).
Proof.
  unfold session_after_recreation.
  destruct (recreated_processor env s), (ss_config s),
    (load_config env "config/config.yaml"); by repeat split.
Qed.

Lemma process_batch_frame env p image_paths stylists coupons use_cache w :
  ∃ w',
    process_batch env p image_paths stylists coupons use_cache w
    = (Normal (flat_map (slot p stylists coupons use_cache) image_paths), w')
    ∧ same_outside_batch (session_of w) (session_of w')
    ∧ ss_processor (session_of w') = ss_processor (session_of w)
    ∧ ss_config (session_of w') = ss_config (session_of w).
Proof.
  destruct image_paths as [|path0 rest] eqn:Hpaths.
  - eexists. split; [reflexivity|]. split; [apply same_outside_batch_refl|done].
  - rewrite <- Hpaths. rewrite process_batch_run by (by subst).
    eexists. split; [reflexivity|]. by repeat split.
Qed.

(** [process_images] in one piece: it returns, and what it leaves of the
    session. *)
Lemma process_images_frame_run env processor image_paths stylists coupons
    use_cache w :
  ∃ results w',
    process_images env processor image_paths stylists coupons use_cache w
    = (Normal results, w')
    ∧ same_outside_batch (session_of w) (session_of w')
    ∧ (length results ≤ length image_paths)%nat
    ∧ (processor = None -> recreated_processor env (session_of w) = None ->
       results = [] ∧ ss_progress (session_of w') = ss_progress (session_of w)
       ∧ ss_processor (session_of w') = ss_processor (session_of w)).
Proof.
  destruct processor as [p|].
  - cbn [process_images].
    destruct (process_batch_frame env p image_paths stylists coupons use_cache w)
      as (w' & -> & Hsame & _).
    eexists _, w'. split; [reflexivity|]. split; [done|].
    split; [apply results_length|done].
  - unfold process_images. unfold bind at 1. rewrite recreation_run.
    pose proof (session_after_recreation_frame env (session_of w)) as Hrec.
    destruct (recreated_processor env (session_of w)) as [p|] eqn:Hp.
    + destruct (process_batch_frame env p image_paths stylists coupons use_cache
                  {| session_of := session_after_recreation env (session_of w);
                     history := history w |}) as (w' & -> & Hsame & _).
      cbn [session_of] in Hsame.
      eexists _, w'. split; [reflexivity|].
      split; [by apply (same_outside_batch_trans _ _ _ Hrec)|].
      split; [apply results_length|done].
    + eexists _, _. split; [reflexivity|]. cbn [session_of length].
      split; [done|]. split; [lia|]. intros _ _. split; [done|].
      unfold session_after_recreation. rewrite Hp.
      destruct (ss_config (session_of w)), (load_config env "config/config.yaml");
        done.
Qed.

(** X20. [process_images] returns normally for every processor argument
    (also [None]), every list of paths and every behaviour of the
    processor and of the environment, with at most one result per path;
    of the session it touches only the progress, the processor and the
    configuration: the stored results, the stage flags, the stylists, the
    coupons, the cache flag, the salon URL, the two selection dicts and
    the confirmation flag are what they were. *)
Theorem process_images_leaves_rest_of_session :
  ∀ (env : environment) (processor : option Processor) (image_paths : list string)
    stylists coupons (use_cache : bool) (w : world),
  ∃ results w',
    process_images env processor image_paths stylists coupons use_cache w
    = (Normal results, w')
    ∧ (length results ≤ length image_paths)%nat
    ∧ same_outside_batch (session_of w) (session_of w').
Proof.
  intros env processor image_paths stylists coupons use_cache w.
  destruct (process_images_frame_run env processor image_paths stylists coupons
              use_cache w) as (results & w' & Hrun & Hsame & Hlen & _).
  exists results, w'. split; [exact Hrun|]. split; [exact Hlen|exact Hsame].
Qed.

(** ** The process button without a processor *)

Lemma with_world_frame {A} (c : M world A) a :
  ∃ o w',
    c {| session_of := app_session a; history := app_history a |} = (o, w')
    ∧ with_world c a
      = (o, {| app_session := session_of w'; app_history := history w';
               app_log := app_log a; app_page := app_page a |}).
Proof.
  unfold with_world.
  destruct (c {| session_of := app_session a; history := app_history a |})
    as [o w']. by eexists _, _.
Qed.

(** The session once [get_config_manager] has returned. *)
Lemma get_config_manager_run env s :
  get_config_manager env s
  = match config_at_hand env s with
    | Normal c =>
        (Normal c, match ss_config s with Some _ => s | None => set_config c s end)
    | Raised e => (Raised e, s)
    end.
Proof.
  unfold get_config_manager, config_at_hand, has_session_key, bind, get, ret,
    lift_outcome, set_session_value, modify, raise.
  cbv beta.
  destruct (ss_config s) as [c|] eqn:Hc.
  - rewrite bool_decide_eq_true_2 by eauto. by rewrite Hc.
  - rewrite bool_decide_eq_false_2 by (intros [? ?]; congruence).
    by destruct (load_config env "config/config.yaml").
Qed.

(** The processing branch with a processor in the session, when the
    progress bar raises. *)
Lemma main_process_bar_raised env uenv v a p e :
  ss_processor (app_session a) = Some (Some p) ->
  fst (display_progress env a) = Raised e ->
  ∃ a', main_process env uenv v a = (Raised e, a')
        ∧ app_session a' = app_session a.
Proof.
  intros Hp Hbar. destruct a as [s0 h l pg]. cbn [app_session] in *.
  destruct (handle_image_upload_run uenv (uploaded v) l) as [l' Hup].
  set (a1 := {| app_session := s0; app_history := h; app_log := l'; app_page := pg |}).
  assert (H1 : with_log (handle_image_upload uenv (uploaded v))
                 {| app_session := s0; app_history := h; app_log := l; app_page := pg |}
               = (Normal (saved_paths uenv (uploaded v)), a1)).
  { unfold with_log. cbn [app_log app_session app_history app_page]. by rewrite Hup. }
  assert (Hbar1 : display_progress env a1 = (Raised e, a1)).
  { rewrite display_progress_run. f_equal. rewrite <- Hbar.
    by apply display_progress_ext. }
  exists a1. split; [|done]. unfold main_process.
  rewrite (bind_normal _ _ _ _ _ H1).
  rewrite (bind_normal _ _ _ _ _ (with_session_get a1)).
  cbn [app_session a1]. rewrite Hp.
  rewrite (bind_normal (ret (Some p)) _ a1 (Some p) a1 eq_refl).
  rewrite (bind_normal _ _ _ _ _ (with_session_get a1)).
  by rewrite (bind_raised _ _ _ _ _ Hbar1).
Qed.

(** The processing branch of [main] without a processor in the session. *)
Lemma main_process_without_processor env uenv v a :
  ss_processor (app_session a) = None ∨ ss_processor (app_session a) = Some None ->
  let s := app_session a in
  ∃ a',
    match config_at_hand env s with
    | Raised e =>
        main_process env uenv v a = (Raised e, a') ∧ app_session a' = s
        ∧ ss_config s = None ∧ load_config env "config/config.yaml" = Raised e
    | Normal c =>
        match fst (display_progress env a) with
        | Raised e =>
            main_process env uenv v a = (Raised e, a')
            ∧ ss_processing_stages (app_session a') = ss_processing_stages s
            ∧ ss_results (app_session a') = ss_results s
        | Normal _ =>
            main_process env uenv v a = (Normal tt, a')
            ∧ ss_processing_stages (app_session a')
              = Some (stages_at true false false)
            ∧ is_Some (ss_results (app_session a'))
            ∧ (∀ q, ss_progress (app_session a') = Some q ->
                    complete q = true ∧ message q = "処理完了")
            ∧ (recreated_processor env s = None ->
               ss_results (app_session a') = Some [])
        end
    end.
Proof.
  intros Habsent s. destruct a as [s0 h l pg]. cbn [app_session] in *. subst s.
  destruct (handle_image_upload_run uenv (uploaded v) l) as [l' Hup].
  set (a1 := {| app_session := s0; app_history := h; app_log := l'; app_page := pg |}).
  assert (H1 : with_log (handle_image_upload uenv (uploaded v))
                 {| app_session := s0; app_history := h; app_log := l; app_page := pg |}
               = (Normal (saved_paths uenv (uploaded v)), a1)).
  { unfold with_log. cbn [app_log app_session app_history app_page]. by rewrite Hup. }
  unfold main_process.
  rewrite (bind_normal _ _ _ _ _ H1).
  rewrite (bind_normal _ _ _ _ _ (with_session_get a1)).
  cbn [app_session a1].
  set (acquire :=
         do config_manager <- with_session (get_config_manager env);
         do p <- with_session (create_processor env (Some config_manager));
         do_ with_session (set_session_value (set_processor p));
         ret p).
  assert (match ss_processor s0 with
          | Some (Some p) => ret (Some p)
          | _ => acquire
          end = acquire) as ->.
  { by destruct Habsent as [-> | ->]. }
  pose proof (get_config_manager_run env s0) as Hcfg.
  unfold recreated_processor.
  destruct (config_at_hand env s0) as [c|e] eqn:Hc.
  2: { exists a1.
       assert (acquire a1 = (Raised e, a1)) as Hacq.
       { unfold acquire. apply bind_raised. unfold with_session.
         cbn [app_session a1]. by rewrite Hcfg. }
       rewrite (bind_raised _ _ _ _ _ Hacq). split; [done|]. split; [done|].
       unfold config_at_hand in Hc. by destruct (ss_config s0). }
  set (s1 := match ss_config s0 with Some _ => s0 | None => set_config c s0 end)
    in *.
  set (built := match build_processor env c (default true (ss_use_cache s0)) with
                | Normal (Some p) => Some p
                | _ => None
                end).
  assert (Hs1 : ss_use_cache s1 = ss_use_cache s0 ∧ ss_config s1 = Some c
                ∧ ss_progress s1 = ss_progress s0).
  { unfold s1, config_at_hand in *. destruct (ss_config s0) eqn:E; [|done].
    injection Hc as ->. by rewrite E. }
  destruct Hs1 as (Hcache1 & Hconf1 & Hprog1).
  set (a2 := {| app_session := set_processor built s1; app_history := h;
                app_log := l'; app_page := pg |}).
  assert (acquire a1 = (Normal built, a2)) as Hacq.
  { unfold acquire.
    erewrite bind_normal; last first.
    { unfold with_session. cbn [app_session a1]. rewrite Hcfg. reflexivity. }
    erewrite bind_normal; last first.
    { unfold with_session, create_processor, try_except, bind, get, lift_outcome, ret.
      cbn [app_session app_history app_log app_page]. rewrite Hcache1.
      instantiate (2 := built). unfold built.
      destruct (build_processor env c (default true (ss_use_cache s0))) as [[p|]|e];
        reflexivity. }
    rewrite (bind_normal _ _ _ _ _ (with_session_set _ _)). reflexivity. }
  rewrite (bind_normal _ _ _ _ _ Hacq).
  rewrite (bind_normal _ _ _ _ _ (with_session_get a2)).
  cbn [app_session a2].
  assert (fst (display_progress env
                 {| app_session := s0; app_history := h; app_log := l;
                    app_page := pg |})
          = fst (display_progress env a2)) as ->.
  { symmetry. apply display_progress_ext. cbn [app_session a2 ss_progress
                                                 set_processor]. exact Hprog1. }
  pose proof (display_progress_run env a2) as Hbar.
  destruct (fst (display_progress env a2)) as [[]|ebar].
  2: { exists a2. rewrite (bind_raised _ _ _ _ _ Hbar). split; [done|].
       cbn [app_session a2 ss_processing_stages ss_results set_processor].
       unfold s1. by destruct (ss_config s0). }
  rewrite (bind_normal _ _ _ _ _ Hbar).
  match goal with
  | |- context [with_world ?c] =>
      destruct (with_world_frame c a2) as (o & w' & Hrun & Hww)
  end.
  cbn [app_session app_history a2] in Hrun.
  match type of Hrun with
  | process_images _ _ ?paths ?st ?cp ?uc ?w = _ =>
      destruct (process_images_frame_run env built paths st cp uc w)
        as (results & w'' & Hrun' & Hsame & _ & Hnone)
  end.
  rewrite Hrun in Hrun'. injection Hrun' as -> ->.
  rewrite (bind_normal _ _ _ _ _ Hww).
  rewrite (bind_normal _ _ _ _ _ (with_session_set _ _)).
  rewrite (bind_normal _ _ _ _ _ (with_session_set _ _)).
  cbn [app_session app_history app_log app_page a2].
  match goal with
  | |- ∃ a', _ ?a3 = _ ∧ _ => destruct (finish_progress_run a3)
        as (a' & Hfin & Hq' & Hr' & Hst' & Hp')
  end.
  exists a'. split; [exact Hfin|].
  cbn [app_session ss_results ss_processing_stages ss_processor ss_progress
       set_results set_processing_stages] in Hq', Hr', Hst', Hp'.
  rewrite Hr', Hst', Hq'.
  split; [done|]. split; [by eexists|].
  assert (recreated_processor env (set_processor built s1) = built) as Hagain.
  { unfold recreated_processor, config_at_hand.
    cbn [ss_config ss_use_cache set_processor]. by rewrite Hconf1, Hcache1. }
  split.
  { intros q. destruct (ss_progress (session_of w'')) as [q2|]; [|done].
    by intros [= <-]. }
  intros Hb. fold built in Hb.
  cbn [session_of] in Hnone.
  destruct (Hnone Hb) as (-> & _); [by rewrite Hagain|done].
Qed.

(** X21. What the process button does, whatever the session holds. With
    files in the uploader and the processing stage open, a run of [main]
    with the button pressed either raises or returns normally. It raises
    only in two cases: no processor and no configuration are in the
    session and the configuration file cannot be loaded, or the progress
    entry has a positive total and drawing the progress bar raises; the
    stage flags are then all reset and the stored results untouched. When
    it returns normally the processing stage is done, a list of results
    is stored and the progress entry, if any, is complete; when no
    processor is in the session and none can be built, that list is empty
    although images were uploaded. *)
Theorem process_button_outcome :
  ∀ (env : environment) (uenv : upload_environment) (v : visit) (a : app_state),
  list_nonempty (uploaded v) = true ->
  process_pressed v = true ->
  stage_flag processing_done false (ss_processing_stages (app_session a)) = false ->
  let s := app_session a in
  let absent := ss_processor s = None ∨ ss_processor s = Some None in
  let a' := snd (main_stages env uenv v a) in
  match fst (main_stages env uenv v a) with
  | Raised e =>
      ((absent ∧ ss_config s = None
        ∧ load_config env "config/config.yaml" = Raised e)
       ∨ (∃ q, ss_progress s = Some q ∧ 0 < total q
               ∧ draw_progress env q = Raised e))
      ∧ ss_processing_stages (app_session a') = Some (stages_at false false false)
      ∧ ss_results (app_session a') = ss_results s
  | Normal _ =>
      ss_processing_stages (app_session a') = Some (stages_at true false false)
      ∧ is_Some (ss_results (app_session a'))
      ∧ (∀ q, ss_progress (app_session a') = Some q ->
              complete q = true ∧ message q = "処理完了")
      ∧ (absent -> recreated_processor env s = None ->
         ss_results (app_session a') = Some [])
  end.
Proof.
  intros env uenv v a Hup Hpress Hpd s absent a'. subst a'.
  rewrite (main_stages_processing env uenv v a Hup Hpd), Hpress.
  set (a0 := {| app_session := set_processing_stages (stages_at false false false)
                                 (app_session a);
                app_history := app_history a; app_log := app_log a;
                app_page := app_page a |}).
  assert (fst (display_progress env a0) = fst (display_progress env a)) as Hbar0
    by (by apply display_progress_ext).
  assert (config_at_hand env (app_session a0) = config_at_hand env s) as Hc by done.
  assert (recreated_processor env (app_session a0) = recreated_processor env s)
    as Hr by done.
  assert (∀ a1 a2 e,
            main_process env uenv v a0 = (Raised e, a1) ->
            fst (display_progress env a0) = Raised e ->
            ss_processing_stages (app_session a1)
              = ss_processing_stages (app_session a0) ->
            ss_results (app_session a1) = ss_results (app_session a0) ->
            a2 = a1 ->
            (∃ q, ss_progress s = Some q ∧ 0 < total q
                  ∧ draw_progress env q = Raised e)
            ∧ ss_processing_stages (app_session a2)
              = Some (stages_at false false false)
            ∧ ss_results (app_session a2) = ss_results s) as Hraised.
  { intros a1 a2 e _ Hbar Hst Hres ->. rewrite Hbar0 in Hbar.
    split; [by apply display_progress_raised|]. by rewrite Hst, Hres. }
  destruct (ss_processor s) as [[p|]|] eqn:Hproc.
  - destruct (fst (display_progress env a0)) as [[]|e] eqn:Hbar.
    + destruct (main_process_run env uenv v a0 p Hproc Hbar)
        as (a' & -> & Hres & Hst & _ & Hq & _).
      cbn [fst snd]. split; [exact Hst|]. split; [by eexists|]. split; [exact Hq|].
      subst absent. by intros [?|?].
    + destruct (main_process_bar_raised env uenv v a0 p e Hproc Hbar)
        as (a' & Hrun & Hs).
      rewrite Hrun. cbn [fst snd].
      destruct (Hraised a' a' e Hrun eq_refl) as (H1 & H2 & H3);
        [by rewrite Hs..|done|].
      split; [by right|]. by split.
  - destruct (main_process_without_processor env uenv v a0) as [a' Hrun];
      [by right|].
    cbv zeta in Hrun. rewrite Hc, Hr in Hrun.
    destruct (config_at_hand env s) as [c|e].
    + destruct (fst (display_progress env a0)) as [[]|e] eqn:Hbar.
      * destruct Hrun as (-> & Hst & Hres & Hq & Hnone). cbn [fst snd].
        split; [exact Hst|]. split; [exact Hres|]. split; [exact Hq|].
        intros _. exact Hnone.
      * destruct Hrun as (Hrun & Hst & Hres). rewrite Hrun. cbn [fst snd].
        destruct (Hraised a' a' e Hrun eq_refl Hst Hres eq_refl) as (H1 & H2 & H3).
        split; [by right|]. by split.
    + destruct Hrun as (-> & Hs & Hconf & Hload). cbn [fst snd]. rewrite Hs.
      split; [left; split; [by right|by split]|]. by split.
  - destruct (main_process_without_processor env uenv v a0) as [a' Hrun];
      [by left|].
    cbv zeta in Hrun. rewrite Hc, Hr in Hrun.
    destruct (config_at_hand env s) as [c|e].
    + destruct (fst (display_progress env a0)) as [[]|e] eqn:Hbar.
      * destruct Hrun as (-> & Hst & Hres & Hq & Hnone). cbn [fst snd].
        split; [exact Hst|]. split; [exact Hres|]. split; [exact Hq|].
        intros _. exact Hnone.
      * destruct Hrun as (Hrun & Hst & Hres). rewrite Hrun. cbn [fst snd].
        destruct (Hraised a' a' e Hrun eq_refl Hst Hres eq_refl) as (H1 & H2 & H3).
        split; [by right|]. by split.
    + destruct Hrun as (-> & Hs & Hconf & Hload). cbn [fst snd]. rewrite Hs.
      split; [left; split; [by left|by split]|]. by split.
Qed.

Lemma process_button_outcome_witness :
  let v := {| uploaded := mixed_uploads; process_pressed := true;
              selection := pick_second |} in
  let s := app_session new_app in
  let absent := ss_processor s = None ∨ ss_processor s = Some None in
  let a' := snd (main_stages bare_environment working_storage v new_app) in
  match fst (main_stages bare_environment working_storage v new_app) with
  | Raised e =>
      ((absent ∧ ss_config s = None
        ∧ load_config bare_environment "config/config.yaml" = Raised e)
       ∨ (∃ q, ss_progress s = Some q ∧ 0 < total q
               ∧ draw_progress bare_environment q = Raised e))
      ∧ ss_processing_stages (app_session a') = Some (stages_at false false false)
      ∧ ss_results (app_session a') = ss_results s
  | Normal _ =>
      ss_processing_stages (app_session a') = Some (stages_at true false false)
      ∧ is_Some (ss_results (app_session a'))
      ∧ (∀ q, ss_progress (app_session a') = Some q ->
              complete q = true ∧ message q = "処理完了")
      ∧ (absent -> recreated_processor bare_environment s = None ->
         ss_results (app_session a') = Some [])
  end.
Proof.
  apply (process_button_outcome bare_environment working_storage
           {| uploaded := mixed_uploads; process_pressed := true;
              selection := pick_second |} new_app); reflexivity.
Defined.

(** Where no processor can be built, two valid images and the button
    leave an empty list of results and the processing stage done. *)
Example process_button_without_template_file :
  let a' := snd (main_stages bare_environment working_storage
                   {| uploaded := mixed_uploads; process_pressed := true;
                      selection := pick_second |} new_app) in
  ss_results (app_session a') = Some []
  ∧ ss_processing_stages (app_session a') = Some (stages_at true false false)
  ∧ ss_processor (app_session a') = Some None.
Proof. vm_compute. by repeat split. Qed.


(** Where the progress entry stands at -1 of 5 and the bar refuses it, the
    button raises before anything is processed or stored. *)
Example process_button_bar_refused :
  let r := main_stages strict_bar_environment working_storage
             {| uploaded := mixed_uploads; process_pressed := true;
                selection := pick_second |} ready_app_below_zero in
  fst r = Raised (Exception "Progress Value has invalid value [0.0, 1.0]")
  ∧ ss_results (app_session (snd r)) = ss_results (app_session ready_app_below_zero)
  ∧ ss_processing_stages (app_session (snd r)) = Some (stages_at false false false)
  ∧ app_history (snd r) = [].
Proof. vm_compute. by repeat split. Qed.

(** ** The names of the saved uploads *)

Lemma occurs_app c a b : occurs c (a +:+ b) = occurs c a || occurs c b.
Proof.
  induction a as [|x a IH]; [done|].
  change (Ascii.eqb x c || occurs c (a +:+ b)
          = (Ascii.eqb x c || occurs c a) || occurs c b).
  by rewrite IH, orb_assoc.
Qed.

Lemma append_assoc (a b c : string) : (a +:+ b) +:+ c = a +:+ (b +:+ c).
Proof.
  induction a as [|x a IH]; [done|].
  change (String x ((a +:+ b) +:+ c) = String x (a +:+ (b +:+ c))).
  by rewrite IH.
Qed.

Lemma append_nil_r (a : string) : a +:+ "" = a.
Proof.
  induction a as [|x a IH]; [done|].
  change (String x (a +:+ "") = String x a). by rewrite IH.
Qed.

Lemma append_cancel_l (q a b : string) : q +:+ a = q +:+ b -> a = b.
Proof.
  induction q as [|x q IH]; [done|].
  change (String x (q +:+ a) = String x (q +:+ b) -> a = b).
  intros [= H]. by apply IH.
Qed.

Lemma append_split_at c p1 p2 r1 r2 :
  occurs c p1 = false -> occurs c p2 = false ->
  p1 +:+ String c r1 = p2 +:+ String c r2 -> p1 = p2 ∧ r1 = r2.
Proof.
  revert p2. induction p1 as [|x p1 IH]; intros [|y p2]; simpl.
  - by intros _ _ [= ->].
  - intros _ Hy [= <- _]. rewrite Ascii.eqb_refl in Hy. done.
  - intros Hx _ [= -> _]. rewrite Ascii.eqb_refl in Hx. done.
  - intros Hx Hy [= -> H].
    apply orb_false_iff in Hx as [_ Hx]. apply orb_false_iff in Hy as [_ Hy].
    destruct (IH p2 Hx Hy H) as [-> ->]. done.
Qed.

Lemma split_on_nonempty sep s : split_on sep s ≠ [].
Proof.
  destruct s as [|c s]; [done|]. simpl.
  destruct (Ascii.eqb c sep); [done|]. by destruct (split_on sep s).
Qed.

Lemma split_on_without sep s : occurs sep s = false -> split_on sep s = [s].
Proof.
  induction s as [|c s IH]; [done|]. simpl. intros H.
  apply orb_false_iff in H as [-> H]. by rewrite (IH H).
Qed.

Lemma split_on_app sep a b :
  split_on sep (a +:+ String sep b) = split_on sep a ++ split_on sep b.
Proof.
  induction a as [|c a IH]; simpl.
  - by rewrite Ascii.eqb_refl.
  - destruct (Ascii.eqb c sep); [by rewrite IH|]. rewrite IH.
    pose proof (split_on_nonempty sep a). by destruct (split_on sep a).
Qed.

Lemma path_parts_app a b :
  path_parts (a +:+ String slash b) = path_parts a ++ path_parts b.
Proof. unfold path_parts. by rewrite split_on_app, filter_app. Qed.

Lemma path_parts_plain name : plain_name name -> path_parts name = [name].
Proof.
  intros (Hs & H1 & H2). unfold path_parts. rewrite split_on_without by done.
  rewrite filter_cons_True by done. done.
Qed.

Lemma path_parts_plain_app a name :
  plain_name name -> path_parts (a +:+ String slash name) = path_parts a ++ [name].
Proof. intros H. by rewrite path_parts_app, (path_parts_plain name H). Qed.

Lemma leading_slashes_app a name1 name2 :
  plain_name name1 -> plain_name name2 ->
  leading_slashes (a +:+ String slash name1)
  = leading_slashes (a +:+ String slash name2).
Proof.
  intros (Hs1 & H1 & _) (Hs2 & H2 & _).
  induction a as [|c a IH]; simpl.
  - destruct name1 as [|c1 n1]; [done|]. destruct name2 as [|c2 n2]; [done|].
    simpl in *. apply orb_false_iff in Hs1 as [-> _].
    apply orb_false_iff in Hs2 as [-> _]. done.
  - destruct (Ascii.eqb c slash); [by rewrite IH|done].
Qed.

(** The text in front of the last component of a joined path. *)
Lemma join_with_snoc sep ws :
  ∃ q, (ws = [] -> q = "") ∧ (ws ≠ [] -> ∃ q', q = q' +:+ sep)
       ∧ ∀ name, join_with sep (ws ++ [name]) = q +:+ name.
Proof.
  induction ws as [|w ws (q & Hnil & Hcons & IH)].
  - exists "". by repeat split.
  - exists (w +:+ sep +:+ q). split; [done|]. split.
    + intros _. destruct ws as [|w' ws'].
      * rewrite Hnil by done. exists w. by rewrite append_nil_r.
      * destruct Hcons as [q' ->]; [done|]. exists (w +:+ sep +:+ q').
        by rewrite !append_assoc.
    + intros name. cbn [app join_with].
      destruct (ws ++ [name]) as [|x xs] eqn:E; [by destruct ws|].
      rewrite <- E, IH. by rewrite !append_assoc.
Qed.

(** [str(Path(a) / name)] for a plain [name] is [name] behind a text
    that depends on [a] alone and is empty or ends with a slash. *)
Lemma path_join_shape a :
  ∃ q, (q = "" ∨ ∃ q', q = q' +:+ "/")
       ∧ ∀ name, plain_name name -> path_join a name = q +:+ name.
Proof.
  destruct (join_with_snoc "/" (path_parts a)) as (q & Hnil & Hcons & Hjoin).
  exists (path_root a +:+ q). split.
  - destruct (path_parts a) as [|w ws] eqn:E.
    + rewrite Hnil by done. unfold path_root.
      destruct (leading_slashes a) as [|[|[|n]]]; [by left|right..].
      * by exists "".
      * by exists "/".
      * by exists "".
    + destruct Hcons as [q' ->]; [done|]. right.
      eexists. by rewrite <- append_assoc.
  - intros name Hname. unfold path_join.
    assert (leading_slashes name = 0%nat) as ->.
    { destruct Hname as (Hs & H1 & _). destruct name as [|c n]; [done|].
      simpl in *. by apply orb_false_iff in Hs as [-> _]. }
    rewrite bool_decide_eq_true_2 by done.
    rewrite (path_parts_plain name Hname), Hjoin. cbv zeta.
    destruct (bool_decide (path_root a = "")) eqn:Hroot.
    + apply bool_decide_eq_true_1 in Hroot. rewrite Hroot.
      rewrite bool_decide_eq_false_2; [done|].
      destruct Hname as (_ & H1 & _). by destruct q.
    + by rewrite append_assoc.
Qed.

Lemma path_name_behind q name :
  q = "" ∨ (∃ q', q = q' +:+ "/") -> plain_name name ->
  path_name (q +:+ name) = name.
Proof.
  intros [->|[q' ->]] Hname; unfold path_name.
  - by rewrite path_parts_plain.
  - rewrite append_assoc.
    assert ("/" +:+ name = String slash name) as -> by done.
    rewrite path_parts_plain_app by done.
    by rewrite last_app_default.
Qed.

Lemma pretty_N_go_without c x :
  (∀ d, pretty_N_char d ≠ c) ->
  ∀ s, occurs c s = false -> occurs c (pretty_N_go x s) = false.
Proof.
  intros Hc. induction (N.lt_wf_0 x) as [x _ IH]; intros s Hs.
  assert (x = 0 ∨ 0 < x)%N as [->|Hpos] by lia.
  - by rewrite pretty_N_go_0.
  - rewrite pretty_N_go_step by done. apply IH.
    { by apply N.div_lt. }
    cbn [occurs]. rewrite Hs, orb_false_r.
    apply Ascii.eqb_neq, Hc.
Qed.

Lemma pretty_nat_without c (n : nat) :
  (∀ d, pretty_N_char d ≠ c) -> occurs c (pretty n) = false.
Proof.
  intros Hc. unfold pretty, pretty_nat, pretty, pretty_N.
  destruct (decide (N.of_nat n = 0%N)).
  - cbn [occurs]. rewrite orb_false_r. apply Ascii.eqb_neq.
    apply (Hc 0%N).
  - by apply pretty_N_go_without.
Qed.

Lemma no_digit_is_slash d : pretty_N_char d ≠ slash.
Proof. unfold pretty_N_char. by repeat case_match. Qed.

Lemma no_digit_is_dot d : pretty_N_char d ≠ dot.
Proof. unfold pretty_N_char. by repeat case_match. Qed.

Lemma safe_filename_plain i file_ext :
  file_ext ∈ accepted_extensions -> plain_name (safe_filename_of i file_ext).
Proof.
  intros Hext. unfold plain_name, safe_filename_of. split; [|done].
  rewrite !occurs_app, (pretty_nat_without slash) by apply no_digit_is_slash.
  unfold accepted_extensions in Hext.
  repeat (apply elem_of_cons in Hext as [->|Hext]; [done|]).
  by apply not_elem_of_nil in Hext.
Qed.

Lemma safe_filename_inj i j ext1 ext2 :
  ext1 ∈ accepted_extensions -> ext2 ∈ accepted_extensions ->
  safe_filename_of i ext1 = safe_filename_of j ext2 -> i = j ∧ ext1 = ext2.
Proof.
  intros H1 H2 Heq. unfold safe_filename_of in Heq.
  apply (append_cancel_l "styleimg_") in Heq.
  assert (∀ e, e ∈ accepted_extensions -> ∃ r, e = String dot r) as Hdot.
  { intros e He. unfold accepted_extensions in He.
    repeat (apply elem_of_cons in He as [->|He]; [by eexists|]).
    by apply not_elem_of_nil in He. }
  destruct (Hdot _ H1) as [r1 ->]. destruct (Hdot _ H2) as [r2 ->].
  apply append_split_at in Heq as [Hp ->];
    [|by apply pretty_nat_without, no_digit_is_dot..].
  apply (inj pretty) in Hp. split; [lia|done].
Qed.

Lemma temp_path_of_name env i file_ext :
  temp_path_of env i file_ext = path_join (temp_dir env) (safe_filename_of i file_ext).
Proof. done. Qed.

Lemma upload_slots_names env uploaded_files :
  ∀ i0 p, p ∈ upload_slots env i0 uploaded_files ->
  ∃ (i : nat) file,
    uploaded_files !! i = Some file
    ∧ lower (path_suffix (file_name file)) ∈ accepted_extensions
    ∧ p = temp_path_of env (i0 + i) (lower (path_suffix (file_name file))).
Proof.
  intros i0 p Hp.
  destruct (upload_slots_elem env uploaded_files i0 p Hp) as (i & file & Hi & Hk & ->).
  exists i, file. split; [done|]. split; [|done].
  by destruct (kept_true env (i0 + i) file Hk) as (? & _).
Qed.

Lemma upload_slots_NoDup env uploaded_files :
  ∀ i0, NoDup (upload_slots env i0 uploaded_files)
        ∧ NoDup (path_name <$> upload_slots env i0 uploaded_files).
Proof.
  destruct (path_join_shape (temp_dir env)) as (q & Hq & Hshape).
  assert (∀ i ext, ext ∈ accepted_extensions ->
            path_name (temp_path_of env i ext) = safe_filename_of i ext) as Hname.
  { intros i ext Hext. rewrite temp_path_of_name, Hshape
      by (by apply safe_filename_plain).
    by apply path_name_behind, safe_filename_plain. }
  induction uploaded_files as [|file rest IH]; intros i0.
  { split; constructor. }
  cbn [upload_slots]. unfold upload_slot.
  destruct (kept env i0 file) eqn:Hk; [|apply IH].
  destruct (kept_true env i0 file Hk) as (Hext & _).
  assert (∀ p, p ∈ upload_slots env (S i0) rest ->
            path_name p
            ≠ path_name (temp_path_of env i0 (lower (path_suffix (file_name file)))))
    as Hfresh.
  { intros p Hp Heq.
    destruct (upload_slots_names env rest (S i0) p Hp) as (i & f & _ & Hf & ->).
    rewrite !Hname in Heq by done.
    apply safe_filename_inj in Heq as [? _]; [lia|done..]. }
  destruct (IH (S i0)) as [IH1 IH2].
  cbn [app fmap list_fmap]. split; constructor; try done.
  - intros Hin. by apply (Hfresh _ Hin).
  - intros Hin. apply list_elem_of_fmap in Hin as (p & Heq & Hp).
    by apply (Hfresh p Hp).
Qed.

(** X22. The paths [handle_image_upload] returns are pairwise distinct,
    and so are their file names (the names under which [process_images]
    reports and tags them): the file kept for the upload at position [i]
    is named [styleimg_{i+1}] followed by its lowered extension, whatever
    the uploads are called, so that no kept upload overwrites another. *)
Theorem handle_image_upload_paths_distinct :
  ∀ (env : upload_environment) (uploaded_files : list UploadedFile) (l : log),
  ∃ image_paths l',
    handle_image_upload env uploaded_files l = (Normal image_paths, l')
    ∧ NoDup image_paths
    ∧ NoDup (path_name <$> image_paths)
    ∧ Forall (fun p =>
                ∃ (i : nat) file,
                  uploaded_files !! i = Some file
                  ∧ path_name p
                    = "styleimg_" +:+ pretty (i + 1)%nat
                      +:+ lower (path_suffix (file_name file)))
             image_paths.
Proof.
  intros env uploaded_files l.
  destruct (handle_image_upload_run env uploaded_files l) as [l' Hrun].
  exists (saved_paths env uploaded_files), l'. split; [exact Hrun|].
  unfold saved_paths. destruct (make_temp_dir env).
  2: { repeat split; constructor. }
  destruct (upload_slots_NoDup env uploaded_files 0%nat) as [H1 H2].
  split; [done|]. split; [done|].
  apply Forall_forall. intros p Hp.
  destruct (upload_slots_names env uploaded_files 0%nat p Hp)
    as (i & file & Hi & Hext & ->).
  exists i, file. split; [done|].
  destruct (path_join_shape (temp_dir env)) as (q & Hq & Hshape).
  rewrite temp_path_of_name, Hshape by (by apply safe_filename_plain).
  by apply path_name_behind, safe_filename_plain.
Qed.

(** [Path(a) / b] under a root, under an empty path, and for an absolute
    [b]. *)
Example path_join_under_a_root :
  path_join "/" "hairstyle_analyzer" = "/hairstyle_analyzer"
  ∧ path_join "//" "hairstyle_analyzer" = "//hairstyle_analyzer"
  ∧ path_join "///" "hairstyle_analyzer" = "/hairstyle_analyzer"
  ∧ path_join "" "hairstyle_analyzer" = "hairstyle_analyzer"
  ∧ path_join "temp/" "hairstyle_analyzer" = "temp/hairstyle_analyzer"
  ∧ path_join "temp" "/srv/img" = "/srv/img"
  ∧ path_join (path_join "/" "hairstyle_analyzer") "styleimg_1.jpg"
    = "/hairstyle_analyzer/styleimg_1.jpg".
Proof. vm_compute. by repeat split. Qed.

(** Two uploads of the same name are kept under different names. *)
Example same_name_twice :
  fst (handle_image_upload working_storage
         [{| file_name := "photo.jpg"; file_buffer := [Byte.xff; Byte.xd8] |};
          {| file_name := "photo.jpg"; file_buffer := [Byte.xff; Byte.xd9] |}] [])
  = Normal ["temp/hairstyle_analyzer/styleimg_1.jpg";
            "temp/hairstyle_analyzer/styleimg_2.jpg"].
Proof. vm_compute. reflexivity. Qed.

(** ** From the uploads to the displayed results *)

Lemma finish_progress_session a :
  ∃ a',
    (do present <- with_session (has_session_key ss_progress);
     if present then
       with_world (do_ mutate_progress (set_complete true);
                   do_ mutate_progress (set_message "処理完了");
                   restore_progress)
     else ret tt) a = (Normal tt, a')
    ∧ same_outside_batch (app_session a) (app_session a')
    ∧ app_page a' = app_page a.
Proof.
  rewrite (bind_normal _ _ _ _ _ (with_session_has ss_progress a)).
  destruct a as [s h l pg]. cbn [app_session].
  destruct (ss_progress s) as [q|] eqn:Hq.
  - rewrite bool_decide_eq_true_2 by eauto.
    unfold with_world, bind, mutate_progress, modify, restore_progress, ret.
    cbn [app_session app_history app_log app_page session_of history].
    rewrite Hq. cbn [session_of history ss_progress set_progress].
    eexists. split; [reflexivity|]. by repeat split.
  - rewrite bool_decide_eq_false_2 by (intros [? ?]; congruence).
    eexists. split; [reflexivity|]. split; [apply same_outside_batch_refl|done].
Qed.

(** The processing branch leaves the selection dicts, the confirmation
    flag and the page alone. *)
Lemma main_process_keeps_selection env uenv v a p :
  ss_processor (app_session a) = Some (Some p) ->
  fst (display_progress env a) = Normal tt ->
  let a' := snd (main_process env uenv v a) in
  ss_template_choices (app_session a') = ss_template_choices (app_session a)
  ∧ ss_user_selections (app_session a') = ss_user_selections (app_session a)
  ∧ ss_confirm_template_selections (app_session a')
    = ss_confirm_template_selections (app_session a)
  ∧ app_page a' = app_page a.
Proof.
  intros Hp Hbar. cbv zeta. destruct a as [s0 h l pg].
  cbn [app_session app_page] in *.
  destruct (handle_image_upload_run uenv (uploaded v) l) as [l' Hup].
  set (a1 := {| app_session := s0; app_history := h; app_log := l'; app_page := pg |}).
  assert (H1 : with_log (handle_image_upload uenv (uploaded v))
                 {| app_session := s0; app_history := h; app_log := l; app_page := pg |}
               = (Normal (saved_paths uenv (uploaded v)), a1)).
  { unfold with_log. cbn [app_log app_session app_history app_page]. by rewrite Hup. }
  assert (Hbar1 : display_progress env a1 = (Normal tt, a1)).
  { rewrite display_progress_run. f_equal. rewrite <- Hbar.
    by apply display_progress_ext. }
  unfold main_process.
  rewrite (bind_normal _ _ _ _ _ H1).
  rewrite (bind_normal _ _ _ _ _ (with_session_get a1)).
  cbn [app_session a1]. rewrite Hp.
  rewrite (bind_normal (ret (Some p)) _ a1 (Some p) a1 eq_refl).
  rewrite (bind_normal _ _ _ _ _ (with_session_get a1)).
  cbn [app_session a1].
  rewrite (bind_normal _ _ _ _ _ Hbar1).
  match goal with
  | |- context [with_world ?c] =>
      destruct (with_world_frame c a1) as (o & w' & Hrun & Hww)
  end.
  cbn [app_session app_history a1] in Hrun.
  match type of Hrun with
  | process_images _ _ ?paths ?st ?cp ?uc ?w = _ =>
      destruct (process_images_frame_run env (Some p) paths st cp uc w)
        as (results & w'' & Hrun' & Hsame & _)
  end.
  rewrite Hrun in Hrun'. injection Hrun' as -> ->.
  rewrite (bind_normal _ _ _ _ _ Hww).
  rewrite (bind_normal _ _ _ _ _ (with_session_set _ _)).
  rewrite (bind_normal _ _ _ _ _ (with_session_set _ _)).
  cbn [app_session app_history app_log app_page a1].
  match goal with
  | |- context [snd (_ ?a3)] => destruct (finish_progress_session a3)
        as (a' & -> & Hfin & Hpage)
  end.
  cbn [snd app_session app_page] in *.
  destruct Hsame as (_ & _ & _ & _ & _ & _ & Htc & Hus & Hcf).
  destruct Hfin as (_ & _ & _ & _ & _ & _ & Htc' & Hus' & Hcf').
  cbn [session_of ss_template_choices ss_user_selections
       ss_confirm_template_selections set_results set_processing_stages]
    in Htc, Hus, Hcf, Htc', Hus', Hcf'.
  by rewrite Htc', Hus', Hcf', Htc, Hus, Hcf.
Qed.

(** The head of [main_stages] in the display stage. *)
Lemma main_stages_display env uenv v a st :
  ss_processing_stages (app_session a) = Some st ->
  processing_done st = true ->
  template_selection_done st = true ->
  default [] (ss_results (app_session a)) ≠ [] ->
  main_stages env uenv v a
  = (do_ display_results env (default [] (ss_results (app_session a)));
     if negb (results_display_done st) then
       with_session (set_session_value
                       (set_processing_stages (stages_at true true true)))
     else ret tt) a.
Proof.
  intros Hst Hpd Htsd Hres. unfold main_stages.
  rewrite (bind_normal _ _ _ _ _ (with_session_get a)).
  rewrite Hst. cbn [stage_flag from_option]. rewrite Hpd.
  cbn [negb]. rewrite !andb_false_r.
  rewrite (bind_normal (ret tt) _ a tt a eq_refl).
  rewrite (bind_normal _ _ _ _ _ (with_session_get a)).
  rewrite Hst. cbn [stage_flag from_option]. rewrite Hpd, Htsd.
  cbn [negb]. rewrite !andb_false_r.
  destruct (default [] (ss_results (app_session a))) as [|r0 R]; [done|].
  reflexivity.
Qed.

Lemma rows_of_results_objects (objs : list ProcessResult) :
  ∃ rows, rows_of_results (RObj <$> objs) = Normal rows.
Proof.
  induction objs as [|o objs [rows IH]]; [by eexists|].
  rewrite fmap_cons. cbn [rows_of_results row_of_result attr_selected_template
                           attr_image_name].
  rewrite IH. by eexists.
Qed.

Lemma detail_loop_objects (objs : list ProcessResult) :
  ∀ i0 pg, ∃ pg',
    for_enumerate i0 (RObj <$> objs) display_one_detail pg = (Normal tt, pg').
Proof.
  induction objs as [|o objs IH]; intros i0 pg; [by eexists|].
  rewrite fmap_cons. cbn [for_enumerate]. unfold bind.
  destruct (display_one_detail_object i0 o pg) as [pg1 ->]. apply IH.
Qed.

(** The result views of objects never raise. *)
Lemma display_results_objects env (objs : list ProcessResult) a :
  ∃ shown,
    display_results env (RObj <$> objs) a = (Normal tt, shown)
    ∧ view_only a shown.
Proof.
  pose proof (is_view_display_results env (RObj <$> objs) a) as Hview.
  destruct (display_results env (RObj <$> objs) a) as [o shown] eqn:Hrun.
  cbn [snd] in Hview. exists shown. split; [|done]. f_equal.
  destruct objs as [|o0 objs'].
  { unfold display_results, with_page, emit, modify in Hrun. cbn in Hrun.
    by injection Hrun as <- _. }
  destruct (rows_of_results_objects (o0 :: objs')) as [rows Hrows].
  destruct (detail_loop_objects (o0 :: objs') 0%nat
              [Subheader "画像ごとの詳細"]) as [d3 Hd3].
  rewrite fmap_cons in Hrows, Hd3, Hrun.
  unfold display_results in Hrun.
  assert (convert_results_logged (RObj o0 :: (RObj <$> objs')) a
          = (Normal rows,
             {| app_session := app_session a; app_history := app_history a;
                app_log := app_log a; app_page := app_page a ++ (View <$> []) |}))
    as H1.
  { unfold convert_results_logged. rewrite Hrows.
    rewrite (bind_normal (ret tt) _ a tt a eq_refl).
    unfold with_page, convert_results_to_dataframe, try_except, lift_outcome.
    by rewrite Hrows. }
  rewrite (bind_normal _ _ _ _ _ H1) in Hrun.
  assert (∃ d2, display_summary_table rows [] = (Normal tt, d2)) as [d2 Hd2].
  { unfold display_summary_table, bind, emit, modify.
    destruct rows; by eexists. }
  erewrite bind_normal in Hrun; last first.
  { unfold with_page. rewrite Hd2. reflexivity. }
  erewrite bind_normal in Hrun; last first.
  { unfold with_page, display_image_details. unfold bind at 1.
    unfold emit at 1, modify at 1. cbn [app]. rewrite Hd3. reflexivity. }
  match type of Hrun with
  | display_export_buttons env ?a3 = _ =>
      destruct (display_export_buttons_normal env a3) as [a4 H4]
  end.
  rewrite H4 in Hrun. by injection Hrun as <- _.
Qed.

(** A run of [main] in the selection stage on valid choices with the
    button pressed. *)
Lemma main_stages_confirm_run env uenv v a st (objs : list ProcessResult) :
  ss_processing_stages (app_session a) = Some st ->
  processing_done st = true ->
  template_selection_done st = false ->
  ss_results (app_session a) = Some (RObj <$> objs) ->
  objs ≠ [] ->
  NoDup (image_name <$> objs) ->
  confirm_pressed (selection v) = true ->
  Forall (fun o =>
            Forall is_Some (shown_templates (app_session a) o)
            ∧ 0 ≤ radio_index (selection v) (app_session a) o
            ∧ radio_index (selection v) (app_session a) o
              < Z.of_nat (length (shown_templates (app_session a) o)))
         objs ->
  ∃ s',
    main_stages env uenv v a
    = (Normal tt,
       {| app_session :=
            set_confirm_template_selections false
              (set_processing_stages (stages_at true true false)
                 (set_results
                    (RObj <$> (confirmed_choice (selection v) (app_session a) <$> objs))
                    s'));
          app_history := app_history a; app_log := app_log a;
          app_page := app_page a |}).
Proof.
  intros Hst Hpd Htsd Hres Hne Hdup Hpress Hok.
  assert (RObj <$> objs ≠ []) as Hne' by (by destruct objs).
  rewrite (main_stages_selection env uenv v a st Hst Hpd Htsd)
    by (by rewrite Hres).
  rewrite Hres. cbn [default from_option id].
  destruct (display_outcome_valid (selection v) objs (app_session a) Hdup Hpress Hok)
    as (s' & Hrun & Hflag & Hsame).
  exists s'.
  assert (with_screen (RObj <$> objs) (display_template_choices (selection v)) a
          = (Normal tt,
             {| app_session :=
                  set_results
                    (RObj <$> (confirmed_choice (selection v) (app_session a) <$> objs))
                    s';
                app_history := app_history a; app_log := app_log a;
                app_page := app_page a |})) as H1.
  { unfold with_screen.
    rewrite (display_template_choices_run _ _ _ Hne'), Hrun. reflexivity. }
  rewrite (bind_normal _ _ _ _ _ H1).
  rewrite (bind_normal _ _ _ _ _ (with_session_get _)).
  cbn [app_session ss_confirm_template_selections set_results].
  rewrite Hflag. cbn [default from_option id].
  rewrite (bind_normal _ _ _ _ _ (with_session_set _ _)).
  by rewrite with_session_set.
Qed.

Lemma confirmed_choice_ext ui s s' o :
  ss_template_choices s' = ss_template_choices s ->
  ss_user_selections s' = ss_user_selections s ->
  shown_templates s' o = shown_templates s o
  ∧ radio_index ui s' o = radio_index ui s o
  ∧ confirmed_choice ui s' o = confirmed_choice ui s o.
Proof.
  intros Htc Hus. unfold confirmed_choice, shown_templates, radio_index.
  by rewrite Htc, Hus.
Qed.

(** X23. The three stages of [main] chain: three runs take uploads to
    displayed results. A run with files in the uploader, a processor in
    the session, the progress bar drawn and the process button pressed,
    whose batch gives objects of pairwise distinct image names, is
    followed by a run with valid choices and the confirmation button, and
    by any third run. All three return normally; the stage flags advance
    by one stage each time, and at the end the session holds every object
    with the template the user chose for it. The third run leaves on the
    page and in the log what [display_results] puts there for these
    objects, which adds to the page and writes at most error entries to
    the log. *)
Theorem uploads_to_displayed_results :
  ∀ (env : environment) (uenv : upload_environment) (v1 v2 v3 : visit)
    (a : app_state) (p : Processor) (objs : list ProcessResult),
  let s := app_session a in
  list_nonempty (uploaded v1) = true ->
  process_pressed v1 = true ->
  stage_flag processing_done false (ss_processing_stages s) = false ->
  ss_processor s = Some (Some p) ->
  progress_bar_drawn env s ->
  flat_map (slot p (Some (default [] (ss_stylists s)))
                 (Some (default [] (ss_coupons s)))
                 (default true (ss_use_cache s)))
           (saved_paths uenv (uploaded v1)) = RObj <$> objs ->
  objs ≠ [] ->
  NoDup (image_name <$> objs) ->
  confirm_pressed (selection v2) = true ->
  Forall (fun o =>
            Forall is_Some (shown_templates s o)
            ∧ 0 ≤ radio_index (selection v2) s o
            ∧ radio_index (selection v2) s o
              < Z.of_nat (length (shown_templates s o)))
         objs ->
  ∃ a1 a2 a3 shown,
    main_stages env uenv v1 a = (Normal tt, a1)
    ∧ main_stages env uenv v2 a1 = (Normal tt, a2)
    ∧ main_stages env uenv v3 a2 = (Normal tt, a3)
    ∧ ss_processing_stages (app_session a1) = Some (stages_at true false false)
    ∧ ss_processing_stages (app_session a2) = Some (stages_at true true false)
    ∧ ss_processing_stages (app_session a3) = Some (stages_at true true true)
    ∧ ss_results (app_session a1) = Some (RObj <$> objs)
    ∧ ss_results (app_session a3)
      = Some (RObj <$> (confirmed_choice (selection v2) s <$> objs))
    ∧ ss_results (app_session a2) = ss_results (app_session a3)
    ∧ display_results env
        (RObj <$> (confirmed_choice (selection v2) s <$> objs)) a2
      = (Normal tt, shown)
    ∧ view_only a2 shown
    ∧ app_page a3 = app_page shown
    ∧ app_log a3 = app_log shown
    ∧ app_history a3 = app_history a2.
Proof.
  intros env uenv v1 v2 v3 a p objs s Hup Hpress Hpd Hp Hbar Hbatch Hne Hdup
    Hconfirm Hok.
  (* first run *)
  rewrite (main_stages_processing env uenv v1 a Hup Hpd), Hpress.
  set (a0 := {| app_session := set_processing_stages (stages_at false false false)
                                 (app_session a);
                app_history := app_history a; app_log := app_log a;
                app_page := app_page a |}).
  pose proof (display_progress_drawn env a0 Hbar) as Hbar0.
  pose proof (main_process_keeps_selection env uenv v1 a0 p Hp Hbar0) as Hkeep.
  destruct (main_process_run env uenv v1 a0 p Hp Hbar0)
    as (a1 & Hrun1 & Hres1 & Hst1 & _).
  cbv zeta in Hkeep. rewrite Hrun1 in Hkeep. cbn [snd] in Hkeep.
  destruct Hkeep as (Htc & Hus & _ & Hpage1).
  cbn [app_session app_page a0 ss_stylists ss_coupons ss_use_cache
       ss_template_choices ss_user_selections set_processing_stages]
    in Hres1, Htc, Hus, Hpage1.
  fold s in Hres1, Htc, Hus. rewrite Hbatch in Hres1.
  (* second run *)
  assert (Hok1 : Forall (fun o =>
            Forall is_Some (shown_templates (app_session a1) o)
            ∧ 0 ≤ radio_index (selection v2) (app_session a1) o
            ∧ radio_index (selection v2) (app_session a1) o
              < Z.of_nat (length (shown_templates (app_session a1) o))) objs).
  { eapply Forall_impl; [exact Hok|]. intros o Ho. cbv beta in Ho |- *.
    destruct (confirmed_choice_ext (selection v2) s (app_session a1) o Htc Hus)
      as (-> & -> & _). done. }
  destruct (main_stages_confirm_run env uenv v2 a1 (stages_at true false false) objs
              Hst1 eq_refl eq_refl Hres1 Hne Hdup Hconfirm Hok1) as [s2 Hrun2].
  assert (confirmed_choice (selection v2) (app_session a1) <$> objs
          = confirmed_choice (selection v2) s <$> objs) as Hsame.
  { apply list_fmap_ext. intros i o _.
    by destruct (confirmed_choice_ext (selection v2) s (app_session a1) o Htc Hus)
      as (_ & _ & ->). }
  rewrite Hsame in Hrun2.
  set (R := RObj <$> (confirmed_choice (selection v2) s <$> objs)) in *.
  set (a2 := {| app_session :=
                  set_confirm_template_selections false
                    (set_processing_stages (stages_at true true false)
                       (set_results R s2));
                app_history := app_history a1; app_log := app_log a1;
                app_page := app_page a1 |}) in *.
  (* third run *)
  assert (R ≠ []) as HR by (subst R; by destruct objs).
  destruct (display_results_objects env
              (confirmed_choice (selection v2) s <$> objs) a2)
    as (shown & Hdraw & Hview). fold R in Hdraw.
  exists a1, a2.
  eexists. exists shown.
  split; [exact Hrun1|]. split; [exact Hrun2|].
  split.
  { rewrite (main_stages_display env uenv v3 a2 (stages_at true true false))
      by done.
    cbn [app_session a2 ss_results set_confirm_template_selections
         set_processing_stages set_results default from_option id].
    rewrite (bind_normal _ _ _ _ _ Hdraw).
    cbn [results_display_done stages_at negb].
    rewrite with_session_set. reflexivity. }
  pose proof Hview as (Hs3 & Hh3 & _ & _).
  cbn [app_session app_page app_log app_history ss_results ss_processing_stages
       set_processing_stages].
  rewrite Hs3.
  cbn [app_session a2 ss_results ss_processing_stages
       set_confirm_template_selections set_processing_stages set_results].
  split; [done|]. split; [done|]. split; [done|]. split; [done|].
  split; [done|]. split; [done|]. split; [exact Hdraw|].
  split; [exact Hview|]. by repeat split.
Qed.

Lemma uploads_to_displayed_results_witness :
  let v1 := {| uploaded := mixed_uploads; process_pressed := true;
               selection := pick_second |} in
  let v2 := {| uploaded := []; process_pressed := false; selection := pick_second |} in
  let v3 := {| uploaded := []; process_pressed := false; selection := pick_beyond |} in
  let s := app_session ready_app in
  ∃ a1 a2 a3 shown,
    main_stages bare_environment working_storage v1 ready_app = (Normal tt, a1)
    ∧ main_stages bare_environment working_storage v2 a1 = (Normal tt, a2)
    ∧ main_stages bare_environment working_storage v3 a2 = (Normal tt, a3)
    ∧ ss_processing_stages (app_session a1) = Some (stages_at true false false)
    ∧ ss_processing_stages (app_session a2) = Some (stages_at true true false)
    ∧ ss_processing_stages (app_session a3) = Some (stages_at true true true)
    ∧ ss_results (app_session a1) = Some (RObj <$> mixed_objects)
    ∧ ss_results (app_session a3)
      = Some (RObj <$> (confirmed_choice (selection v2) s <$> mixed_objects))
    ∧ ss_results (app_session a2) = ss_results (app_session a3)
    ∧ display_results bare_environment
        (RObj <$> (confirmed_choice (selection v2) s <$> mixed_objects)) a2
      = (Normal tt, shown)
    ∧ view_only a2 shown
    ∧ app_page a3 = app_page shown
    ∧ app_log a3 = app_log shown
    ∧ app_history a3 = app_history a2.
Proof.
  apply (uploads_to_displayed_results bare_environment working_storage
           {| uploaded := mixed_uploads; process_pressed := true;
              selection := pick_second |}
           {| uploaded := []; process_pressed := false; selection := pick_second |}
           {| uploaded := []; process_pressed := false; selection := pick_beyond |}
           ready_app steady_processor mixed_objects).
  - reflexivity.
  - reflexivity.
  - reflexivity.
  - reflexivity.
  - intros q _ _. reflexivity.
  - vm_compute. reflexivity.
  - discriminate.
  - apply (bool_decide_unpack _). vm_compute. exact I.
  - reflexivity.
  - repeat constructor; try (eexists; reflexivity); vm_compute; congruence.
Defined.

(** With a processor in the session the display stage offers the two
    downloads. *)
Example display_stage_offers_downloads :
  download_buttons
    (app_page (snd (main_stages bare_environment working_storage
                      {| uploaded := []; process_pressed := false;
                         selection := pick_second |} exporting_app)))
  = [("⬇️ Excelファイルをダウンロード ⬇️",
      inl [Byte.x50; Byte.x4b; Byte.x00; Byte.x00]);
     ("⬇️ テキストファイルをダウンロード ⬇️",
      inr ("styleimg_1.jpg" +:+ nl +:+ "styleimg_2.jpg"))].
Proof. vm_compute. reflexivity. Qed.

(** When the Excel exporter raises, the run still returns normally; the
    failure is logged and shown, and the text download is offered. *)
Example failing_exporter_is_logged :
  let r := main_stages failing_export_environment working_storage
             {| uploaded := []; process_pressed := false;
                selection := pick_second |} exporting_app in
  fst r = Normal tt
  ∧ app_log (snd r) = [(LogError, "Excel出力中にエラーが発生しました: disk full")]
  ∧ View (ErrorBox "Excel出力中にエラーが発生しました: disk full") ∈ app_page (snd r)
  ∧ length (download_buttons (app_page (snd r))) = 1%nat
  ∧ ss_results (app_session (snd r)) = ss_results (app_session exporting_app).
Proof.
  vm_compute. split; [done|]. split; [done|]. split; [|done].
  repeat (first [apply list_elem_of_here | apply list_elem_of_further]).
Qed.
